(** * The pymochow example script

    A shallow embedding of [example/example.py], the demonstration
    harness of the Mochow vector-database client, and the properties of
    its control flow: the order of the SDK calls it issues, its polling
    loops, its exception handlers and the [num_to_binary_list] helper.

    The remote service is a parameter: a [Server] answers every SDK call
    from the history of the run so far, so that a statement quantified
    over servers covers every execution of the script. *)

From Stdlib Require Import ZArith List String Ascii Lia Bool Floats DecimalString.
Import ListNotations.
Local Open Scope Z_scope.
Set Warnings "-inexact-float,-register-all".

(** ** Python values and builtins *)

Inductive PyVal : Type :=
| VNone
| VBool (b : bool)
| VInt (n : Z)
| VFloat (x : float)
| VStr (s : string)
| VList (items : list PyVal)
| VDict (items : list (PyVal * PyVal)).

(** Exceptions raised by the SDK, as the script tells them apart: the two
    classes imported from [pymochow.exception], and everything else. *)
Module ServerErrCode.
(** Modelled from the spec: [pymochow.model.enum.ServerErrCode] is not
    part of the example; the script names two of its members ("table
    does not exist", "index does not exist"), the others are kept by
    their number. *)
Inductive t : Type :=
| TABLE_NOT_EXIST
| INDEX_NOT_EXIST
| Other (code : Z).

Definition eqb (a b : t) : bool :=
  match a, b with
  | TABLE_NOT_EXIST, TABLE_NOT_EXIST => true
  | INDEX_NOT_EXIST, INDEX_NOT_EXIST => true
  | Other x, Other y => x =? y
  | _, _ => false
  end.
End ServerErrCode.

(** Modelled from the spec: [pymochow.exception] is not part of the
    example; client-side and server-side errors are two unrelated
    classes, and a server-side error carries a status code. *)
Inductive SdkError : Type :=
| ClientError (message : string)
| ServerError (code : ServerErrCode.t) (message : string)
| OtherError (class_name message : string).

Inductive Exn : Type :=
| Sdk (e : SdkError)
| Exception (message : string)
| UnboundLocalError (variable : string)
| ValueError (message : string)
| AssertionError.

(** [UnboundLocalError] is a subclass of [NameError]. *)
Definition is_NameError (e : Exn) : bool :=
  match e with UnboundLocalError _ => true | _ => false end.

(** Outcome of running a piece of the script: a value, an exception that
    nothing caught, or a loop that was still running when the fuel of
    the model ran out. *)
Inductive Res (A : Type) : Type :=
| Ok (a : A)
| Raise (e : Exn)
| Diverge.
Arguments Ok {A} a.
Arguments Raise {A} e.
Arguments Diverge {A}.

Module Py.

(** Binary digits of a positive number, most significant first. *)
Fixpoint bin_digits (p : positive) : string :=
  match p with
  | xH => "1"
  | xO q => bin_digits q ++ "0"
  | xI q => bin_digits q ++ "1"
  end%string.

(** [bin(num)] *)
Definition bin (num : Z) : string :=
  match num with
  | Z0 => "0b0"
  | Zpos p => "0b" ++ bin_digits p
  | Zneg p => "-0b" ++ bin_digits p
  end%string.

(** [s[start:]] for a constant [start >= 0] *)
Fixpoint str_from (start : nat) (s : string) : string :=
  match start, s with
  | O, _ => s
  | S n, EmptyString => EmptyString
  | S n, String _ s' => str_from n s'
  end.

(** [int(c)] for a one-character string [c] *)
Definition int_of_char (c : ascii) : Res Z :=
  let n := Z.of_nat (nat_of_ascii c) in
  if (48 <=? n) && (n <=? 57) then Ok (n - 48)
  else Raise (ValueError "invalid literal for int() with base 10").

(** [[int(c) for c in s]] *)
Fixpoint ints_of_chars (s : string) : Res (list Z) :=
  match s with
  | EmptyString => Ok []
  | String c s' =>
      match int_of_char c with
      | Ok d => match ints_of_chars s' with
                | Ok ds => Ok (d :: ds)
                | Raise e => Raise e
                | Diverge => Diverge
                end
      | Raise e => Raise e
      | Diverge => Diverge
      end
  end.

(** [len(l)] *)
Definition len {A} (l : list A) : Z := Z.of_nat (List.length l).

(** [l[:stop]]; a negative [stop] counts from the end *)
Definition slice_to {A} (stop : Z) (l : list A) : list A :=
  if 0 <=? stop then firstn (Z.to_nat stop) l
  else firstn (Z.to_nat (len l + stop)) l.

(** [[x] * n]; empty when [n <= 0] *)
Definition list_mul {A} (x : A) (n : Z) : list A := repeat x (Z.to_nat n).

(** [str(n)] for an integer *)
Definition str (n : Z) : string := NilZero.string_of_int (Z.to_int n).

(** [float(n)] as done by int-float arithmetic, for the small integers
    of the script *)
Definition float_of_int (n : Z) : float := PrimFloat.of_uint63 (Uint63.of_Z n).

(** [range(n)] *)
Definition range (n : Z) : list Z := map Z.of_nat (seq 0 (Z.to_nat n)).

End Py.

(** ** The SDK's data model

    Modelled from the spec: the classes of [pymochow.model] are not part
    of the example. Each is a record of the arguments the script passes
    to its constructor; a keyword the script may leave out is an
    [option]. *)

Module FieldType.
Inductive t : Type :=
| STRING | UINT32 | TEXT | FLOAT_VECTOR | ARRAY | JSON
| BINARY_VECTOR | SPARSE_FLOAT_VECTOR.
End FieldType.

Module ElementType.
Inductive t : Type := STRING.
End ElementType.

Module IndexType.
Inductive t : Type :=
| HNSW | HNSWPQ | PUCK | SPARSE_OPTIMIZED_FLAT
| Other (name : string).

Definition eqb (a b : t) : bool :=
  match a, b with
  | HNSW, HNSW | HNSWPQ, HNSWPQ | PUCK, PUCK => true
  | SPARSE_OPTIMIZED_FLAT, SPARSE_OPTIMIZED_FLAT => true
  | Other x, Other y => String.eqb x y
  | _, _ => false
  end.
End IndexType.

Module MetricType.
Inductive t : Type := L2 | IP.
End MetricType.

Module InvertedIndexAnalyzer.
Inductive t : Type := CHINESE_ANALYZER.
End InvertedIndexAnalyzer.

Module InvertedIndexParseMode.
Inductive t : Type := COARSE_MODE.
End InvertedIndexParseMode.

Module InvertedIndexFieldAttribute.
Inductive t : Type := ANALYZED.
End InvertedIndexFieldAttribute.

Module TableState.
Inductive t : Type := NORMAL | Other (name : string).
Definition eqb (a b : t) : bool :=
  match a, b with
  | NORMAL, NORMAL => true
  | Other x, Other y => String.eqb x y
  | _, _ => false
  end.
End TableState.

Module IndexState.
Inductive t : Type := NORMAL | Other (name : string).
Definition eqb (a b : t) : bool :=
  match a, b with
  | NORMAL, NORMAL => true
  | Other x, Other y => String.eqb x y
  | _, _ => false
  end.
End IndexState.

Record Field : Type := {
  field_name : string;
  field_type : FieldType.t;
  primary_key : option bool;
  partition_key : option bool;
  auto_increment : option bool;
  not_null : option bool;
  dimension : option Z;
  element_type : option ElementType.t
}.

Inductive VectorIndexParams : Type :=
| HNSWParams (m efconstruction : Z)
| HNSWPQParams (m efconstruction NSQ : Z) (samplerate : float)
| PUCKParams (coarseClusterCount fineClusterCount : Z).

Record InvertedIndexParams : Type := {
  analyzer : InvertedIndexAnalyzer.t;
  parse_mode : InvertedIndexParseMode.t;
  case_sensitive : bool
}.

Inductive Index : Type :=
| VectorIndex (index_name : string) (index_type : IndexType.t)
    (field : string) (metric_type : MetricType.t)
    (params : option VectorIndexParams) (auto_build : option bool)
| SecondaryIndex (index_name field : string)
| FilteringIndex (index_name : string) (fields : list string)
| InvertedIndex (index_name : string) (fields : list string)
    (params : InvertedIndexParams)
    (field_attributes : list InvertedIndexFieldAttribute.t).

Definition is_vector_index (i : Index) : bool :=
  match i with VectorIndex _ _ _ _ _ _ => true | _ => false end.

Record Schema : Type := {
  schema_fields : list Field;
  schema_indexes : option (list Index)
}.

Record Partition : Type := { partition_num : Z }.

Inductive Vector : Type :=
| FloatVector (values : list PyVal)
| BinaryVector_from_binary_list (bits : list Z)
| SparseFloatVector_from_dict (entries : list (Z * float)).

(** A cell of a row: a plain Python value or one of the SDK's vectors. *)
Inductive Cell : Type :=
| CVal (v : PyVal)
| CVec (v : Vector).

(** A [Row]: its keyword arguments in the order they are written. *)
Definition Row : Type := list (string * Cell).

Record BatchQueryKey : Type := { key_primary_key : list (string * PyVal) }.

Inductive VectorSearchConfig : Type :=
| Config_ef (ef : Z)
| Config_search_coarse_count (search_coarse_count : Z).

Record VectorTopkSearchRequest : Type := {
  topk_vector_field : string;
  topk_vector : Vector;
  topk_limit : option Z;
  topk_filter : option string;
  topk_config : option VectorSearchConfig
}.

Record VectorRangeSearchRequest : Type := {
  range_vector_field : string;
  range_vector : Vector;
  range_distance_range : PyVal * PyVal;
  range_limit : Z;
  range_filter : option string;
  range_config : VectorSearchConfig
}.

Record VectorBatchSearchRequest : Type := {
  batch_vector_field : string;
  batch_vectors : list Vector;
  batch_limit : Z;
  batch_filter : option string;
  batch_config : VectorSearchConfig
}.

Inductive Ranking : Type :=
| RRFRank (k : Z)
| WeightedRank (weights : list float).

Record MultiVectorSearchRequest : Type := {
  multi_requests : list VectorTopkSearchRequest;
  multi_ranking : Ranking;
  multi_limit : Z;
  multi_filter : option string
}.

(** What [table.vector_search] and [table.search_iterator] accept. *)
Inductive VectorSearchRequest : Type :=
| Topk (r : VectorTopkSearchRequest)
| Range (r : VectorRangeSearchRequest)
| Batch (r : VectorBatchSearchRequest)
| Multi (r : MultiVectorSearchRequest).

Record BM25SearchRequest : Type := {
  bm25_index_name : string;
  bm25_search_text : string;
  bm25_limit : option Z;
  bm25_filter : option string
}.

Record HybridSearchRequest : Type := {
  hybrid_vector_request : VectorTopkSearchRequest;
  hybrid_vector_weight : float;
  hybrid_bm25_request : BM25SearchRequest;
  hybrid_bm25_weight : float;
  hybrid_filter : string;
  hybrid_limit : Z
}.

Record AutoBuildTiming : Type := { timing : string }.

Record BceCredentials : Type := { account : string; api_key : string }.

Record Configuration : Type := {
  credentials : BceCredentials;
  endpoint : string
}.

(** Objects handed out by the SDK. *)
Record MochowClient : Type := { client_config : Configuration }.

Record Database : Type := { database_name : string }.

Record Table : Type := {
  table_database : string;
  table_name : string;
  table_state : TableState.t
}.

Record IndexDescription : Type := {
  described_index_name : string;
  index_state : IndexState.t
}.

Record SearchIterator : Type := { iterator_id : Z }.

Record SelectResult : Type := {
  is_truncated : bool;
  next_marker : PyVal;
  select_rows : list PyVal
}.

(** What the script does not look into: the result of a call that it
    only logs or drops. *)
Definition Response : Type := PyVal.

(** ** SDK calls, events and servers *)

(** The methods of the SDK the script calls, each with its receiver and
    arguments; the index is the type of what the call returns. *)
Inductive Call : Type -> Type :=
| client_database (c : MochowClient) (name : string) : Call Database
| client_create_database (c : MochowClient) (name : string) : Call Database
| client_list_databases (c : MochowClient) : Call (list Database)
| client_close (c : MochowClient) : Call Response
| db_drop_table (db : Database) (name : string) : Call Response
| db_drop_database (db : Database) : Call Response
| db_create_table (db : Database) (name : string) (replication : Z)
    (partition : Partition) (schema : Schema) : Call Response
| db_describe_table (db : Database) (name : string) : Call Table
| db_modify_table (db : Database) (name : string)
    (datanode_memory_reserved_in_gb : float) : Call Response
| db_table (db : Database) (name : string) : Call Table
| table_upsert (t : Table) (rows : list Row) : Call Response
| table_add_fields (t : Table) (schema : Schema) : Call Response
| table_stats (t : Table) : Call Response
| table_query (t : Table) (primary_key : list (string * PyVal))
    (projections : list string) (retrieve_vector : bool) : Call Response
| table_batch_query (t : Table) (keys : list BatchQueryKey)
    (projections : list string) (retrieve_vector : bool) : Call Response
| table_rebuild_index (t : Table) (name : string) : Call Response
| table_describe_index (t : Table) (name : string) : Call IndexDescription
| table_vector_search (t : Table) (request : VectorSearchRequest)
    (projections : option (list string)) : Call Response
| table_search_iterator (t : Table) (request : VectorSearchRequest)
    (batch_size total_size : Z) : Call SearchIterator
| iterator_next (it : SearchIterator) : Call (list PyVal)
| iterator_close (it : SearchIterator) : Call Response
| table_bm25_search (t : Table) (request : BM25SearchRequest) : Call Response
| table_hybrid_search (t : Table) (request : HybridSearchRequest) : Call Response
| table_select (t : Table) (marker : PyVal) (projections : list string)
    (limit : Z) : Call SelectResult
| table_update (t : Table) (primary_key update_fields : list (string * PyVal))
    : Call Response
| table_delete (t : Table) (primary_key : list (string * PyVal)) : Call Response
| table_drop_index (t : Table) (name : string) : Call Response
| table_create_indexes (t : Table) (indexes : list Index) : Call Response
| table_modify_index (t : Table) (index_name : string) (auto_build : bool)
    (auto_build_index_policy : AutoBuildTiming) : Call Response.

(** What a log line is formatted from. *)
Inductive Printable : Type :=
| PStr (s : string)
| PVal (v : PyVal)
| PTable (t : Table)
| PIndex (i : IndexDescription)
| PSelect (r : SelectResult)
| PRows (rows : list PyVal)
| PError (e : SdkError)
| PCode (c : ServerErrCode.t).

(** What the script does to the outside world, in the order it does it:
    an SDK call with what came back, a [time.sleep], a [logger.debug]. *)
Inductive Event : Type :=
| EvCall {R : Type} (c : Call R) (r : SdkError + R)
| EvSleep (seconds : Z)
| EvLog (template : string) (arg : option Printable).

(** A server answers a call from everything that happened before it. *)
Definition Server : Type := list Event -> forall R : Type, Call R -> SdkError + R.

(** ** The monad of the script

    A computation reads the history of the run and returns its outcome
    with the events it added. *)
Definition M (A : Type) : Type := list Event -> Res A * list Event.

Definition ret {A} (a : A) : M A := fun _ => (Ok a, []).

Definition raise {A} (e : Exn) : M A := fun _ => (Raise e, []).

Definition diverge {A} : M A := fun _ => (Diverge, []).

Definition bind {A B} (m : M A) (k : A -> M B) : M B := fun h =>
  let (r, ev) := m h in
  match r with
  | Ok a => let (r', ev') := k a (h ++ ev) in (r', ev ++ ev')
  | Raise e => (Raise e, ev)
  | Diverge => (Diverge, ev)
  end.

Notation "x <- m ;; k" := (bind m (fun x => k))
  (at level 61, m at next level, right associativity).
Notation "m ;; k" := (bind m (fun _ => k))
  (at level 61, right associativity).

(** A pure computation that may raise. *)
Definition lift {A} (r : Res A) : M A := fun _ => (r, []).

(** [try: m  except <class> as e: handler e]; [handler e = None] when the
    except clause does not match [e]. *)
Definition try_except {A} (m : M A) (handler : Exn -> option (M A)) : M A :=
  fun h =>
    let (r, ev) := m h in
    match r with
    | Raise e =>
        match handler e with
        | Some k => let (r', ev') := k (h ++ ev) in (r', ev ++ ev')
        | None => (Raise e, ev)
        end
    | _ => (r, ev)
    end.

(** [except ClientError as e] *)
Definition except_ClientError {A} (body : SdkError -> M A) (e : Exn) : option (M A) :=
  match e with
  | Sdk (ClientError msg) => Some (body (ClientError msg))
  | _ => None
  end.

(** [except ServerError as e]; the body gets [e.code] and [e]. *)
Definition except_ServerError {A} (body : ServerErrCode.t -> SdkError -> M A)
    (e : Exn) : option (M A) :=
  match e with
  | Sdk (ServerError code msg) => Some (body code (ServerError code msg))
  | _ => None
  end.

(** [while True:] with a body that says whether to go round again
    ([inl], with the variables it carries over) or to [break] ([inr]). *)
Fixpoint while_true {I A} (fuel : nat) (body : I -> M (I + A)) (i : I) : M A :=
  match fuel with
  | O => diverge
  | S fuel' =>
      r <- body i ;;
      match r with
      | inl i' => while_true fuel' body i'
      | inr a => ret a
      end
  end.

(** [for x in l:] *)
Fixpoint for_each {A} (l : list A) (body : A -> M unit) : M unit :=
  match l with
  | [] => ret tt
  | x :: l' => body x ;; for_each l' body
  end.

(** [[f(x) for x in l]] and loops that only append to a list *)
Fixpoint map_M {A B} (f : A -> M B) (l : list A) : M (list B) :=
  match l with
  | [] => ret []
  | x :: l' => y <- f x ;; ys <- map_M f l' ;; ret (y :: ys)
  end.

(** Reading a local variable that some paths leave unassigned. *)
Definition read_local {A} (name : string) (v : option A) : M A :=
  match v with
  | Some a => ret a
  | None => raise (UnboundLocalError name)
  end.

Definition sleep (seconds : Z) : M unit := fun _ => (Ok tt, [EvSleep seconds]).

Definition logger_debug (template : string) (arg : option Printable) : M unit :=
  fun _ => (Ok tt, [EvLog template arg]).

(** ** The helper of [binary_vector_usage_example] *)

(** convert num to it's binary representation, a list of 0 and 1 *)
Definition num_to_binary_list (num dimension : Z) : Res (list Z) :=
  let binary_str := Py.str_from 2 (Py.bin num) in
  match Py.ints_of_chars binary_str with
  | Ok binary_list =>
      let binary_list :=
        if Py.len binary_list >? dimension then
          Py.slice_to dimension binary_list
        else if Py.len binary_list <? dimension then
          let tmp := Py.list_mul 0 (dimension - Py.len binary_list) in
          tmp ++ binary_list
        else binary_list in
      if Py.len binary_list =? dimension then Ok binary_list
      else Raise AssertionError
  | Raise e => Raise e
  | Diverge => Diverge
  end.

(** ** The class [TestMochow] *)

Record TestMochow : Type := {
  _client : MochowClient;
  _vector_index_type : IndexType.t
}.

(** init mochow client *)
Definition TestMochow_init (config : Configuration)
    (vector_index_type : IndexType.t) : TestMochow :=
  {| _client := {| client_config := config |};
     _vector_index_type := vector_index_type |}.

(** The rows [upsert_data] writes out in full. *)
Definition upsert_literal_rows : list Row :=
  [ [ ("id", CVal (VStr "0001"));
      ("vector", CVal (VList [VInt 1; VFloat 0.21; VFloat 0.213; VInt 0]));
      ("bookName", CVal (VStr "西游记"));
      ("author", CVal (VStr "吴承恩"));
      ("page", CVal (VInt 21));
      ("arr_field", CVal (VList []));
      ("json_field", CVal (VDict []));
      ("segment", CVal (VStr "富贵功名，前缘分定，为人切莫欺心。")) ];
    [ ("id", CVal (VStr "0002"));
      ("vector", CVal (VList [VInt 2; VFloat 0.22; VFloat 0.213; VInt 0]));
      ("bookName", CVal (VStr "西游记"));
      ("author", CVal (VStr "吴承恩"));
      ("page", CVal (VInt 22));
      ("arr_field", CVal (VList []));
      ("json_field", CVal (VDict [(VStr "page", VInt 22)]));
      ("segment", CVal (VStr
         "正大光明，忠良善果弥深。些些狂妄天加谴，眼前不遇待时临。")) ];
    [ ("id", CVal (VStr "0003"));
      ("vector", CVal (VList [VInt 3; VFloat 0.23; VFloat 0.213; VInt 0]));
      ("bookName", CVal (VStr "三国演义"));
      ("author", CVal (VStr "罗贯中"));
      ("page", CVal (VInt 23));
      ("arr_field", CVal (VList [VStr "细作"; VStr "吕布"]));
      ("json_field", CVal (VDict [(VStr "author", VStr "罗贯中")]));
      ("segment", CVal (VStr "细作探知这个消息，飞报吕布。")) ];
    [ ("id", CVal (VStr "0004"));
      ("vector", CVal (VList [VInt 4; VFloat 0.24; VFloat 0.213; VInt 0]));
      ("bookName", CVal (VStr "三国演义"));
      ("author", CVal (VStr "罗贯中"));
      ("page", CVal (VInt 24));
      ("arr_field", CVal (VList [VStr "吕布"; VStr "陈宫"; VStr "刘玄德"]));
      ("json_field", CVal (VDict [(VStr "bookName", VStr "三国演义")]));
      ("segment", CVal (VStr
         ("布大惊，与陈宫商议。宫曰：“闻刘玄德新领徐州，可往投之。”"
          ++ "布从其言，竟投徐州来。有人报知玄德。"))) ];
    [ ("id", CVal (VStr "0005"));
      ("vector", CVal (VList [VInt 5; VFloat 0.25; VFloat 0.213; VInt 0]));
      ("bookName", CVal (VStr "三国演义"));
      ("author", CVal (VStr "罗贯中"));
      ("page", CVal (VInt 25));
      ("arr_field", CVal (VList [VStr "玄德"; VStr "糜竺"; VStr "吕布"]));
      ("json_field", CVal (VDict
         [ (VStr "product_info",
            VDict [ (VStr "category", VStr "electronics");
                    (VStr "brand", VStr "BrandA") ]);
           (VStr "price", VFloat 99.99);
           (VStr "in_stock", VBool true);
           (VStr "tags", VList [VStr "summer_sale"; VStr "clearance"]) ]));
      ("segment", CVal (VStr
         ("玄德曰：“布乃当今英勇之士，可出迎之。”"
          ++ "糜竺曰：“吕布乃虎狼之徒，不可收留；收则伤人矣。"))) ]
  ]%string.

(** The row [upsert_data] appends for the counter [i]. *)
Definition upsert_generated_row (i : Z) : Row :=
  [ ("id", CVal (VStr (Py.str i)));
    ("vector", CVal (VList
       [VInt i; VFloat (0.2 + Py.float_of_int i * 0.01); VFloat 0.213; VInt 0]));
    ("bookName", CVal (VStr "三国演义"));
    ("author", CVal (VStr "罗贯中"));
    ("page", CVal (VInt 25));
    ("arr_field", CVal (VList [VStr "玄德"; VStr "糜竺"; VStr "吕布"]));
    ("segment", CVal (VStr
       ("玄德曰：“布乃当今英勇之士，可出迎之。”"
        ++ "糜竺曰：“吕布乃虎狼之徒，不可收留；收则伤人矣。"))) ]%string%float.

(** [while i <= 100: rows.append(...); i += 1], run [n] times. *)
Fixpoint upsert_append_rows (n : nat) (i : Z) (rows : list Row) : list Row :=
  match n with
  | O => rows
  | S n' => upsert_append_rows n' (i + 1) (rows ++ [upsert_generated_row i])
  end.

Definition the_vector : Vector :=
  FloatVector [VInt 1; VFloat 0.21; VFloat 0.213; VInt 0].

Definition the_filter : string := "bookName='三国演义'".

Section Script.

Variable srv : Server.

Definition call {R} (c : Call R) : M R := fun h =>
  match srv h R c with
  | inl err => (Raise (Sdk err), [EvCall c (inl err)])
  | inr v => (Ok v, [EvCall c (inr v)])
  end.

(** The fuel of every [while True:] loop. *)
Variable fuel : nat.

Definition clear (self : TestMochow) : M unit :=
  let db : option Database := None in
  db <- try_except
          (d <- call (client_database self.(_client) "book") ;; ret (Some d))
          (except_ClientError (fun e =>
             logger_debug "database {} not found." (Some (PStr "book")) ;;
             ret db)) ;;
  match db with
  | Some db =>
      try_except
        (_ <- call (db_drop_table db "book_segments") ;; ret tt)
        (except_ServerError (fun code e =>
           logger_debug "drop table error {}" (Some (PError e)) ;;
           if ServerErrCode.eqb code ServerErrCode.TABLE_NOT_EXIST
           then ret tt
           else ret tt)) ;;
      sleep 10 ;;
      _ <- call (db_drop_database db) ;;
      ret tt
  | None => ret tt
  end.

(** create database&table *)
Definition create_db_and_table (self : TestMochow) : M unit :=
  let database := "book"%string in
  let table_name := "book_segments"%string in
  db <- call (client_create_database self.(_client) database) ;;
  database_list <- call (client_list_databases self.(_client)) ;;
  for_each database_list (fun db_item =>
    logger_debug "database: {}" (Some (PStr db_item.(database_name)))) ;;
  let fields : list Field := [] in
  let fields := fields ++
    [ {| field_name := "id"; field_type := FieldType.STRING;
         primary_key := Some true; partition_key := Some true;
         auto_increment := Some false; not_null := Some true;
         dimension := None; element_type := None |} ] in
  let fields := fields ++
    [ {| field_name := "bookName"; field_type := FieldType.STRING;
         primary_key := None; partition_key := None;
         auto_increment := None; not_null := Some true;
         dimension := None; element_type := None |} ] in
  let fields := fields ++
    [ {| field_name := "author"; field_type := FieldType.STRING;
         primary_key := None; partition_key := None;
         auto_increment := None; not_null := None;
         dimension := None; element_type := None |} ] in
  let fields := fields ++
    [ {| field_name := "page"; field_type := FieldType.UINT32;
         primary_key := None; partition_key := None;
         auto_increment := None; not_null := None;
         dimension := None; element_type := None |} ] in
  let fields := fields ++
    [ {| field_name := "segment"; field_type := FieldType.TEXT;
         primary_key := None; partition_key := None;
         auto_increment := None; not_null := None;
         dimension := None; element_type := None |} ] in
  let fields := fields ++
    [ {| field_name := "vector"; field_type := FieldType.FLOAT_VECTOR;
         primary_key := None; partition_key := None;
         auto_increment := None; not_null := Some true;
         dimension := Some 4; element_type := None |} ] in
  let fields := fields ++
    [ {| field_name := "arr_field"; field_type := FieldType.ARRAY;
         primary_key := None; partition_key := None;
         auto_increment := None; not_null := Some true;
         dimension := None; element_type := Some ElementType.STRING |} ] in
  let fields := fields ++
    [ {| field_name := "json_field"; field_type := FieldType.JSON;
         primary_key := None; partition_key := None;
         auto_increment := None; not_null := None;
         dimension := None; element_type := None |} ] in
  let indexes : list Index := [] in
  indexes <-
    (if IndexType.eqb self.(_vector_index_type) IndexType.HNSW then
       ret (indexes ++
         [ VectorIndex "vector_idx" IndexType.HNSW "vector" MetricType.L2
             (Some (HNSWParams 32 200)) None ])
     else if IndexType.eqb self.(_vector_index_type) IndexType.HNSWPQ then
       ret (indexes ++
         [ VectorIndex "vector_idx" IndexType.HNSWPQ "vector" MetricType.L2
             (Some (HNSWPQParams 16 200 4 1.0)) None ])
     else if IndexType.eqb self.(_vector_index_type) IndexType.PUCK then
       ret (indexes ++
         [ VectorIndex "vector_idx" IndexType.PUCK "vector" MetricType.L2
             (Some (PUCKParams 5 5)) None ])
     else raise (Exception "not support index type")) ;;
  let indexes := indexes ++ [ SecondaryIndex "book_name_idx" "bookName" ] in
  let indexes := indexes ++
    [ FilteringIndex "book_name_filtering_idx" ["bookName"%string] ] in
  let indexes := indexes ++
    [ InvertedIndex "book_segment_inverted_idx" ["segment"%string]
        {| analyzer := InvertedIndexAnalyzer.CHINESE_ANALYZER;
           parse_mode := InvertedIndexParseMode.COARSE_MODE;
           case_sensitive := true |}
        [InvertedIndexFieldAttribute.ANALYZED] ] in
  _ <- call (db_create_table db table_name 3 {| partition_num := 1 |}
               {| schema_fields := fields; schema_indexes := Some indexes |}) ;;
  table <- while_true fuel (fun _ : unit =>
             sleep 2 ;;
             table <- call (db_describe_table db table_name) ;;
             if TableState.eqb table.(table_state) TableState.NORMAL
             then ret (inr table)
             else ret (inl tt)) tt ;;
  sleep 10 ;;
  logger_debug "table: {}" (Some (PTable table)) ;;
  _ <- call (db_modify_table db table_name 0.1) ;;
  sleep 10 ;;
  logger_debug "table: {}" (Some (PTable table)).

(** upsert data *)
Definition upsert_data (self : TestMochow) : M unit :=
  db <- call (client_database self.(_client) "book") ;;
  table <- call (db_table db "book_segments") ;;
  let rows := upsert_literal_rows in
  let i := 6 in
  let rows := upsert_append_rows (Z.to_nat (100 - i + 1)) i rows in
  _ <- call (table_upsert table rows) ;;
  sleep 10.

(** change table schema *)
Definition change_table_schema (self : TestMochow) : M unit :=
  db <- call (client_database self.(_client) "book") ;;
  table <- call (db_table db "book_segments") ;;
  let fields : list Field := [] in
  let fields := fields ++
    [ {| field_name := "publisher"; field_type := FieldType.STRING;
         primary_key := None; partition_key := None;
         auto_increment := None; not_null := None;
         dimension := None; element_type := None |} ] in
  let fields := fields ++
    [ {| field_name := "synopsis"; field_type := FieldType.STRING;
         primary_key := None; partition_key := None;
         auto_increment := None; not_null := None;
         dimension := None; element_type := None |} ] in
  res <- call (table_add_fields table
                 {| schema_fields := fields; schema_indexes := None |}) ;;
  logger_debug "res: {}" (Some (PVal res)).

(** show table stats *)
Definition show_table_stats (self : TestMochow) : M unit :=
  db <- call (client_database self.(_client) "book") ;;
  table <- call (db_table db "book_segments") ;;
  res <- call (table_stats table) ;;
  logger_debug "res: {}" (Some (PVal res)).

(** query data *)
Definition query_data (self : TestMochow) : M unit :=
  db <- call (client_database self.(_client) "book") ;;
  table <- call (db_table db "book_segments") ;;
  let primary_key := [("id"%string, VStr "0001")] in
  let projections := ["id"; "bookName"]%string in
  res <- call (table_query table primary_key projections true) ;;
  logger_debug "query res: {}" (Some (PVal res)).

(** query data *)
Definition batch_query_data (self : TestMochow) : M unit :=
  db <- call (client_database self.(_client) "book") ;;
  table <- call (db_table db "book_segments") ;;
  let projections := ["id"; "bookName"]%string in
  res <- call (table_batch_query table
                 [ {| key_primary_key := [("id"%string, VStr "0001")] |};
                   {| key_primary_key := [("id"%string, VStr "0002")] |};
                   {| key_primary_key := [("id"%string, VStr "1003")] |} ]
                 projections true) ;;
  logger_debug "batch query res: {}" (Some (PVal res)).

Definition is_HNSW_or_HNSWPQ (self : TestMochow) : bool :=
  IndexType.eqb self.(_vector_index_type) IndexType.HNSW
  || IndexType.eqb self.(_vector_index_type) IndexType.HNSWPQ.

Definition is_PUCK (self : TestMochow) : bool :=
  IndexType.eqb self.(_vector_index_type) IndexType.PUCK.

(** search data *)
Definition vector_search (self : TestMochow) : M unit :=
  db <- call (client_database self.(_client) "book") ;;
  table <- call (db_table db "book_segments") ;;
  _ <- call (table_rebuild_index table "vector_idx") ;;
  index <- while_true fuel (fun _ : unit =>
             sleep 2 ;;
             index <- call (table_describe_index table "vector_idx") ;;
             if IndexState.eqb index.(index_state) IndexState.NORMAL
             then ret (inr index)
             else ret (inl tt)) tt ;;
  (* single topk search *)
  let request : option VectorSearchRequest := None in
  let request :=
    if is_HNSW_or_HNSWPQ self then
      Some (Topk {| topk_vector_field := "vector"; topk_vector := the_vector;
                    topk_limit := Some 10; topk_filter := Some the_filter;
                    topk_config := Some (Config_ef 200) |})
    else if is_PUCK self then
      Some (Topk {| topk_vector_field := "vector"; topk_vector := the_vector;
                    topk_limit := Some 5; topk_filter := Some the_filter;
                    topk_config := Some (Config_search_coarse_count 5) |})
    else request in
  request_read <- read_local "request" request ;;
  res <- call (table_vector_search table request_read None) ;;
  logger_debug "topk search res: {}" (Some (PVal res)) ;;
  (* single range search *)
  let request :=
    if is_HNSW_or_HNSWPQ self then
      Some (Range {| range_vector_field := "vector"; range_vector := the_vector;
                     range_distance_range := (VInt 0, VInt 20);
                     range_limit := 10; range_filter := Some the_filter;
                     range_config := Config_ef 200 |})
    else if is_PUCK self then
      Some (Range {| range_vector_field := "vector"; range_vector := the_vector;
                     range_distance_range := (VInt 0, VInt 20);
                     range_limit := 5; range_filter := None;
                     range_config := Config_search_coarse_count 5 |})
    else request in
  request_read <- read_local "request" request ;;
  res <- call (table_vector_search table request_read None) ;;
  logger_debug "range search res: {}" (Some (PVal res)) ;;
  (* batch search *)
  let request :=
    if is_HNSW_or_HNSWPQ self then
      Some (Batch {| batch_vector_field := "vector";
                     batch_vectors :=
                       [ FloatVector [VInt 1; VFloat 0.21; VFloat 0.213; VInt 0];
                         FloatVector [VInt 1; VFloat 0.32; VFloat 0.513; VInt 0] ];
                     batch_limit := 10; batch_filter := Some the_filter;
                     batch_config := Config_ef 200 |})
    else if is_PUCK self then
      Some (Batch {| batch_vector_field := "vector";
                     batch_vectors :=
                       [ FloatVector [VInt 1; VFloat 0.21; VFloat 0.213; VInt 0];
                         FloatVector [VInt 1; VFloat 0.32; VFloat 0.513; VInt 0] ];
                     batch_limit := 5; batch_filter := Some the_filter;
                     batch_config := Config_search_coarse_count 5 |})
    else request in
  request_read <- read_local "request" request ;;
  res <- call (table_vector_search table request_read None) ;;
  logger_debug "batch search res: {}" (Some (PVal res)) ;;
  (* multi-vector search *)
  let config : option VectorSearchConfig := None in
  let config :=
    if is_HNSW_or_HNSWPQ self then Some (Config_ef 200)
    else if is_PUCK self then Some (Config_search_coarse_count 5)
    else config in
  (* in real world senario, you should use vectors in different vector fields *)
  config_read <- read_local "config" config ;;
  let requests :=
    [ {| topk_vector_field := "vector"; topk_vector := the_vector;
         topk_limit := Some 10; topk_filter := None;
         topk_config := Some config_read |};
      {| topk_vector_field := "vector"; topk_vector := the_vector;
         topk_limit := Some 10; topk_filter := None;
         topk_config := Some config_read |} ] in
  let request :=
    Multi {| multi_requests := requests; multi_ranking := RRFRank 60;
             multi_limit := 10; multi_filter := Some the_filter |} in
  res <- call (table_vector_search table request (Some ["id"%string])) ;;
  logger_debug "multi vector search res: {}" (Some (PVal res)).

(** search iterator *)
Definition search_iterator (self : TestMochow) : M unit :=
  db <- call (client_database self.(_client) "book") ;;
  table <- call (db_table db "book_segments") ;;
  (* Example1: search iterator for TopK search. *)
  logger_debug "Start search iterator for TopK search" None ;;
  let request :=
    Topk {| topk_vector_field := "vector"; topk_vector := the_vector;
            topk_limit := Some 1000; topk_filter := None;
            topk_config := Some (Config_ef 2000) |} in
  iterator1 <- call (table_search_iterator table request 1000 10000) ;;
  while_true fuel (fun _ : unit =>
    rows <- call (iterator_next iterator1) ;;
    match rows with
    | [] => ret (inr tt)
    | _ :: _ => logger_debug "rows:{}" (Some (PRows rows)) ;; ret (inl tt)
    end) tt ;;
  _ <- call (iterator_close iterator1) ;;
  logger_debug "Finish search iterator for TopK search" None ;;
  (* Example2: search iterator for multi-vector search. *)
  logger_debug "Start search iterator for multi-vector search" None ;;
  let requests :=
    [ {| topk_vector_field := "vector"; topk_vector := the_vector;
         topk_limit := Some 1000; topk_filter := None;
         topk_config := Some (Config_ef 2000) |};
      {| topk_vector_field := "vector"; topk_vector := the_vector;
         topk_limit := Some 1000; topk_filter := None;
         topk_config := Some (Config_ef 2000) |} ] in
  let request :=
    Multi {| multi_requests := requests;
             multi_ranking := WeightedRank [1.0; 1.0]%float;
             multi_limit := 1000; multi_filter := None |} in
  iterator2 <- call (table_search_iterator table request 1000 10000) ;;
  while_true fuel (fun _ : unit =>
    rows <- call (iterator_next iterator2) ;;
    match rows with
    | [] => ret (inr tt)
    | _ :: _ => logger_debug "rows:{}" (Some (PRows rows)) ;; ret (inl tt)
    end) tt ;;
  _ <- call (iterator_close iterator2) ;;
  logger_debug "Finish search iterator for multi-vector search" None.

(** bm25 search *)
Definition bm25_search (self : TestMochow) : M unit :=
  db <- call (client_database self.(_client) "book") ;;
  table <- call (db_table db "book_segments") ;;
  let request :=
    {| bm25_index_name := "book_segment_inverted_idx";
       bm25_search_text := "吕布";
       bm25_limit := Some 10;
       bm25_filter := Some the_filter |} in
  res <- call (table_bm25_search table request) ;;
  logger_debug "BM25 search res: {}" (Some (PVal res)).

(** do anns and/or bm25 search *)
Definition hybrid_search (self : TestMochow) : M unit :=
  db <- call (client_database self.(_client) "book") ;;
  table <- call (db_table db "book_segments") ;;
  let config : option VectorSearchConfig := None in
  let config :=
    if is_HNSW_or_HNSWPQ self then Some (Config_ef 200)
    else if is_PUCK self then Some (Config_search_coarse_count 5)
    else config in
  config_read <- read_local "config" config ;;
  let vector_request :=
    {| topk_vector_field := "vector"; topk_vector := the_vector;
       topk_limit := None; topk_filter := None;
       topk_config := Some config_read |} in
  let bm25_request :=
    {| bm25_index_name := "book_segment_inverted_idx";
       bm25_search_text := "吕布";
       bm25_limit := None;
       bm25_filter := None |} in
  let hybrid_request :=
    {| hybrid_vector_request := vector_request;
       hybrid_vector_weight := 0.4;
       hybrid_bm25_request := bm25_request;
       hybrid_bm25_weight := 0.6;
       hybrid_filter := the_filter;
       hybrid_limit := 15 |} in
  res <- call (table_hybrid_search table hybrid_request) ;;
  logger_debug "hybrid search res: {}" (Some (PVal res)).

(** select data *)
Definition select_data (self : TestMochow) : M unit :=
  db <- call (client_database self.(_client) "book") ;;
  table <- call (db_table db "book_segments") ;;
  let projections := ["id"; "bookName"; "json_field"]%string in
  let select_finished := false in
  let marker := VNone in
  while_true fuel (fun marker : PyVal =>
    res <- call (table_select table marker projections 20) ;;
    logger_debug "res: {}" (Some (PSelect res)) ;;
    if negb res.(is_truncated) then
      logger_debug "select finished" None ;;
      ret (inr tt)
    else
      logger_debug "select next batch" None ;;
      let marker := res.(next_marker) in
      ret (inl marker)) marker.

(** update data *)
Definition update_data (self : TestMochow) : M unit :=
  db <- call (client_database self.(_client) "book") ;;
  table <- call (db_table db "book_segments") ;;
  let primary_key := [("id"%string, VStr "0001")] in
  let update_fields :=
    [ ("bookName", VStr "红楼梦");
      ("author", VStr "曹雪芹");
      ("page", VInt 21);
      ("segment", VStr "满纸荒唐言，一把辛酸泪") ]%string in
  res <- call (table_update table primary_key update_fields) ;;
  logger_debug "res: {}" (Some (PVal res)).

(** delete data *)
Definition delete_data (self : TestMochow) : M unit :=
  db <- call (client_database self.(_client) "book") ;;
  table <- call (db_table db "book_segments") ;;
  let primary_key := [("id"%string, VStr "0001")] in
  res <- call (table_delete table primary_key) ;;
  logger_debug "res: {}" (Some (PVal res)).

(** drop and create vindex *)
Definition drop_and_create_vindex (self : TestMochow) : M unit :=
  db <- call (client_database self.(_client) "book") ;;
  table <- call (db_table db "book_segments") ;;
  _ <- call (table_drop_index table "vector_idx") ;;
  while_true fuel (fun _ : unit =>
    sleep 2 ;;
    try_except
      (index <- call (table_describe_index table "vector_idx") ;;
       ret (inl tt))
      (except_ServerError (fun code e =>
         logger_debug "code: {}" (Some (PCode code)) ;;
         if ServerErrCode.eqb code ServerErrCode.INDEX_NOT_EXIST
         then ret (inr tt)
         else ret (inl tt)))) tt ;;
  let indexes : list Index := [] in
  indexes <-
    (if IndexType.eqb self.(_vector_index_type) IndexType.HNSW then
       ret (indexes ++
         [ VectorIndex "vector_idx" IndexType.HNSW "vector" MetricType.L2
             (Some (HNSWParams 16 200)) (Some false) ])
     else if IndexType.eqb self.(_vector_index_type) IndexType.HNSWPQ then
       ret (indexes ++
         [ VectorIndex "vector_idx" IndexType.HNSWPQ "vector" MetricType.L2
             (Some (HNSWPQParams 16 200 4 1.0)) None ])
     else if IndexType.eqb self.(_vector_index_type) IndexType.PUCK then
       ret (indexes ++
         [ VectorIndex "vector_idx" IndexType.PUCK "vector" MetricType.L2
             (Some (PUCKParams 5 5)) (Some false) ])
     else raise (Exception "not support index type")) ;;
  _ <- call (table_create_indexes table indexes) ;;
  sleep 1 ;;
  _ <- call (table_modify_index table "vector_idx" true
               {| timing := "2024-01-01 00:00:00" |}) ;;
  index <- call (table_describe_index table "vector_idx") ;;
  logger_debug "index: {}" (Some (PIndex index)).

(** delete and drop *)
Definition delete_and_drop (self : TestMochow) : M unit :=
  db <- call (client_database self.(_client) "book") ;;
  _ <- call (db_drop_table db "book_segments") ;;
  sleep 10 ;;
  _ <- call (db_drop_database db) ;;
  _ <- call (client_close self.(_client)) ;;
  ret tt.

Definition binary_vector_usage_example (self : TestMochow) : M unit :=
  (* 1. create table *)
  let database := "test_binary_vec"%string in
  let table_name := "test_binary_vec_tab"%string in
  let db : option Database := None in
  db <- try_except
          (d <- call (client_database self.(_client) database) ;; ret (Some d))
          (except_ClientError (fun _ => ret db)) ;;
  match db with
  | Some db =>
      try_except
        (_ <- call (db_drop_table db table_name) ;; ret tt)
        (except_ServerError (fun _ _ => ret tt)) ;;
      sleep 10 ;;
      _ <- call (db_drop_database db) ;;
      ret tt
  | None => ret tt
  end ;;
  db <- call (client_create_database self.(_client) database) ;;
  let vector_dimension := 128 in
  let fields : list Field := [] in
  let fields := fields ++
    [ {| field_name := "id"; field_type := FieldType.STRING;
         primary_key := Some true; partition_key := Some true;
         auto_increment := Some false; not_null := Some true;
         dimension := None; element_type := None |} ] in
  let fields := fields ++
    [ {| field_name := "vector"; field_type := FieldType.BINARY_VECTOR;
         primary_key := None; partition_key := None;
         auto_increment := None; not_null := Some true;
         dimension := Some vector_dimension; element_type := None |} ] in
  _ <- call (db_create_table db table_name 3 {| partition_num := 1 |}
               {| schema_fields := fields; schema_indexes := None |}) ;;
  while_true fuel (fun _ : unit =>
    sleep 2 ;;
    described <- call (db_describe_table db table_name) ;;
    if TableState.eqb described.(table_state) TableState.NORMAL
    then ret (inr tt)
    else ret (inl tt)) tt ;;
  (* 2. insert to table *)
  table <- call (db_table db table_name) ;;
  rows <- map_M (fun num =>
            bits <- lift (num_to_binary_list num vector_dimension) ;;
            let vec := BinaryVector_from_binary_list bits in
            ret [ ("id"%string, CVal (VStr (Py.str num)));
                  ("vector"%string, CVec vec) ])
          (Py.range 50) ;;
  _ <- call (table_upsert table rows) ;;
  (* 3. search binary vector *)
  bits <- lift (num_to_binary_list 123 vector_dimension) ;;
  let target := BinaryVector_from_binary_list bits in
  let request :=
    Topk {| topk_vector_field := "vector"; topk_vector := target;
            topk_limit := Some 10; topk_filter := None;
            topk_config := None |} in
  res <- call (table_vector_search table request None) ;;
  logger_debug "res: {}" (Some (PVal res)).

Definition sparse_vector_usage_example (self : TestMochow) : M unit :=
  (* 1. create table *)
  let database := "test_sparse_vec"%string in
  let table_name := "test_sparse_vec_tab"%string in
  let db : option Database := None in
  db <- try_except
          (d <- call (client_database self.(_client) database) ;; ret (Some d))
          (except_ClientError (fun _ => ret db)) ;;
  match db with
  | Some db =>
      try_except
        (_ <- call (db_drop_table db table_name) ;; ret tt)
        (except_ServerError (fun _ _ => ret tt)) ;;
      sleep 10 ;;
      _ <- call (db_drop_database db) ;;
      ret tt
  | None => ret tt
  end ;;
  db <- call (client_create_database self.(_client) database) ;;
  let fields : list Field := [] in
  let fields := fields ++
    [ {| field_name := "id"; field_type := FieldType.STRING;
         primary_key := Some true; partition_key := Some true;
         auto_increment := Some false; not_null := Some true;
         dimension := None; element_type := None |} ] in
  let fields := fields ++
    [ {| field_name := "vector"; field_type := FieldType.SPARSE_FLOAT_VECTOR;
         primary_key := None; partition_key := None;
         auto_increment := None; not_null := Some true;
         dimension := None; element_type := None |} ] in
  let indexes : list Index := [] in
  let indexes := indexes ++
    [ VectorIndex "sparse_vector_idx" IndexType.SPARSE_OPTIMIZED_FLAT
        "vector" MetricType.IP None None ] in
  _ <- call (db_create_table db table_name 3 {| partition_num := 1 |}
               {| schema_fields := fields; schema_indexes := Some indexes |}) ;;
  while_true fuel (fun _ : unit =>
    sleep 2 ;;
    described <- call (db_describe_table db table_name) ;;
    if TableState.eqb described.(table_state) TableState.NORMAL
    then ret (inr tt)
    else ret (inl tt)) tt ;;
  (* 2. insert to table *)
  let rows : list Row := [] in
  table <- call (db_table db table_name) ;;
  rows <- map_M (fun num =>
            let vec := SparseFloatVector_from_dict
                         [(1, 0.56465%float); (100, 0.2366456%float); (10000, 0.543111%float)] in
            ret [ ("id"%string, CVal (VStr (Py.str num)));
                  ("vector"%string, CVec vec) ])
          (Py.range 50) ;;
  _ <- call (table_upsert table rows) ;;
  (* 3. search binary vector *)
  let target := SparseFloatVector_from_dict
                  [(1, 0.56465%float); (100, 0.2366456%float); (10000, 0.543111%float)] in
  let request :=
    Topk {| topk_vector_field := "vector"; topk_vector := target;
            topk_limit := Some 10; topk_filter := None;
            topk_config := None |} in
  res <- call (table_vector_search table request None) ;;
  logger_debug "res: {}" (Some (PVal res)).

(** The block run when the file is the main program. *)
Definition main : M unit :=
  let account := "root"%string in
  let api_key := "********"%string in
  let endpoint := "http://*.*.*.*:*"%string in
  let config :=
    {| credentials := {| account := account; api_key := api_key |};
       endpoint := endpoint |} in
  let test_vdb := TestMochow_init config IndexType.HNSWPQ in
  clear test_vdb ;;
  create_db_and_table test_vdb ;;
  upsert_data test_vdb ;;
  select_data test_vdb ;;
  change_table_schema test_vdb ;;
  show_table_stats test_vdb ;;
  query_data test_vdb ;;
  batch_query_data test_vdb ;;
  vector_search test_vdb ;;
  search_iterator test_vdb ;;
  bm25_search test_vdb ;;
  hybrid_search test_vdb ;;
  update_data test_vdb ;;
  delete_data test_vdb ;;
  drop_and_create_vindex test_vdb ;;
  binary_vector_usage_example test_vdb ;;
  sparse_vector_usage_example test_vdb ;;
  delete_and_drop test_vdb.

(** The methods [main] calls, in the order it calls them. *)
Definition demo_steps : list (TestMochow -> M unit) :=
  [ clear; create_db_and_table; upsert_data; select_data;
    change_table_schema; show_table_stats; query_data; batch_query_data;
    vector_search; search_iterator; bm25_search; hybrid_search;
    update_data; delete_data; drop_and_create_vindex;
    binary_vector_usage_example; sparse_vector_usage_example;
    delete_and_drop ].

End Script.

(** Statements one after the other: the next one runs when the one
    before returned. *)
Fixpoint run_steps (ms : list (M unit)) : M unit :=
  match ms with
  | [] => ret tt
  | m :: ms' => m ;; run_steps ms'
  end.

(** The object [main] builds. *)
Definition main_test_vdb : TestMochow :=
  TestMochow_init
    {| credentials := {| account := "root"; api_key := "********" |};
       endpoint := "http://*.*.*.*:*" |}
    IndexType.HNSWPQ.

(** ** A simulated service

    A server that behaves like a fresh deployment: a database exists once
    it has been created, a new table or a rebuilt index is ready at the
    third poll, a dropped index is gone at the second poll, and selects
    and iterators deliver two batches. *)

Definition is_trigger (e : Event) : bool :=
  match e with
  | EvCall (db_create_table _ _ _ _ _) _ => true
  | EvCall (table_rebuild_index _ _) _ => true
  | EvCall (table_drop_index _ _) _ => true
  | EvCall (table_search_iterator _ _ _ _) _ => true
  | EvCall (db_table _ _) _ => true
  | _ => false
  end.

Definition is_poll (e : Event) : bool :=
  match e with
  | EvCall (db_describe_table _ _) _ => true
  | EvCall (table_describe_index _ _) _ => true
  | EvCall (iterator_next _) _ => true
  | EvCall (table_select _ _ _ _) _ => true
  | _ => false
  end.

(** Polls since the last call that started something, newest event last. *)
Fixpoint polls_since_trigger (h : list Event) (n : nat) : nat :=
  match h with
  | [] => n
  | e :: h' =>
      if is_trigger e then polls_since_trigger h' 0
      else if is_poll e then polls_since_trigger h' (S n)
      else polls_since_trigger h' n
  end.

Fixpoint database_exists (name : string) (h : list Event) (now : bool) : bool :=
  match h with
  | [] => now
  | EvCall (client_create_database _ n) (inr _) :: h' =>
      database_exists name h' (String.eqb n name || now)
  | EvCall (db_drop_database db) (inr _) :: h' =>
      database_exists name h' (negb (String.eqb db.(database_name) name) && now)
  | _ :: h' => database_exists name h' now
  end.

Fixpoint index_dropped (h : list Event) (now : bool) : bool :=
  match h with
  | [] => now
  | EvCall (table_drop_index _ _) (inr _) :: h' => index_dropped h' true
  | EvCall (table_create_indexes _ _) (inr _) :: h' => index_dropped h' false
  | _ :: h' => index_dropped h' now
  end.

Definition demo_server : Server := fun h R c =>
  match c in Call R return SdkError + R with
  | client_database _ name =>
      if database_exists name h false then inr {| database_name := name |}
      else inl (ClientError "database not found")
  | client_create_database _ name => inr {| database_name := name |}
  | client_list_databases _ => inr [ {| database_name := "book" |} ]
  | client_close _ => inr VNone
  | db_drop_table _ _ => inr VNone
  | db_drop_database _ => inr VNone
  | db_create_table _ _ _ _ _ => inr VNone
  | db_describe_table db name =>
      inr {| table_database := db.(database_name); table_name := name;
             table_state := if (polls_since_trigger h 0 <? 2)%nat
                            then TableState.Other "CREATING"
                            else TableState.NORMAL |}
  | db_modify_table _ _ _ => inr VNone
  | db_table db name =>
      inr {| table_database := db.(database_name); table_name := name;
             table_state := TableState.NORMAL |}
  | table_upsert _ rows => inr (VDict [(VStr "affectedCount", VInt (Py.len rows))])
  | table_add_fields _ _ => inr VNone
  | table_stats _ => inr (VDict [(VStr "rowCount", VInt 100)])
  | table_query _ _ _ _ => inr (VDict [])
  | table_batch_query _ _ _ _ => inr (VList [])
  | table_rebuild_index _ _ => inr VNone
  | table_describe_index _ name =>
      if index_dropped h false then
        if (polls_since_trigger h 0 <? 1)%nat
        then inr {| described_index_name := name;
                    index_state := IndexState.Other "DELETING" |}
        else inl (ServerError ServerErrCode.INDEX_NOT_EXIST "index not exist")
      else
        inr {| described_index_name := name;
               index_state := if (polls_since_trigger h 0 <? 2)%nat
                              then IndexState.Other "BUILDING"
                              else IndexState.NORMAL |}
  | table_vector_search _ _ _ => inr (VList [])
  | table_search_iterator _ _ _ _ =>
      inr {| iterator_id := Py.len h |}
  | iterator_next _ =>
      if (polls_since_trigger h 0 <? 2)%nat then inr [VDict []] else inr []
  | iterator_close _ => inr VNone
  | table_bm25_search _ _ => inr (VList [])
  | table_hybrid_search _ _ => inr (VList [])
  | table_select _ _ _ _ =>
      inr {| is_truncated := (polls_since_trigger h 0 <? 1)%nat;
             next_marker := VStr "next"; select_rows := [] |}
  | table_update _ _ _ => inr VNone
  | table_delete _ _ => inr VNone
  | table_drop_index _ _ => inr VNone
  | table_create_indexes _ _ => inr VNone
  | table_modify_index _ _ _ _ => inr VNone
  end.


(** ** Monitors and weakest preconditions

    A property of every run is stated with a monitor: a machine that reads
    the events of a run one by one and gets stuck on the first event the
    property forbids. [wp step m Q s] says that from the monitor state
    [s], whatever the history and the server's answers, the monitor reads
    all the events of [m] and ends in a state that [Q] relates to the
    outcome of [m]. *)

Section Monitor.

Variable S : Type.
Variable step : S -> Event -> option S.

Fixpoint mon_run (s : S) (ev : list Event) : option S :=
  match ev with
  | [] => Some s
  | e :: ev' =>
      match step s e with
      | Some s' => mon_run s' ev'
      | None => None
      end
  end.

Definition accepted {A} (Q : Res A -> S -> Prop) (s : S)
    (out : Res A * list Event) : Prop :=
  match mon_run s (snd out) with
  | Some s' => Q (fst out) s'
  | None => False
  end.

Definition wp {A} (m : M A) (Q : Res A -> S -> Prop) (s : S) : Prop :=
  forall h, accepted Q s (m h).

(** What [bind m k] asks of [m]. *)
Definition after {A B} (k : A -> M B) (Q : Res B -> S -> Prop)
    (r : Res A) (s : S) : Prop :=
  match r with
  | Ok a => wp (k a) Q s
  | Raise e => Q (Raise e) s
  | Diverge => Q Diverge s
  end.

(** What [try_except m handler] asks of [m]. *)
Definition handled {A} (handler : Exn -> option (M A))
    (Q : Res A -> S -> Prop) (r : Res A) (s : S) : Prop :=
  match r with
  | Raise e =>
      match handler e with
      | Some k => wp k Q s
      | None => Q (Raise e) s
      end
  | _ => Q r s
  end.

(** What a loop with invariant [Inv] asks of one round of its body. *)
Definition round {I A} (Inv : I -> S -> Prop) (Q : Res A -> S -> Prop)
    (r : Res (I + A)) (s : S) : Prop :=
  match r with
  | Ok (inl i) => Inv i s
  | Ok (inr a) => Q (Ok a) s
  | Raise e => Q (Raise e) s
  | Diverge => Q Diverge s
  end.

(** What a [for] loop with invariant [Inv] asks of its body. *)
Definition pass {A B} (Inv : S -> Prop) (Q : Res B -> S -> Prop)
    (r : Res A) (s : S) : Prop :=
  match r with
  | Ok _ => Inv s
  | Raise e => Q (Raise e) s
  | Diverge => Q Diverge s
  end.

End Monitor.

Arguments mon_run {S} step s ev.
Arguments accepted {S} step {A} Q s out.
Arguments wp {S} step {A} m Q s.
Arguments after {S} step {A B} k Q r s.
Arguments handled {S} step {A} handler Q r s.
Arguments round {S I A} Inv Q r s.
Arguments pass {S A B} Inv Q r s.

(** The outcome of a call the server answered with [resp]. *)
Definition answer {R} (resp : SdkError + R) : Res R :=
  match resp with
  | inl err => Raise (Sdk err)
  | inr v => Ok v
  end.

(** ** The properties of the runs, as predicates on events and monitors *)

(** *** Delays *)

Definition is_describe_table (e : Event) : bool :=
  match e with
  | EvCall (db_describe_table _ _) _ => true
  | _ => false
  end.

Definition is_describe_index (e : Event) : bool :=
  match e with
  | EvCall (table_describe_index _ _) _ => true
  | _ => false
  end.

Definition is_modify_index (e : Event) : bool :=
  match e with
  | EvCall (table_modify_index _ _ _ _) _ => true
  | _ => false
  end.

(** What the delay monitor remembers: the event it read last. *)
Inductive Last : Type := AfterSleep2 | AfterModifyIndex | AfterOther.

(** The delay monitor: a sleep lasts 1, 2 or 10 seconds; a table is
    described right after a sleep of 2 seconds, and so is an index, but
    for the one description that follows [modify_index]. *)
Definition delay_step (s : Last) (e : Event) : option Last :=
  match e with
  | EvSleep n =>
      if n =? 2 then Some AfterSleep2
      else if (n =? 1) || (n =? 10) then Some AfterOther
      else None
  | EvCall c _ =>
      match c with
      | db_describe_table _ _ =>
          match s with AfterSleep2 => Some AfterOther | _ => None end
      | table_describe_index _ _ =>
          match s with
          | AfterSleep2 | AfterModifyIndex => Some AfterOther
          | AfterOther => None
          end
      | table_modify_index _ _ _ _ => Some AfterModifyIndex
      | _ => Some AfterOther
      end
  | EvLog _ _ => Some AfterOther
  end.

(** The events of a run keep to fixed delays: every sleep lasts 1, 2 or
    10 seconds; a [describe_table] comes right after a sleep of 2
    seconds; a [describe_index] comes right after a sleep of 2 seconds
    or, once, right after [modify_index]. *)
Definition fixed_delays (ev : list Event) : Prop :=
  (forall n, In (EvSleep n) ev -> n = 1 \/ n = 2 \/ n = 10) /\
  (forall pre e post, ev = pre ++ e :: post -> is_describe_table e = true ->
     exists pre', pre = pre' ++ [EvSleep 2]) /\
  (forall pre e post, ev = pre ++ e :: post -> is_describe_index e = true ->
     exists pre' e1, pre = pre' ++ [e1] /\
       (e1 = EvSleep 2 \/ is_modify_index e1 = true)).

(** *** The delays of a method, in the order of its text *)

(** A [time.sleep(n)] in the text of a method: one that every run going
    through makes, one under an [if], or one at the head of the body of
    a [while True:] loop, made once in each round. *)
Inductive Delay : Type :=
| Once (n : Z)
| Maybe (n : Z)
| Many (n : Z).

(** One round or more of [n] seconds each, then [rest]. *)
Fixpoint rounds (n : Z) (rest : list Z -> bool) (l : list Z) : bool :=
  match l with
  | x :: l' => (x =? n) && (rest l' || rounds n rest l')
  | [] => false
  end.

(** The durations [l] are those of a run through the delays [sch], from
    the first to the last. *)
Fixpoint fits (sch : list Delay) (l : list Z) : bool :=
  match sch with
  | [] => match l with [] => true | _ :: _ => false end
  | Once n :: rest =>
      match l with
      | x :: l' => (x =? n) && fits rest l'
      | [] => false
      end
  | Maybe n :: rest =>
      fits rest l ||
      match l with
      | x :: l' => (x =? n) && fits rest l'
      | [] => false
      end
  | Many n :: rest => rounds n (fits rest) l
  end.

(** The durations [l] are those of a run that stopped on the way. *)
Definition follows (sch : list Delay) (l : list Z) : Prop :=
  exists more, fits sch (l ++ more) = true.

(** The durations of the sleeps of a run, in order. *)
Definition sleeps (ev : list Event) : list Z :=
  flat_map (fun e => match e with EvSleep n => [n] | _ => [] end) ev.

Definition keeps_schedule (sch : list Delay) (out : Res unit * list Event) : Prop :=
  follows sch (sleeps (snd out)) /\
  (fst out = Ok tt -> fits sch (sleeps (snd out)) = true).

(** The delays of each step of [main], read off the text of its method. *)
Definition step_schedules : list (list Delay) :=
  [ [Maybe 10];                       (* clear *)
    [Many 2; Once 10; Once 10];       (* create_db_and_table *)
    [Once 10];                        (* upsert_data *)
    []; []; []; []; [];
    [Many 2];                         (* vector_search *)
    []; []; []; []; [];
    [Many 2; Once 1];                 (* drop_and_create_vindex *)
    [Maybe 10; Many 2];               (* binary_vector_usage_example *)
    [Maybe 10; Many 2];               (* sparse_vector_usage_example *)
    [Once 10] ].                      (* delete_and_drop *)

(** The schedule monitor reads the sleeps of a run against the delays
    that are left; [started] says that the loop of the [Many] at the
    head has made a round. *)
Fixpoint advance (started : bool) (sch : list Delay) (x : Z)
    : option (bool * list Delay) :=
  match sch with
  | [] => None
  | Once n :: rest => if x =? n then Some (false, rest) else None
  | Maybe n :: rest => if x =? n then Some (false, rest) else advance false rest x
  | Many n :: rest =>
      if x =? n then Some (true, Many n :: rest)
      else if started then advance false rest x else None
  end.

Fixpoint may_end (started : bool) (sch : list Delay) : bool :=
  match sch with
  | [] => true
  | Once _ :: _ => false
  | Maybe _ :: rest => may_end false rest
  | Many _ :: rest => started && may_end false rest
  end.

Definition sched_step (s : bool * list Delay) (e : Event)
    : option (bool * list Delay) :=
  match e with
  | EvSleep x => advance (fst s) (snd s) x
  | _ => Some s
  end.

Definition sched_final (r : Res unit) (s : bool * list Delay) : Prop :=
  match r with
  | Ok _ => may_end (fst s) (snd s) = true
  | _ => True
  end.

(** What is left to a run in the state [s] of the schedule monitor. *)
Definition fits_from (s : bool * list Delay) (l : list Z) : bool :=
  fits (snd s) l ||
  (fst s && match snd s with
            | Many _ :: rest => fits rest l
            | _ => false
            end).

(** *** The delay that follows a statement *)

(** The [time.sleep] statements of the script, by the statement each
    comes after in the text: 10 seconds after [drop_table] (or the log
    of its error), [upsert], [modify_table] and the [describe_table]
    that ends a wait; 2 seconds after the call a wait loop waits for
    ([create_table], [rebuild_index], [drop_index]) and after a poll
    that sends the loop round again ([describe_table],
    [describe_index], or the log of its error code); 1 second after
    [create_indexes]. No sleep follows any other event. *)
Definition delay_after (e : Event) : option Z :=
  match e with
  | EvCall c r =>
      match c in Call R return SdkError + R -> option Z with
      | db_drop_table _ _ => fun r =>
          match r with
          | inr _ => Some 10
          | inl (ServerError _ _) => Some 10
          | inl _ => None
          end
      | db_create_table _ _ _ _ _ => fun r =>
          match r with inr _ => Some 2 | inl _ => None end
      | db_describe_table _ _ => fun r =>
          match r with
          | inr t => if TableState.eqb t.(table_state) TableState.NORMAL
                     then Some 10 else Some 2
          | inl _ => None
          end
      | db_modify_table _ _ _ => fun r =>
          match r with inr _ => Some 10 | inl _ => None end
      | table_upsert _ _ => fun r =>
          match r with inr _ => Some 10 | inl _ => None end
      | table_rebuild_index _ _ => fun r =>
          match r with inr _ => Some 2 | inl _ => None end
      | table_drop_index _ _ => fun r =>
          match r with inr _ => Some 2 | inl _ => None end
      | table_describe_index _ _ => fun r =>
          match r with inr _ => Some 2 | inl _ => None end
      | table_create_indexes _ _ => fun r =>
          match r with inr _ => Some 1 | inl _ => None end
      | _ => fun _ => None
      end r
  | EvLog template _ =>
      if String.eqb template "drop table error {}" then Some 10
      else if String.eqb template "code: {}" then Some 2
      else None
  | EvSleep _ => None
  end.

(** The monitor of the delays that are due: it remembers the delay that
    may follow the event just read. *)
Definition due_step (due : option Z) (e : Event) : option (option Z) :=
  match e with
  | EvSleep n =>
      match due with
      | Some d => if n =? d then Some None else None
      | None => None
      end
  | _ => Some (delay_after e)
  end.

(** Every sleep of the run lasts what the statement before it asks for. *)
Definition delays_by_statement (ev : list Event) : Prop :=
  forall pre n post,
    ev = pre ++ EvSleep n :: post ->
    exists pre' e, pre = pre' ++ [e] /\ delay_after e = Some n.

(** *** The binary list of a number *)

(** The binary digits of a positive number, most significant first. *)
Fixpoint pos_bits (p : positive) : list Z :=
  match p with
  | xH => [1]
  | xO q => pos_bits q ++ [0]
  | xI q => pos_bits q ++ [1]
  end.

(** The digits [bin] writes for a number that is not negative. *)
Definition nat_bits (num : Z) : list Z :=
  match num with
  | Zpos p => pos_bits p
  | _ => [0]
  end.

Definition is_bit (b : Z) : Prop := b = 0 \/ b = 1.

(** [l] is the list [num_to_binary_list num dimension] is to return:
    [dimension] bits; when [num] fits in [dimension] bits, the bit at
    index [i] is the bit of weight [dimension - 1 - i] of [num] (binary,
    most significant first, zeros in front); when it does not, the bit at
    index [i] is the bit of weight [Z.log2 num - i], that is the
    [dimension] leading bits of [num]. *)
Definition binary_list_of (num dimension : Z) (l : list Z) : Prop :=
  Py.len l = dimension /\
  Forall is_bit l /\
  (num < 2 ^ dimension ->
     forall i, 0 <= i < dimension ->
       nth (Z.to_nat i) l 0 = Z.b2z (Z.testbit num (dimension - 1 - i))) /\
  (2 ^ dimension <= num ->
     forall i, 0 <= i < dimension ->
       nth (Z.to_nat i) l 0 = Z.b2z (Z.testbit num (Z.log2 num - i))).

(** *** Waiting for a table or an index *)

Inductive Awaited : Type := AwaitTable | AwaitIndex.

(** A call that starts something the script then waits for: a table
    that was created, an index whose rebuild was asked for. *)
Definition starts_wait (e : Event) : option Awaited :=
  match e with
  | EvCall c r =>
      match r with
      | inr _ =>
          match c with
          | db_create_table _ _ _ _ _ => Some AwaitTable
          | table_rebuild_index _ _ => Some AwaitIndex
          | _ => None
          end
      | inl _ => None
      end
  | _ => None
  end.

(** A poll of what is awaited, whatever it returns. *)
Definition is_poll_of (w : Awaited) (e : Event) : bool :=
  match w with
  | AwaitTable => is_describe_table e
  | AwaitIndex => is_describe_index e
  end.

(** A poll that returned the state NORMAL. *)
Definition reports_normal (w : Awaited) (e : Event) : bool :=
  match e with
  | EvCall c r =>
      match c in Call R return SdkError + R -> bool with
      | db_describe_table _ _ => fun r =>
          match w, r with
          | AwaitTable, inr t => TableState.eqb t.(table_state) TableState.NORMAL
          | _, _ => false
          end
      | table_describe_index _ _ => fun r =>
          match w, r with
          | AwaitIndex, inr i => IndexState.eqb i.(index_state) IndexState.NORMAL
          | _, _ => false
          end
      | _ => fun _ => false
      end r
  | _ => false
  end.

Definition call_failed (e : Event) : bool :=
  match e with
  | EvCall _ (inl _) => true
  | _ => false
  end.

Definition is_sleep (seconds : Z) (e : Event) : bool :=
  match e with
  | EvSleep n => n =? seconds
  | _ => false
  end.

(** The wait monitor. Once a wait has started the script may only sleep
    2 seconds and then poll, until a poll returns NORMAL; after a poll
    that failed it may do nothing at all. *)
Inductive WaitState : Type :=
| Free
| Await (w : Awaited)
| Slept (w : Awaited)
| Stopped.

Definition wait_step (s : WaitState) (e : Event) : option WaitState :=
  match s with
  | Free =>
      match starts_wait e with
      | Some w => Some (Await w)
      | None => Some Free
      end
  | Await w => if is_sleep 2 e then Some (Slept w) else None
  | Slept w =>
      if is_poll_of w e then
        if reports_normal w e then Some Free
        else if call_failed e then Some Stopped
        else Some (Await w)
      else None
  | Stopped => None
  end.

(** Sleeps of 2 seconds and polls, one after the other; [slept] says
    that the next event is to be a poll. *)
Fixpoint polling (w : Awaited) (slept : bool) (ev : list Event) : bool :=
  match ev with
  | [] => true
  | e :: ev' =>
      if slept then is_poll_of w e && polling w false ev'
      else is_sleep 2 e && polling w true ev'
  end.

(** The outcome is the script's own: it returned, or raised an exception
    that did not come from an SDK call. *)
Definition ends_by_script {A} (r : Res A) : bool :=
  match r with
  | Ok _ => true
  | Raise (Sdk _) => false
  | Raise _ => true
  | Diverge => false
  end.

(** A run respects its waits: after a call that starts a wait, and until
    a poll returns NORMAL, it only sleeps 2 seconds and polls, in turn;
    and when it ends by the script's own doing, every wait it started
    was ended by a poll that returned NORMAL. *)
Definition waits_respected (out : Res unit * list Event) : Prop :=
  (forall pre trig mid post w,
     snd out = pre ++ trig :: mid ++ post ->
     starts_wait trig = Some w ->
     (forall p, In p mid -> reports_normal w p = false) ->
     polling w false mid = true) /\
  (ends_by_script (fst out) = true ->
   forall pre trig mid w,
     snd out = pre ++ trig :: mid ->
     starts_wait trig = Some w ->
     exists p, In p mid /\ reports_normal w p = true).

(** *** Which calls a run makes *)

(** The name of the SDK method behind a call. *)
Definition method_name {R} (c : Call R) : string :=
  match c with
  | client_database _ _ => "database"
  | client_create_database _ _ => "create_database"
  | client_list_databases _ => "list_databases"
  | client_close _ => "close"
  | db_drop_table _ _ => "drop_table"
  | db_drop_database _ => "drop_database"
  | db_create_table _ _ _ _ _ => "create_table"
  | db_describe_table _ _ => "describe_table"
  | db_modify_table _ _ _ => "modify_table"
  | db_table _ _ => "table"
  | table_upsert _ _ => "upsert"
  | table_add_fields _ _ => "add_fields"
  | table_stats _ => "stats"
  | table_query _ _ _ _ => "query"
  | table_batch_query _ _ _ _ => "batch_query"
  | table_rebuild_index _ _ => "rebuild_index"
  | table_describe_index _ _ => "describe_index"
  | table_vector_search _ _ _ => "vector_search"
  | table_search_iterator _ _ _ _ => "search_iterator"
  | iterator_next _ => "next"
  | iterator_close _ => "close"
  | table_bm25_search _ _ => "bm25_search"
  | table_hybrid_search _ _ => "hybrid_search"
  | table_select _ _ _ _ => "select"
  | table_update _ _ _ => "update"
  | table_delete _ _ => "delete"
  | table_drop_index _ _ => "drop_index"
  | table_create_indexes _ _ => "create_indexes"
  | table_modify_index _ _ _ _ => "modify_index"
  end.

(** [e] is a call of the SDK method [name]. *)
Definition calls (name : string) (e : Event) : bool :=
  match e with
  | EvCall c _ => String.eqb (method_name c) name
  | _ => false
  end.

(** The search modes of the service. *)
Inductive SearchMode : Type :=
| TopkSearch | RangeSearch | BatchSearch | MultiVectorSearch
| BM25Search | HybridSearch.

(** The search a call asks for: by the class of the request for
    [table.vector_search], by the method for the other two. *)
Definition search_mode_of (e : Event) : option SearchMode :=
  match e with
  | EvCall c _ =>
      match c with
      | table_vector_search _ (Topk _) _ => Some TopkSearch
      | table_vector_search _ (Range _) _ => Some RangeSearch
      | table_vector_search _ (Batch _) _ => Some BatchSearch
      | table_vector_search _ (Multi _) _ => Some MultiVectorSearch
      | table_bm25_search _ _ => Some BM25Search
      | table_hybrid_search _ _ => Some HybridSearch
      | _ => None
      end
  | _ => None
  end.

Definition SearchMode_eqb (a b : SearchMode) : bool :=
  match a, b with
  | TopkSearch, TopkSearch | RangeSearch, RangeSearch
  | BatchSearch, BatchSearch | MultiVectorSearch, MultiVectorSearch
  | BM25Search, BM25Search | HybridSearch, HybridSearch => true
  | _, _ => false
  end.

Definition searches (mode : SearchMode) (e : Event) : bool :=
  match search_mode_of e with
  | Some m => SearchMode_eqb m mode
  | None => false
  end.

(** The monitor that remembers whether an event with [P] went by. *)
Definition seen_step (P : Event -> bool) (s : bool) (e : Event) : option bool :=
  Some (s || P e).

(** The steps [ms] ran to the end one after the other from the history
    [h], the i-th adding the events [evs_i]. *)
Fixpoint steps_ran (ms : list (M unit)) (h : list Event)
    (evs : list (list Event)) : Prop :=
  match ms, evs with
  | [], [] => True
  | m :: ms', ev :: evs' => m h = (Ok tt, ev) /\ steps_ran ms' (h ++ ev) evs'
  | _, _ => False
  end.

(** The SDK methods the demonstration is about. *)
Definition demonstrated_methods : list string :=
  [ "create_database"; "create_table"; "upsert"; "query"; "vector_search";
    "bm25_search"; "hybrid_search"; "update"; "delete"; "drop_table";
    "drop_database" ]%string.

(** *** Search iterators *)

Definition iterator_eqb (a b : SearchIterator) : bool :=
  a.(iterator_id) =? b.(iterator_id).

(** A [table.search_iterator] that returned the iterator [it]. *)
Definition opens (e : Event) : option SearchIterator :=
  match e with
  | EvCall c r =>
      match c in Call R return SdkError + R -> option SearchIterator with
      | table_search_iterator _ _ _ _ => fun r =>
          match r with
          | inr it => Some it
          | inl _ => None
          end
      | _ => fun _ => None
      end r
  | _ => None
  end.

(** [it.next()] *)
Definition is_next (it : SearchIterator) (e : Event) : bool :=
  match e with
  | EvCall (iterator_next it') _ => iterator_eqb it' it
  | _ => false
  end.

(** [it.next()] that returned an empty batch *)
Definition is_empty_batch (it : SearchIterator) (e : Event) : bool :=
  match e with
  | EvCall c r =>
      match c in Call R return SdkError + R -> bool with
      | iterator_next it' => fun r =>
          match r with
          | inr [] => iterator_eqb it' it
          | _ => false
          end
      | _ => fun _ => false
      end r
  | _ => false
  end.

(** [it.close()] *)
Definition is_close (it : SearchIterator) (e : Event) : bool :=
  match e with
  | EvCall (iterator_close it') _ => iterator_eqb it' it
  | _ => false
  end.

(** The log line for a batch of rows. *)
Definition is_rows_log (e : Event) : bool :=
  match e with
  | EvLog template _ => String.eqb template "rows:{}"
  | _ => false
  end.

Definition uses_iterator (e : Event) : bool :=
  match e with
  | EvCall (iterator_next _) _ => true
  | EvCall (iterator_close _) _ => true
  | _ => false
  end.

Definition ends_ok {A} (r : Res A) : bool :=
  match r with
  | Ok _ => true
  | _ => false
  end.

(** The iterator monitor: an iterator is used only between the call that
    returned it and its [close]; its batches are fetched with [next],
    each batch that is not empty is logged, and the empty batch is
    followed by [close]. *)
Inductive IterState : Type :=
| NoIterator
| Iterating (it : SearchIterator)
| Fetched (it : SearchIterator)
| Drained (it : SearchIterator)
| Broken.

Definition iter_step (s : IterState) (e : Event) : option IterState :=
  match s with
  | NoIterator =>
      match opens e with
      | Some it => Some (Iterating it)
      | None => if uses_iterator e then None else Some NoIterator
      end
  | Iterating it =>
      if is_next it e then
        if is_empty_batch it e then Some (Drained it)
        else if call_failed e then Some Broken
        else Some (Fetched it)
      else None
  | Fetched it => if is_rows_log e then Some (Iterating it) else None
  | Drained it =>
      if is_close it e then
        if call_failed e then Some Broken else Some NoIterator
      else None
  | Broken => None
  end.

(** Where a run may stop, for the iterator monitor: never between an
    empty batch and [close], nor between a batch and its log line; with
    an iterator open, only when it did not return. *)
Definition iter_final (r : Res unit) (s : IterState) : Prop :=
  match s with
  | NoIterator => True
  | Iterating _ | Broken => ends_ok r = false
  | Fetched _ | Drained _ => False
  end.

(** A run consumes its iterators: after [search_iterator] returned [it]
    and until [it.next()] returns an empty batch, the run only calls
    [it.next()] and logs the batch; the empty batch is followed by
    [it.close()]; and a run that returns has closed [it]. *)
Definition iterators_consumed (out : Res unit * list Event) : Prop :=
  (forall pre opn mid post it,
     snd out = pre ++ opn :: mid ++ post ->
     opens opn = Some it ->
     (forall p, In p mid -> is_empty_batch it p = false) ->
     Forall (fun e => is_next it e || is_rows_log e = true) mid) /\
  (forall pre opn mid e post it,
     snd out = pre ++ opn :: mid ++ e :: post ->
     opens opn = Some it ->
     (forall p, In p mid -> is_empty_batch it p = false) ->
     is_empty_batch it e = true ->
     exists c post', post = c :: post' /\ is_close it c = true) /\
  (ends_ok (fst out) = true ->
   forall pre opn rest it,
     snd out = pre ++ opn :: rest ->
     opens opn = Some it ->
     exists e c, In e rest /\ is_empty_batch it e = true /\
                 In c rest /\ is_close it c = true).

(** *** The index type *)

(** The index types the script knows how to build. *)
Definition supported (t : IndexType.t) : bool :=
  match t with
  | IndexType.HNSW | IndexType.HNSWPQ | IndexType.PUCK => true
  | _ => false
  end.

Definition not_support_index_type : Exn := Exception "not support index type".

(** The monitor that gets stuck on a [forbidden] event and remembers
    whether an event with [flag] went by. *)
Definition guard_step (forbidden flag : Event -> bool) (s : bool) (e : Event)
    : option bool :=
  if forbidden e then None else Some (s || flag e).

Definition never (e : Event) : bool := false.

(** [describe_index] raised a ServerError with the code INDEX_NOT_EXIST. *)
Definition index_gone (e : Event) : bool :=
  match e with
  | EvCall c r =>
      match c, r with
      | table_describe_index _ _, inl (ServerError code _) =>
          ServerErrCode.eqb code ServerErrCode.INDEX_NOT_EXIST
      | _, _ => false
      end
  | _ => false
  end.

(** The vector indexes among the indexes a call defines. *)
Definition vector_indexes_of (e : Event) : option (list Index) :=
  match e with
  | EvCall c _ =>
      match c with
      | db_create_table _ _ _ _ schema =>
          match schema.(schema_indexes) with
          | Some l => Some (filter is_vector_index l)
          | None => Some []
          end
      | table_create_indexes _ l => Some (filter is_vector_index l)
      | _ => None
      end
  | _ => None
  end.

(** Exactly one vector index: of type [t], on the field 'vector', with
    the L2 metric. *)
Definition one_vector_index (t : IndexType.t) (l : list Index) : bool :=
  match l with
  | [VectorIndex _ t' field MetricType.L2 _ _] =>
      IndexType.eqb t' t && String.eqb field "vector"
  | _ => false
  end.

Definition defines_one_vector_index (t : IndexType.t) (e : Event) : bool :=
  match vector_indexes_of e with
  | Some l => one_vector_index t l
  | None => false
  end.

Definition defines_other_indexes (t : IndexType.t) (e : Event) : bool :=
  match vector_indexes_of e with
  | Some l => negb (one_vector_index t l)
  | None => false
  end.

(** An exception of the script's own. *)
Definition raised_by_script {A} (r : Res A) : bool :=
  match r with
  | Raise (Sdk _) => false
  | Raise _ => true
  | _ => false
  end.

Definition raised_by_sdk {A} (r : Res A) : Prop :=
  exists err, r = Raise (Sdk err).

(** *** Exceptions the script catches *)

(** An SDK exception that is neither a ClientError nor a ServerError. *)
Definition foreign (err : SdkError) : bool :=
  match err with
  | OtherError _ _ => true
  | _ => false
  end.

Definition raises_foreign (e : Event) : option SdkError :=
  match e with
  | EvCall _ (inl (OtherError class_name message)) =>
      Some (OtherError class_name message)
  | _ => None
  end.

(** The catch monitor: nothing happens after a foreign exception. *)
Inductive CatchState : Type :=
| Running
| Halted (err : SdkError).

Definition catch_step (s : CatchState) (e : Event) : option CatchState :=
  match s with
  | Running =>
      match raises_foreign e with
      | Some err => Some (Halted err)
      | None => Some Running
      end
  | Halted _ => None
  end.

Definition catch_final (r : Res unit) (s : CatchState) : Prop :=
  match s with
  | Running => True
  | Halted err => r = Raise (Sdk err)
  end.

(** No handler of the run catches a foreign exception: the call that
    raises it is the last event, and the exception is the outcome. *)
Definition foreign_errors_escape (out : Res unit * list Event) : Prop :=
  forall pre (R : Type) (c : Call R) err post,
    snd out = pre ++ EvCall c (inl err) :: post ->
    foreign err = true ->
    post = [] /\ fst out = Raise (Sdk err).

(** No handler of the run catches the exception [own] that the script
    raises itself: the run does not return and ends with no other
    exception of the script; it ends with [own], unless a failed SDK
    call or the end of the fuel stopped it before the [raise]. *)
Definition own_exception_escapes (own : Exn) (out : Res unit * list Event) : Prop :=
  fst out = Raise own \/ fst out = Diverge \/ raised_by_sdk (fst out).

(** *** Waiting for a dropped index *)

Definition is_drop_index_ok (e : Event) : bool :=
  match e with
  | EvCall (table_drop_index _ _) (inr _) => true
  | _ => false
  end.

(** The code of the ServerError a call raised. *)
Definition server_code (e : Event) : option ServerErrCode.t :=
  match e with
  | EvCall _ (inl (ServerError code _)) => Some code
  | _ => None
  end.

(** The log line of the wait for a dropped index. *)
Definition is_code_log (e : Event) : bool :=
  match e with
  | EvLog template _ => String.eqb template "code: {}"
  | _ => false
  end.

(** The drop monitor: after [drop_index] the script sleeps 2 seconds and
    describes the index, in turn; a ServerError of the description is
    logged, and with the code INDEX_NOT_EXIST, and only then, the wait
    is over and [create_indexes] is next. *)
Inductive DropState : Type :=
| DropIdle
| DropWait
| DropSlept
| DropLog (gone : bool)
| DropExited
| DropDead.

Definition drop_step (s : DropState) (e : Event) : option DropState :=
  match s with
  | DropIdle => if is_drop_index_ok e then Some DropWait else Some DropIdle
  | DropWait => if is_sleep 2 e then Some DropSlept else None
  | DropSlept =>
      if is_describe_index e then
        match server_code e with
        | Some code =>
            Some (DropLog (ServerErrCode.eqb code ServerErrCode.INDEX_NOT_EXIST))
        | None => if call_failed e then Some DropDead else Some DropWait
        end
      else None
  | DropLog gone =>
      if is_code_log e then Some (if gone then DropExited else DropWait)
      else None
  | DropExited => if calls "create_indexes" e then Some DropIdle else None
  | DropDead => None
  end.

Definition drop_final (r : Res unit) (s : DropState) : Prop :=
  match s with
  | DropIdle => True
  | DropWait | DropSlept | DropDead => ends_by_script r = false
  | DropExited => ends_ok r = false
  | DropLog _ => False
  end.

(** A run waits for a dropped index by the code INDEX_NOT_EXIST: after
    [drop_index] returned and until [describe_index] raises a
    ServerError with that code, the run only sleeps 2 seconds, describes
    the index and logs the code of a ServerError; when [describe_index]
    raises a ServerError with that code, the code is logged and the wait
    is over: what comes next, if anything, is [create_indexes]; and a
    run that ends by the script's own doing left the wait that way. *)
Definition drop_wait_respected (out : Res unit * list Event) : Prop :=
  (forall pre trig mid post,
     snd out = pre ++ trig :: mid ++ post ->
     is_drop_index_ok trig = true ->
     (forall p, In p mid -> index_gone p = false) ->
     Forall (fun e => is_sleep 2 e || is_describe_index e || is_code_log e = true)
            mid) /\
  (forall pre trig mid e post,
     snd out = pre ++ trig :: mid ++ e :: post ->
     is_drop_index_ok trig = true ->
     (forall p, In p mid -> index_gone p = false) ->
     index_gone e = true ->
     exists l post', post = l :: post' /\ is_code_log l = true /\
       (post' = [] \/
        exists e' post'', post' = e' :: post'' /\ calls "create_indexes" e' = true)) /\
  (ends_by_script (fst out) = true ->
   forall pre trig rest,
     snd out = pre ++ trig :: rest ->
     is_drop_index_ok trig = true ->
     exists e, In e rest /\ index_gone e = true).

(** ** Cleanup *)

(** An answer of [drop_table] that a cleanup lets pass: the call
    returned, or it raised a ServerError, whatever its code. *)
Definition tolerated {R} (r : SdkError + R) : bool :=
  match r with
  | inr _ => true
  | inl (ServerError _ _) => true
  | inl _ => false
  end.

(** What a statement made of one SDK call ends with. *)
Definition outcome {R} (resp : SdkError + R) : Res unit :=
  match resp with
  | inl err => Raise (Sdk err)
  | inr _ => Ok tt
  end.

(** What [clear] logs about the answer of [drop_table]. *)
Definition error_log (template : string) {R} (r : SdkError + R) : list Event :=
  match r with
  | inl err => [EvLog template (Some (PError err))]
  | inr _ => []
  end.

Definition creates_database (name : string) (e : Event) : bool :=
  match e with
  | EvCall (client_create_database _ n) _ => String.eqb n name
  | _ => false
  end.

(** After [drop_database] answered [resp], a usage example stops with
    that error, or goes on and creates its database. *)
Definition continues_with_creation (name : string) {R} (resp : SdkError + R)
    {A} (out : Res A * list Event) (rest : list Event) : Prop :=
  match resp with
  | inl err => rest = [] /\ fst out = Raise (Sdk err)
  | inr _ => exists e rest', rest = e :: rest' /\ creates_database name e = true
  end.

(** A service left over from an earlier run: every database is there,
    and [drop_table] fails with [failure]; everything else is answered
    as by [demo_server]. *)
Definition stale_server (failure : SdkError) : Server := fun h R c =>
  match c in Call R0 return SdkError + R0 -> SdkError + R0 with
  | client_database _ name => fun _ => inr {| database_name := name |}
  | db_drop_table _ _ => fun _ => inl failure
  | _ => fun answer => answer
  end (demo_server h R c).

(** ** Sample inputs *)

(** An instance with an index type that is none of HNSW, HNSWPQ, PUCK. *)
Definition flat_vdb : TestMochow :=
  TestMochow_init main_test_vdb.(_client).(client_config) (IndexType.Other "FLAT").

(** The history of a service on which database "book" was created. *)
Definition book_created : list Event :=
  [EvCall (client_create_database main_test_vdb.(_client) "book")
          (inr {| database_name := "book" |})].

(** ** Recoding server errors

    A run in which every status code [c] of a ServerError is replaced by
    [f c]: in the answers, in the logged errors and codes, and in the
    exception the run ends with. *)

Section Recoding.

Variable f : ServerErrCode.t -> ServerErrCode.t.

Definition recode_error (e : SdkError) : SdkError :=
  match e with
  | ServerError c m => ServerError (f c) m
  | _ => e
  end.

Definition recode_answer {R} (r : SdkError + R) : SdkError + R :=
  match r with
  | inl e => inl (recode_error e)
  | inr v => inr v
  end.

Definition recode_printable (p : Printable) : Printable :=
  match p with
  | PError e => PError (recode_error e)
  | PCode c => PCode (f c)
  | _ => p
  end.

Definition recode_event (e : Event) : Event :=
  match e with
  | EvCall c r => EvCall c (recode_answer r)
  | EvSleep n => EvSleep n
  | EvLog t a => EvLog t (option_map recode_printable a)
  end.

Definition recode_exn (e : Exn) : Exn :=
  match e with
  | Sdk err => Sdk (recode_error err)
  | _ => e
  end.

Definition recode_res {A} (r : Res A) : Res A :=
  match r with
  | Raise e => Raise (recode_exn e)
  | _ => r
  end.

Definition recode_out {A} (out : Res A * list Event) : Res A * list Event :=
  (recode_res (fst out), map recode_event (snd out)).

(** [srv'] answers a recoded history as [srv] answers the history, but
    for the codes. *)
Definition recoded (srv srv' : Server) : Prop :=
  forall h R (c : Call R), srv' (map recode_event h) R c = recode_answer (srv h R c).

(** [m'] does on a recoded history what [m] does, but for the codes. *)
Definition sim {A} (m m' : M A) : Prop :=
  forall h, m' (map recode_event h) = recode_out (m h).

End Recoding.

(** The codes that tell INDEX_NOT_EXIST from the others as [f] does. *)
Definition keeps_index_not_exist (f : ServerErrCode.t -> ServerErrCode.t) : Prop :=
  forall c, ServerErrCode.eqb (f c) ServerErrCode.INDEX_NOT_EXIST =
            ServerErrCode.eqb c ServerErrCode.INDEX_NOT_EXIST.

(** Every code but INDEX_NOT_EXIST becomes the code number 0. *)
Definition forget_codes (c : ServerErrCode.t) : ServerErrCode.t :=
  match c with
  | ServerErrCode.INDEX_NOT_EXIST => ServerErrCode.INDEX_NOT_EXIST
  | _ => ServerErrCode.Other 0
  end.

(** * Further properties of the script: definitions *)

(** ** Failed calls *)

(** The error a call raised. *)
Definition failure (e : Event) : option SdkError :=
  match e with
  | EvCall _ (inl err) => Some err
  | _ => None
  end.

(** Where a run stands for the handlers of the script: the databases it
    has called [create_database] for; whether the event just read is a
    lookup of a database not yet created that returned a handle (the
    [drop_table] of a cleanup comes next); whether [drop_index] has
    returned and [describe_index] has not yet raised INDEX_NOT_EXIST
    (the wait of [drop_and_create_vindex]). *)
Record Place : Type := {
  created : list string;
  cleaning : bool;
  waiting : bool
}.

Definition is_created (name : string) (p : Place) : bool :=
  existsb (String.eqb name) p.(created).

Definition place_after (p : Place) (e : Event) : Place :=
  {| created := match e with
                | EvCall (client_create_database _ name) _ => name :: p.(created)
                | _ => p.(created)
                end;
     cleaning := match e with
                 | EvCall (client_database _ name) (inr _) => negb (is_created name p)
                 | _ => false
                 end;
     waiting := if is_drop_index_ok e then true
                else if index_gone e then false
                else p.(waiting) |}.

(** The handlers of the script, by the place of the [try] in the text:
    [except ClientError] around the lookup of a database before it is
    created, [except ServerError] around the [drop_table] that follows
    such a lookup, and [except ServerError] around the [describe_index]
    of the wait for a dropped index. *)
Definition in_reach (p : Place) (e : Event) : bool :=
  match e with
  | EvCall c r =>
      match c, r with
      | client_database _ name, inl (ClientError _) => negb (is_created name p)
      | db_drop_table _ _, inl (ServerError _ _) => p.(cleaning)
      | table_describe_index _ _, inl (ServerError _ _) => p.(waiting)
      | _, _ => false
      end
  | _ => false
  end.

(** The fate monitor: after a failed call in reach of a handler the run
    goes on; after one out of reach nothing happens. *)
Inductive Fate : Type :=
| Going (p : Place)
| Caught (p : Place)
| Failed (err : SdkError).

Definition fate_step (s : Fate) (e : Event) : option Fate :=
  match s with
  | Going p | Caught p =>
      match failure e with
      | Some err =>
          if in_reach p e then Some (Caught (place_after p e)) else Some (Failed err)
      | None => Some (Going (place_after p e))
      end
  | Failed _ => None
  end.

Definition fate_final (r : Res unit) (s : Fate) : Prop :=
  match s with
  | Going _ => forall err, r <> Raise (Sdk err)
  | Caught _ => False
  | Failed err => r = Raise (Sdk err)
  end.

(** In a run that starts at the place [p], a failed call in reach of a
    handler is not the end of the run; one out of reach is the last
    event and its exception the outcome; and a run that ends with an
    SDK exception ends with such a call. *)
Definition fatal_out_of_reach (p : Place) (out : Res unit * list Event) : Prop :=
  (forall pre e err post,
     snd out = pre ++ e :: post -> failure e = Some err ->
     if in_reach (fold_left place_after pre p) e then post <> []
     else post = [] /\ fst out = Raise (Sdk err)) /\
  (forall err,
     fst out = Raise (Sdk err) ->
     exists pre e, snd out = pre ++ [e] /\ failure e = Some err /\
                   in_reach (fold_left place_after pre p) e = false).

Definition at_start : Place :=
  {| created := []; cleaning := false; waiting := false |}.

Definition with_databases (names : list string) : Place :=
  {| created := names; cleaning := false; waiting := false |}.

(** The places where [main] gets to its steps, and where it ends. *)
Definition main_places : list Place :=
  [ at_start; at_start ] ++ repeat (with_databases ["book"%string]) 14 ++
  [ with_databases ["test_binary_vec"; "book"]%string;
    with_databases ["test_sparse_vec"; "test_binary_vec"; "book"]%string;
    with_databases ["test_sparse_vec"; "test_binary_vec"; "book"]%string ].

Definition step_places : list Place := removelast main_places.

(** The place of a run that goes on. *)
Definition place_of (s : Fate) : option Place :=
  match s with
  | Going p | Caught p => Some p
  | Failed _ => None
  end.


(** ** Runs without a monitor *)

(** The monitor that accepts every run. *)
Definition any_step (s : unit) (e : Event) : option unit := Some tt.


(** ** Paging through a table *)

(** A [select] call of a run: what was asked and what came back. *)
Record SelectCall : Type := {
  sel_table : Table;
  sel_marker : PyVal;
  sel_projections : list string;
  sel_limit : Z;
  sel_answer : SdkError + SelectResult
}.

Definition select_call (e : Event) : option SelectCall :=
  match e with
  | EvCall c r =>
      match c in Call R return SdkError + R -> option SelectCall with
      | table_select t marker projections limit => fun r =>
          Some {| sel_table := t; sel_marker := marker;
                  sel_projections := projections; sel_limit := limit;
                  sel_answer := r |}
      | _ => fun _ => None
      end r
  | _ => None
  end.

(** The [select] calls of a run, in order. *)
Fixpoint selects (ev : list Event) : list SelectCall :=
  match ev with
  | [] => []
  | e :: ev' =>
      match select_call e with
      | Some c => c :: selects ev'
      | None => selects ev'
      end
  end.

(** The calls page through a table from [marker]: each call passes the
    marker it was handed; an answer that is truncated hands its
    [next_marker] to the next call, and after any other answer there is
    no next call. *)
Fixpoint pages_from (marker : PyVal) (l : list SelectCall) : Prop :=
  match l with
  | [] => True
  | c :: l' =>
      c.(sel_marker) = marker /\
      match c.(sel_answer) with
      | inr res =>
          if res.(is_truncated) then pages_from res.(next_marker) l'
          else l' = []
      | inl _ => l' = []
      end
  end.

(** The last answer was complete. *)
Definition ends_complete (l : list SelectCall) : Prop :=
  exists l' c res, l = l' ++ [c] /\ c.(sel_answer) = inr res /\
                   res.(is_truncated) = false.

(** One round of the loop of [select_data]. *)
Definition select_round (srv : Server) (table : Table) (marker : PyVal)
    : M (PyVal + unit) :=
  res <- call srv (table_select table marker ["id"; "bookName"; "json_field"]%string 20) ;;
  logger_debug "res: {}" (Some (PSelect res)) ;;
  if negb res.(is_truncated) then
    logger_debug "select finished" None ;;
    ret (inr tt)
  else
    logger_debug "select next batch" None ;;
    let marker := res.(next_marker) in
    ret (inl marker).


Definition asks_for_a_page (table : Table) (c : SelectCall) : Prop :=
  c.(sel_table) = table /\
  c.(sel_projections) = ["id"; "bookName"; "json_field"]%string /\
  c.(sel_limit) = 20.


Definition the_select (table : Table) (marker : PyVal)
    (r : SdkError + SelectResult) : SelectCall :=
  {| sel_table := table; sel_marker := marker;
     sel_projections := ["id"; "bookName"; "json_field"]%string;
     sel_limit := 20; sel_answer := r |}.


(** ** Closing the client *)

Definition is_client_close (e : Event) : bool :=
  match e with
  | EvCall (client_close _) _ => true
  | _ => false
  end.

(** The close monitor: nothing happens after [client.close()]. *)
Inductive CloseState : Type :=
| Open
| Closed (answer : option SdkError).

Definition close_step (s : CloseState) (e : Event) : option CloseState :=
  match s with
  | Open => if is_client_close e then Some (Closed (failure e)) else Some Open
  | Closed _ => None
  end.

(** A run that closed the client ends as [close] did; a run that did
    not has not returned. *)
Definition close_final (r : Res unit) (s : CloseState) : Prop :=
  match s with
  | Open => r <> Ok tt
  | Closed None => r = Ok tt
  | Closed (Some err) => r = Raise (Sdk err)
  end.

(** The client is closed at the very end: [close] is the last event of
    a run and decides its outcome, and a run that returns has called
    it. *)
Definition closes_at_the_end (out : Res unit * list Event) : Prop :=
  (forall pre e post,
     snd out = pre ++ e :: post -> is_client_close e = true ->
     post = [] /\
     fst out = match failure e with
               | Some err => Raise (Sdk err)
               | None => Ok tt
               end) /\
  (fst out = Ok tt ->
   exists pre e, snd out = pre ++ [e] /\ is_client_close e = true).


(** ** Search parameters *)

(** The search parameters the script uses for an index type. *)
Definition config_for (t : IndexType.t) : option VectorSearchConfig :=
  match t with
  | IndexType.HNSW | IndexType.HNSWPQ => Some (Config_ef 200)
  | IndexType.PUCK => Some (Config_search_coarse_count 5)
  | _ => None
  end.

(** The [config] arguments of a request, one for each vector it
    searches with. *)
Definition request_configs (req : VectorSearchRequest)
    : list (option VectorSearchConfig) :=
  match req with
  | Topk r => [r.(topk_config)]
  | Range r => [Some r.(range_config)]
  | Batch r => [Some r.(batch_config)]
  | Multi r => map topk_config r.(multi_requests)
  end.

Definition search_configs (e : Event) : list (option VectorSearchConfig) :=
  match e with
  | EvCall c _ =>
      match c with
      | table_vector_search _ req _ => request_configs req
      | table_search_iterator _ req _ _ => request_configs req
      | table_hybrid_search _ req => [req.(hybrid_vector_request).(topk_config)]
      | _ => []
      end
  | _ => []
  end.

Definition config_eqb (a b : option VectorSearchConfig) : bool :=
  match a, b with
  | Some (Config_ef x), Some (Config_ef y) => x =? y
  | Some (Config_search_coarse_count x), Some (Config_search_coarse_count y) =>
      x =? y
  | None, None => true
  | _, _ => false
  end.

(** An event that searches with other parameters than [expected]. *)
Definition other_config (expected : option VectorSearchConfig) (e : Event) : bool :=
  negb (forallb (config_eqb expected) (search_configs e)).

(** Every search of the run is made with the parameters [expected]. *)
Definition searches_with (expected : option VectorSearchConfig)
    (ev : list Event) : Prop :=
  Forall (fun e => Forall (fun c => c = expected) (search_configs e)) ev.

(** An instance with a PUCK index. *)
Definition puck_vdb : TestMochow :=
  TestMochow_init main_test_vdb.(_client).(client_config) IndexType.PUCK.


(** ** The rows of [upsert_data] *)

(** [row[key]] *)
Fixpoint row_get (key : string) (row : Row) : option Cell :=
  match row with
  | [] => None
  | (k, c) :: row' => if String.eqb k key then Some c else row_get key row'
  end.

(** The primary key of a row of the table "book_segments". *)
Definition row_id (row : Row) : option string :=
  match row_get "id" row with
  | Some (CVal (VStr s)) => Some s
  | _ => None
  end.

(** The rows an event upserts. *)
Definition upserted (e : Event) : option (list Row) :=
  match e with
  | EvCall (table_upsert _ rows) _ => Some rows
  | _ => None
  end.

(** The integers [first, first + 1, ...], [count] of them. *)
Definition count_from (first : Z) (count : nat) : list Z :=
  map (fun k => first + Z.of_nat k) (seq 0 count).

Definition option_string_dec (a b : option string) : {a = b} + {a <> b}.
Proof. decide equality. apply string_dec. Defined.


(** ** The number a binary list stands for *)

(** The number whose binary digits, most significant first, are [l]. *)
Definition bits_value (l : list Z) : Z :=
  fold_left (fun acc b => 2 * acc + b) l 0.


(** ** The data of the binary example *)

(** The row the binary example makes of a number and its bits. *)
Definition binary_row (num : Z) (bits : list Z) : Row :=
  [ ("id"%string, CVal (VStr (Py.str num)));
    ("vector"%string, CVec (BinaryVector_from_binary_list bits)) ].

(** [bits] are [dimension] bits that stand for [num]. *)
Definition encodes (dimension num : Z) (bits : list Z) : Prop :=
  Py.len bits = dimension /\ Forall is_bit bits /\ bits_value bits = num.

Definition encodesb (dimension num : Z) (bits : list Z) : bool :=
  (Py.len bits =? dimension) &&
  forallb (fun b => (b =? 0) || (b =? 1)) bits &&
  (bits_value bits =? num).

(** The id and the bits of a row of the shape of [binary_row]. *)
Definition binary_row_of (row : Row) : option (string * list Z) :=
  match row with
  | [ (k1, CVal (VStr id)); (k2, CVec (BinaryVector_from_binary_list bits)) ] =>
      if String.eqb k1 "id" && String.eqb k2 "vector" then Some (id, bits)
      else None
  | _ => None
  end.

Definition is_binary_row (dimension num : Z) (row : Row) : bool :=
  match binary_row_of row with
  | Some (id, bits) => String.eqb id (Py.str num) && encodesb dimension num bits
  | None => false
  end.

Fixpoint are_binary_rows (dimension : Z) (nums : list Z) (rows : list Row) : bool :=
  match nums, rows with
  | [], [] => true
  | num :: nums', row :: rows' =>
      is_binary_row dimension num row && are_binary_rows dimension nums' rows'
  | _, _ => false
  end.

(** The vector a top-k request searches with, when it is a binary one
    and nothing else is asked but a limit. *)
Definition binary_target (req : VectorSearchRequest) : option (list Z * option Z) :=
  match req with
  | Topk r =>
      match r.(topk_vector), r.(topk_filter), r.(topk_config) with
      | BinaryVector_from_binary_list bits, None, None =>
          if String.eqb r.(topk_vector_field) "vector"
          then Some (bits, r.(topk_limit)) else None
      | _, _, _ => None
      end
  | _ => None
  end.

(** An upsert or a search of the binary example with other data than
    [nums] and [target] encoded in [dimension] bits. *)
Definition other_binary_data (dimension : Z) (nums : list Z) (target : Z)
    (e : Event) : bool :=
  match e with
  | EvCall c _ =>
      match c with
      | table_upsert _ rows => negb (are_binary_rows dimension nums rows)
      | table_vector_search _ req _ =>
          match binary_target req with
          | Some (bits, Some limit) =>
              negb (encodesb dimension target bits && (limit =? 10))
          | _ => true
          end
      | _ => false
      end
  | _ => false
  end.

(** The request an event searches with. *)
Definition searched (e : Event) : option VectorSearchRequest :=
  match e with
  | EvCall (table_vector_search _ req _) _ => Some req
  | _ => None
  end.

(** The row of [num] in the binary example. *)
Definition binary_example_row (num : Z) : Row :=
  match num_to_binary_list num 128 with
  | Ok bits => binary_row num bits
  | _ => []
  end.


(** ** Creating a database after cleaning up *)

Definition database_eqb (a b : Database) : bool :=
  String.eqb a.(database_name) b.(database_name).

(** A lookup of a database, or its creation. *)
Definition resets (e : Event) : bool :=
  match e with
  | EvCall (client_database _ _) _ => true
  | EvCall (client_create_database _ _) _ => true
  | _ => false
  end.

(** The handle a lookup of [name] returned. *)
Definition found (name : string) (e : Event) : option Database :=
  match e with
  | EvCall c r =>
      match c in Call R return SdkError + R -> option Database with
      | client_database _ n => fun r =>
          match r with
          | inr db => if String.eqb n name then Some db else None
          | inl _ => None
          end
      | _ => fun _ => None
      end r
  | _ => None
  end.

(** A lookup of [name] that raised a ClientError. *)
Definition not_found (name : string) (e : Event) : bool :=
  match e with
  | EvCall c r =>
      match c, r with
      | client_database _ n, inl (ClientError _) => String.eqb n name
      | _, _ => false
      end
  | _ => false
  end.

(** A [drop_database] on the handle [db] that returned. *)
Definition drops (db : Database) (e : Event) : bool :=
  match e with
  | EvCall c r =>
      match c, r with
      | db_drop_database d, inr _ => database_eqb d db
      | _, _ => false
      end
  | _ => false
  end.

(** After the events [pre] the script has seen to it that no database
    [name] is there: its last lookup was one of [name], and it raised a
    ClientError, or it returned a handle and [drop_database] has since
    returned on that handle. *)
Definition cleaned_up (name : string) (pre : list Event) : Prop :=
  exists pre1 l pre2,
    pre = pre1 ++ l :: pre2 /\
    Forall (fun e => resets e = false) pre2 /\
    (not_found name l = true \/
     exists db, found name l = Some db /\ existsb (drops db) pre2 = true).

(** Every [create_database] of the run comes after the cleanup of that
    database. *)
Definition creates_after_cleanup (ev : list Event) : Prop :=
  forall pre e post name,
    ev = pre ++ e :: post -> creates_database name e = true ->
    cleaned_up name pre.

(** The cleanup monitor: what the script knows of the database it
    looked up last. *)
Inductive Known : Type :=
| Unknown
| Absent (name : string)
| Held (name : string) (db : Database).

Definition clean_step (s : Known) (e : Event) : option Known :=
  match e with
  | EvCall c r =>
      match c in Call R return SdkError + R -> option Known with
      | client_database _ name => fun r =>
          match r with
          | inr db => Some (Held name db)
          | inl (ClientError _) => Some (Absent name)
          | inl _ => Some Unknown
          end
      | db_drop_database db => fun r =>
          match s, r with
          | Held name db', inr _ =>
              if database_eqb db db' then Some (Absent name) else Some s
          | _, _ => Some s
          end
      | client_create_database _ name => fun _ =>
          match s with
          | Absent name' => if String.eqb name name' then Some Unknown else None
          | _ => None
          end
      | _ => fun _ => Some s
      end r
  | _ => Some s
  end.

(** The final condition that asks nothing. *)
Definition anything (r : Res unit) (s : Known) : Prop := True.


(** What the cleanup monitor knows is true of the events it has read. *)
Definition known_of (s : Known) (pre : list Event) : Prop :=
  match s with
  | Unknown => True
  | Absent name => cleaned_up name pre
  | Held name db =>
      exists pre1 l pre2,
        pre = pre1 ++ l :: pre2 /\
        Forall (fun e => resets e = false) pre2 /\
        found name l = Some db
  end.


(** ** Names and dimensions the script uses *)

(** What the script has declared of the table it works on: the fields of
    its schema and the names of its indexes. *)
Record Declared : Type := {
  decl_fields : list Field;
  decl_indexes : list string
}.

Definition name_in (names : list string) (name : string) : bool :=
  existsb (String.eqb name) names.

Definition index_name_of (i : Index) : string :=
  match i with
  | VectorIndex name _ _ _ _ _ => name
  | SecondaryIndex name _ => name
  | FilteringIndex name _ => name
  | InvertedIndex name _ _ _ => name
  end.

(** The fields an index is built on. *)
Definition index_fields (i : Index) : list string :=
  match i with
  | VectorIndex _ _ field _ _ _ => [field]
  | SecondaryIndex _ field => [field]
  | FilteringIndex _ fields => fields
  | InvertedIndex _ fields _ _ => fields
  end.

Definition find_field (fields : list Field) (name : string) : option Field :=
  find (fun f => String.eqb f.(field_name) name) fields.

Definition dimension_fits (f : Field) (n : Z) : bool :=
  match f.(dimension) with
  | Some d => n =? d
  | None => true
  end.

(** A vector is of the kind and of the dimension of the field. *)
Definition vector_fits (f : Field) (v : Vector) : bool :=
  match f.(field_type), v with
  | FieldType.FLOAT_VECTOR, FloatVector values => dimension_fits f (Py.len values)
  | FieldType.BINARY_VECTOR, BinaryVector_from_binary_list bits =>
      dimension_fits f (Py.len bits)
  | FieldType.SPARSE_FLOAT_VECTOR, SparseFloatVector_from_dict _ => true
  | _, _ => false
  end.

(** A cell fits the field: a vector field takes a vector of its kind
    and dimension, and a float vector may be written as a plain list. *)
Definition cell_fits (f : Field) (c : Cell) : bool :=
  match c with
  | CVec v => vector_fits f v
  | CVal v =>
      match f.(field_type), v with
      | FieldType.FLOAT_VECTOR, VList values => dimension_fits f (Py.len values)
      | FieldType.FLOAT_VECTOR, _ => false
      | FieldType.BINARY_VECTOR, _ => false
      | FieldType.SPARSE_FLOAT_VECTOR, _ => false
      | _, _ => true
      end
  end.

Definition is_true (b : option bool) : bool :=
  match b with Some true => true | _ => false end.

(** A row names declared fields only, with cells that fit them, and
    gives every field declared [not_null]. *)
Definition row_fits (fields : list Field) (row : Row) : bool :=
  forallb (fun kv => match find_field fields (fst kv) with
                     | Some f => cell_fits f (snd kv)
                     | None => false
                     end) row &&
  forallb (fun f => negb (is_true f.(not_null)) ||
                    name_in (map fst row) f.(field_name)) fields.

(** A primary key names the primary-key fields. *)
Definition key_fits (fields : list Field) (key : list (string * PyVal)) : bool :=
  forallb (fun kv => match find_field fields (fst kv) with
                     | Some f => is_true f.(primary_key)
                     | None => false
                     end) key &&
  forallb (fun f => negb (is_true f.(primary_key)) ||
                    name_in (map fst key) f.(field_name)) fields.

(** The fields to set exist and are not part of the primary key. *)
Definition update_fits (fields : list Field) (update : list (string * PyVal)) : bool :=
  forallb (fun kv => match find_field fields (fst kv) with
                     | Some f => negb (is_true f.(primary_key))
                     | None => false
                     end) update.

Definition projections_fit (fields : list Field) (projections : list string) : bool :=
  forallb (name_in (map field_name fields)) projections.

Definition search_fits (fields : list Field) (field : string) (v : Vector) : bool :=
  match find_field fields field with
  | Some f => vector_fits f v
  | None => false
  end.

Definition topk_fits (fields : list Field) (r : VectorTopkSearchRequest) : bool :=
  search_fits fields r.(topk_vector_field) r.(topk_vector).

Definition request_fits (fields : list Field) (req : VectorSearchRequest) : bool :=
  match req with
  | Topk r => topk_fits fields r
  | Range r => search_fits fields r.(range_vector_field) r.(range_vector)
  | Batch r => forallb (search_fits fields r.(batch_vector_field)) r.(batch_vectors)
  | Multi r => forallb (topk_fits fields) r.(multi_requests)
  end.

Definition indexes_fit (fields : list Field) (indexes : list Index) : bool :=
  forallb (fun i => forallb (name_in (map field_name fields)) (index_fields i))
          indexes.

Definition indexes_of (schema : Schema) : list Index :=
  match schema.(schema_indexes) with
  | Some indexes => indexes
  | None => []
  end.

(** What is declared after an event: [create_table] declares a schema
    anew, [add_fields] adds fields, [drop_index] and [create_indexes]
    take index names away and add some. *)
Definition declare (s : option Declared) (e : Event) : option Declared :=
  match e with
  | EvCall c _ =>
      match c with
      | db_create_table _ _ _ _ schema =>
          Some {| decl_fields := schema.(schema_fields);
                  decl_indexes := map index_name_of (indexes_of schema) |}
      | table_add_fields _ schema =>
          option_map (fun d =>
            {| decl_fields := d.(decl_fields) ++ schema.(schema_fields);
               decl_indexes := d.(decl_indexes) |}) s
      | table_drop_index _ name =>
          option_map (fun d =>
            {| decl_fields := d.(decl_fields);
               decl_indexes :=
                 filter (fun n => negb (String.eqb n name)) d.(decl_indexes) |}) s
      | table_create_indexes _ indexes =>
          option_map (fun d =>
            {| decl_fields := d.(decl_fields);
               decl_indexes := d.(decl_indexes) ++ map index_name_of indexes |}) s
      | _ => s
      end
  | _ => s
  end.

(** The names and vectors of a call fit what is declared. *)
Definition call_fits (d : Declared) {R} (c : Call R) : bool :=
  let fields := d.(decl_fields) in
  match c with
  | table_add_fields _ schema =>
      forallb (fun f => negb (name_in (map field_name fields) f.(field_name)))
              schema.(schema_fields)
  | table_upsert _ rows => forallb (row_fits fields) rows
  | table_query _ key projections _ =>
      key_fits fields key && projections_fit fields projections
  | table_batch_query _ keys projections _ =>
      forallb (fun k => key_fits fields k.(key_primary_key)) keys &&
      projections_fit fields projections
  | table_select _ _ projections _ => projections_fit fields projections
  | table_update _ key update => key_fits fields key && update_fits fields update
  | table_delete _ key => key_fits fields key
  | table_vector_search _ req projections =>
      request_fits fields req &&
      match projections with
      | Some ps => projections_fit fields ps
      | None => true
      end
  | table_search_iterator _ req _ _ => request_fits fields req
  | table_bm25_search _ req => name_in d.(decl_indexes) req.(bm25_index_name)
  | table_hybrid_search _ req =>
      topk_fits fields req.(hybrid_vector_request) &&
      name_in d.(decl_indexes) req.(hybrid_bm25_request).(bm25_index_name)
  | table_rebuild_index _ name => name_in d.(decl_indexes) name
  | table_drop_index _ name => name_in d.(decl_indexes) name
  | table_modify_index _ name _ _ => name_in d.(decl_indexes) name
  | table_create_indexes _ indexes =>
      indexes_fit fields indexes &&
      forallb (fun i => negb (name_in d.(decl_indexes) (index_name_of i))) indexes
  | _ => true
  end.

(** Calls on a table, which need one to be declared. *)
Definition on_table {R} (c : Call R) : bool :=
  match c with
  | table_upsert _ _ | table_add_fields _ _ | table_stats _
  | table_query _ _ _ _ | table_batch_query _ _ _ _
  | table_rebuild_index _ _ | table_describe_index _ _
  | table_vector_search _ _ _ | table_search_iterator _ _ _ _
  | table_bm25_search _ _ | table_hybrid_search _ _
  | table_select _ _ _ _ | table_update _ _ _ | table_delete _ _
  | table_drop_index _ _ | table_create_indexes _ _
  | table_modify_index _ _ _ _ => true
  | _ => false
  end.

(** The event uses only what is declared: a schema's indexes are built
    on its own fields; a call on a table comes after a [create_table]
    and fits what is declared then. *)
Definition well_named (s : option Declared) (e : Event) : bool :=
  match e with
  | EvCall c _ =>
      match c with
      | db_create_table _ _ _ _ schema =>
          indexes_fit schema.(schema_fields) (indexes_of schema)
      | _ =>
          match s with
          | Some d => call_fits d c
          | None => negb (on_table c)
          end
      end
  | _ => true
  end.

(** Every event of the run uses only what was declared at first, [s],
    and what the events before it have declared. *)
Definition uses_what_is_declared (s : option Declared) (ev : list Event) : Prop :=
  forall pre e post,
    ev = pre ++ e :: post ->
    well_named (fold_left declare pre s) e = true.

(** The monitor of a check on a state that events update. *)
Definition checked_step {S} (check : S -> Event -> bool) (next : S -> Event -> S)
    (s : S) (e : Event) : option S :=
  if check s e then Some (next s e) else None.

(** What [create_db_and_table] declares, read off a run of it. *)
Definition book_declared : option Declared :=
  Eval vm_compute in
    fold_left declare (snd (create_db_and_table demo_server 5 main_test_vdb [])) None.

(** What is declared once [change_table_schema] has added its fields. *)
Definition book_declared_more : option Declared :=
  Eval vm_compute in
    fold_left declare (snd (change_table_schema demo_server main_test_vdb book_created))
              book_declared.

(** What is declared once [drop_and_create_vindex] has made the vector
    index anew. *)
Definition book_redeclared : option Declared :=
  Eval vm_compute in
    fold_left declare
              (snd (drop_and_create_vindex demo_server 5 main_test_vdb book_created))
              book_declared_more.

(** What the usage examples declare. *)
Definition binary_declared : option Declared :=
  Eval vm_compute in
    fold_left declare
              (snd (binary_vector_usage_example demo_server 5 main_test_vdb [])) None.

Definition sparse_declared : option Declared :=
  Eval vm_compute in
    fold_left declare
              (snd (sparse_vector_usage_example demo_server 5 main_test_vdb [])) None.

(** The row of [num] in the sparse example. *)
Definition sparse_example_row (num : Z) : Row :=
  [ ("id"%string, CVal (VStr (Py.str num)));
    ("vector"%string,
     CVec (SparseFloatVector_from_dict
             [(1, 0.56465%float); (100, 0.2366456%float); (10000, 0.543111%float)])) ].

(** The run ends in the state [s], when it returns. *)
Definition ends_in {S} (s : S) : Res unit -> S -> Prop :=
  @pass S unit unit (fun s' => s' = s) (fun _ _ => True).


(** ** Handles *)

Definition table_eqb (a b : Table) : bool :=
  String.eqb a.(table_database) b.(table_database) &&
  String.eqb a.(table_name) b.(table_name) &&
  TableState.eqb a.(table_state) b.(table_state).

(** The handles the script holds: the database its last lookup or
    creation returned, and the table [db.table] has returned since. *)
Record Handles : Type := {
  held_database : option Database;
  held_table : option Table
}.

Definition no_handles : Handles :=
  {| held_database := None; held_table := None |}.

(** The database handle a call is made on. *)
Definition database_of {R} (c : Call R) : option Database :=
  match c with
  | db_drop_table db _ | db_drop_database db | db_create_table db _ _ _ _
  | db_describe_table db _ | db_modify_table db _ _ | db_table db _ => Some db
  | _ => None
  end.

(** The table handle a call is made on. *)
Definition table_of {R} (c : Call R) : option Table :=
  match c with
  | table_upsert t _ | table_add_fields t _ | table_stats t
  | table_query t _ _ _ | table_batch_query t _ _ _
  | table_rebuild_index t _ | table_describe_index t _
  | table_vector_search t _ _ | table_search_iterator t _ _ _
  | table_bm25_search t _ | table_hybrid_search t _
  | table_select t _ _ _ | table_update t _ _ | table_delete t _
  | table_drop_index t _ | table_create_indexes t _
  | table_modify_index t _ _ _ => Some t
  | _ => None
  end.

(** The handles held after an event: a database that is looked up or
    created replaces the one held and the table with it; a table that
    [db.table] returns replaces the table. *)
Definition obtain (s : Handles) (e : Event) : Handles :=
  match e with
  | EvCall c r =>
      match c in Call R return SdkError + R -> Handles with
      | client_database _ _ => fun r =>
          match r with
          | inr db => {| held_database := Some db; held_table := None |}
          | inl _ => s
          end
      | client_create_database _ _ => fun r =>
          match r with
          | inr db => {| held_database := Some db; held_table := None |}
          | inl _ => s
          end
      | db_table _ _ => fun r =>
          match r with
          | inr t => {| held_database := s.(held_database); held_table := Some t |}
          | inl _ => s
          end
      | _ => fun _ => s
      end r
  | _ => s
  end.

(** The event is made on the handles held. *)
Definition uses_held (s : Handles) (e : Event) : bool :=
  match e with
  | EvCall c _ =>
      match database_of c with
      | Some db =>
          match s.(held_database) with
          | Some held => database_eqb db held
          | None => false
          end
      | None => true
      end &&
      match table_of c with
      | Some t =>
          match s.(held_table) with
          | Some held => table_eqb t held
          | None => false
          end
      | None => true
      end
  | _ => true
  end.

(** Every call on a database or on a table is made on the handle held
    then. *)
Definition uses_the_handles_it_holds (ev : list Event) : Prop :=
  forall pre e post,
    ev = pre ++ e :: post ->
    uses_held (fold_left obtain pre no_handles) e = true.


(** ** Time spent sleeping *)

(** The seconds slept after one more event. *)
Definition slept (total : Z) (e : Event) : Z :=
  match e with
  | EvSleep n => total + n
  | _ => total
  end.

(** The seconds a run sleeps. *)
Definition total_sleep (ev : list Event) : Z := fold_left slept ev 0.

(** A run that returns has slept [bound] seconds or more. *)
Definition at_least (bound : Z) (r : Res unit) (total : Z) : Prop :=
  match r with
  | Ok _ => bound <= total
  | _ => True
  end.

(** The seconds each step sleeps at the least, in the order of [main]. *)
Definition step_sleeps : list Z :=
  [0; 22; 10; 0; 0; 0; 0; 0; 2; 0; 0; 0; 0; 0; 3; 2; 2; 10].


(** ** The order of the searches *)

(** The modes searched so far, after one more event. *)
Definition modes_after (modes : list SearchMode) (e : Event) : list SearchMode :=
  match search_mode_of e with
  | Some m => modes ++ [m]
  | None => modes
  end.

(** The modes of the searches of a run, in order. *)
Definition search_modes (ev : list Event) : list SearchMode :=
  fold_left modes_after ev [].

(** From the searches [before], a run that returns has added the
    searches [modes], and a run that does not has added the first of
    them. *)
Definition modes_are (before modes : list SearchMode) (r : Res unit)
    (now : list SearchMode) : Prop :=
  match r with
  | Ok _ => now = before ++ modes
  | _ => exists k, now = before ++ firstn k modes
  end.

(** The searches of each step, in the order of [main]. *)
Definition step_modes : list (list SearchMode) :=
  [ []; []; []; []; []; []; []; [];
    [TopkSearch; RangeSearch; BatchSearch; MultiVectorSearch];
    []; [BM25Search]; [HybridSearch]; []; []; [];
    [TopkSearch]; [TopkSearch]; [] ].

(** ** The table description that is logged *)

Definition is_table_log (e : Event) : bool :=
  match e with
  | EvLog _ (Some (PTable _)) => true
  | _ => false
  end.

Definition is_modify_table (e : Event) : bool :=
  match e with
  | EvCall (db_modify_table _ _ _) _ => true
  | _ => false
  end.

(** What [create_db_and_table] has seen of its table: the description
    its last [describe_table] returned, whether it has called
    [modify_table], and whether it has logged a table since. *)
Record Seen : Type := {
  last_described : option Table;
  modified : bool;
  logged_since : bool
}.

Definition nothing_seen : Seen :=
  {| last_described := None; modified := false; logged_since := false |}.

Definition see (s : Seen) (e : Event) : Seen :=
  match e with
  | EvCall c r =>
      match c in Call R return SdkError + R -> Seen with
      | db_describe_table _ _ => fun r =>
          match r with
          | inr t => {| last_described := Some t; modified := s.(modified);
                        logged_since := s.(logged_since) |}
          | inl _ => s
          end
      | db_modify_table _ _ _ => fun _ =>
          {| last_described := s.(last_described); modified := true;
             logged_since := s.(logged_since) |}
      | _ => fun _ => s
      end r
  | EvLog _ (Some (PTable _)) =>
      {| last_described := s.(last_described); modified := s.(modified);
         logged_since := s.(logged_since) || s.(modified) |}
  | _ => s
  end.

(** A log line of a table prints the description last returned, and the
    table is not described again once it is modified. *)
Definition logs_last_description (s : Seen) (e : Event) : bool :=
  match e with
  | EvLog _ (Some (PTable t)) =>
      match s.(last_described) with
      | Some seen => table_eqb t seen
      | None => false
      end
  | EvCall (db_describe_table _ _) _ => negb s.(modified)
  | _ => true
  end.

(** * Properties *)

(** ** Rules of the weakest precondition *)

Section MonitorRules.

Variable S : Type.
Variable step : S -> Event -> option S.

Lemma mon_run_app (s : S) ev1 ev2 :
  mon_run step s (ev1 ++ ev2) =
  match mon_run step s ev1 with
  | Some s' => mon_run step s' ev2
  | None => None
  end.
Proof.
  revert s. induction ev1 as [|e ev1 IH]; intros s; simpl.
  - reflexivity.
  - destruct (step s e); [apply IH | reflexivity].
Qed.

Lemma wp_ret {A} (a : A) Q (s : S) : Q (Ok a) s -> wp step (ret a) Q s.
Proof. intros H h. exact H. Qed.

Lemma wp_raise {A} e (Q : Res A -> S -> Prop) s :
  Q (Raise e) s -> wp step (raise e) Q s.
Proof. intros H h. exact H. Qed.

Lemma wp_lift {A} (r : Res A) Q (s : S) : Q r s -> wp step (lift r) Q s.
Proof. intros H h. exact H. Qed.

Lemma wp_diverge {A} (Q : Res A -> S -> Prop) s :
  Q Diverge s -> wp step diverge Q s.
Proof. intros H h. exact H. Qed.

Lemma wp_bind {A B} (m : M A) (k : A -> M B) Q (s : S) :
  wp step m (after step k Q) s -> wp step (bind m k) Q s.
Proof.
  intros H h. specialize (H h). unfold accepted, bind in *.
  destruct (m h) as [r ev]. simpl in *.
  destruct (mon_run step s ev) as [s1|] eqn:E1; [|contradiction].
  destruct r as [a| |]; simpl in *.
  - specialize (H (h ++ ev)). unfold accepted in H.
    destruct (k a (h ++ ev)) as [r' ev']. simpl in *.
    rewrite mon_run_app, E1. exact H.
  - rewrite E1. exact H.
  - rewrite E1. exact H.
Qed.

Lemma wp_try {A} (m : M A) handler Q (s : S) :
  wp step m (handled step handler Q) s -> wp step (try_except m handler) Q s.
Proof.
  intros H h. specialize (H h). unfold accepted, try_except in *.
  destruct (m h) as [r ev]. simpl in *.
  destruct (mon_run step s ev) as [s1|] eqn:E1; [|contradiction].
  destruct r as [a|e|]; simpl in *; try (rewrite E1; exact H).
  destruct (handler e) as [k|]; [|simpl; rewrite E1; exact H].
  specialize (H (h ++ ev)). unfold accepted in H.
  destruct (k (h ++ ev)) as [r' ev']. simpl in *.
  rewrite mon_run_app, E1. exact H.
Qed.

Lemma wp_call srv {R} (c : Call R) Q (s : S) :
  (forall resp, match step s (EvCall c resp) with
                | Some s' => Q (answer resp) s'
                | None => False
                end) ->
  wp step (call srv c) Q s.
Proof.
  intros H h. unfold accepted, call. specialize (H (srv h R c)).
  destruct (srv h R c); simpl; destruct (step s _); assumption.
Qed.

Lemma wp_sleep n Q (s s' : S) :
  step s (EvSleep n) = Some s' -> Q (Ok tt) s' -> wp step (sleep n) Q s.
Proof. intros E H h. unfold accepted, sleep. simpl. rewrite E. exact H. Qed.

Lemma wp_log t a Q (s s' : S) :
  step s (EvLog t a) = Some s' -> Q (Ok tt) s' ->
  wp step (logger_debug t a) Q s.
Proof.
  intros E H h. unfold accepted, logger_debug. simpl. rewrite E. exact H.
Qed.

Lemma wp_read_local {A} name (v : option A) Q (s : S) :
  match v with
  | Some a => Q (Ok a) s
  | None => Q (Raise (UnboundLocalError name)) s
  end ->
  wp step (read_local name v) Q s.
Proof. destruct v; intros H h; exact H. Qed.

Lemma wp_mono {A} (m : M A) (Q Q' : Res A -> S -> Prop) s :
  (forall r s', Q r s' -> Q' r s') -> wp step m Q s -> wp step m Q' s.
Proof.
  intros HQ H h. specialize (H h). unfold accepted in *.
  destruct (mon_run step s _); [apply HQ|]; assumption.
Qed.

Lemma wp_while {I A} (Inv : I -> S -> Prop) fuel (body : I -> M (I + A)) Q :
  (forall i s, Inv i s -> Q Diverge s) ->
  (forall i s, Inv i s -> wp step (body i) (round Inv Q) s) ->
  forall i s, Inv i s -> wp step (while_true fuel body i) Q s.
Proof.
  intros Hdiv Hbody. induction fuel as [|fuel IH]; intros i s Hi; simpl.
  - apply wp_diverge. eauto.
  - apply wp_bind. eapply wp_mono; [|apply Hbody; eassumption].
    intros [[i'|a]|e|] s' H; simpl in *; auto. apply wp_ret. exact H.
Qed.

Lemma wp_for_each {A} (Inv : S -> Prop) (l : list A) body
    (Q : Res unit -> S -> Prop) :
  (forall s, Inv s -> Q (Ok tt) s) ->
  (forall x s, Inv s -> wp step (body x) (pass Inv Q) s) ->
  forall s, Inv s -> wp step (for_each l body) Q s.
Proof.
  intros Hend Hbody. induction l as [|x l IH]; intros s Hs; simpl.
  - apply wp_ret. auto.
  - apply wp_bind. eapply wp_mono; [|apply Hbody; eassumption].
    intros [[]|e|] s' H; simpl in *; auto.
Qed.

Lemma wp_map_M {A B} (Inv : S -> Prop) (f : A -> M B) (l : list A)
    (Q : Res (list B) -> S -> Prop) :
  (forall ys s, Inv s -> Q (Ok ys) s) ->
  (forall x s, Inv s -> wp step (f x) (pass Inv Q) s) ->
  forall s, Inv s -> wp step (map_M f l) Q s.
Proof.
  intros Hend Hf. revert Q Hend Hf.
  induction l as [|x l IH]; intros Q Hend Hf s Hs; simpl.
  - apply wp_ret. auto.
  - apply wp_bind. eapply wp_mono; [|apply Hf; eassumption].
    intros [y|e|] s' H; simpl in *; auto.
    apply wp_bind.
    apply (IH (after step (fun ys => ret (y :: ys)) Q)).
    + intros ys s0 H0. simpl. apply wp_ret. auto.
    + intros x0 s0 H0. eapply wp_mono; [|apply Hf; eassumption].
      intros [y0|e|] s1 H1; simpl in *; auto.
    + exact H.
Qed.

(** What [wp] says of one run. *)
Lemma wp_run {A} (m : M A) Q (s : S) h :
  wp step m Q s ->
  exists s', mon_run step s (snd (m h)) = Some s' /\ Q (fst (m h)) s'.
Proof.
  intros H. specialize (H h). unfold accepted in H.
  destruct (mon_run step s (snd (m h))) as [s'|]; [eauto | contradiction].
Qed.

End MonitorRules.

Arguments wp_run {S step A m Q s} h _.

(** ** Symbolic execution of the script against a monitor *)

Ltac destruct_scrutinee x :=
  lazymatch x with
  | match ?y with _ => _ end => destruct_scrutinee y
  | _ => destruct x eqn:?
  end.

Ltac expose_result r :=
  lazymatch r with
  | Ok _ => idtac
  | Raise _ => idtac
  | Diverge => idtac
  | _ => destruct r eqn:?
  end.

Ltac wp_step simp :=
  lazymatch goal with
  | |- wp _ (bind _ _) _ _ => apply wp_bind
  | |- wp _ (ret _) _ _ => apply wp_ret
  | |- wp _ (raise _) _ _ => apply wp_raise
  | |- wp _ (lift _) _ _ => apply wp_lift
  | |- wp _ (call _ _) _ _ =>
      apply wp_call; let r := fresh "resp" in intros [r|r]; cbn [answer]; simp
  | |- wp _ (sleep _) _ _ => eapply wp_sleep; [simp; reflexivity|]
  | |- wp _ (logger_debug _ _) _ _ => eapply wp_log; [simp; reflexivity|]
  | |- wp _ (read_local _ _) _ _ => apply wp_read_local
  | |- wp _ (try_except _ _) _ _ => apply wp_try
  | |- wp _ (while_true _ _ _) _ ?s =>
      apply wp_while with (Inv := fun _ s' => s' = s);
      [ intros ? ? -> | intros ? ? -> | reflexivity ]
  | |- wp _ (for_each _ _) _ ?s =>
      apply wp_for_each with (Inv := fun s' => s' = s);
      [ intros ? -> | intros ? ? -> | reflexivity ]
  | |- wp _ (map_M _ _) _ ?s =>
      apply wp_map_M with (Inv := fun s' => s' = s);
      [ intros ? ? -> | intros ? ? -> | reflexivity ]
  | |- wp _ (if ?b then _ else _) _ _ =>
      first [ match goal with H : b = _ |- _ => rewrite H end
            | destruct b eqn:? ]
  | |- wp _ (match ?x with _ => _ end) _ _ => destruct x eqn:?
  | |- after _ _ _ ?r _ => expose_result r; cbn [after]
  | |- handled _ _ _ ?r _ =>
      expose_result r;
      cbn [handled except_ClientError except_ServerError]
  | |- round _ _ ?r _ => expose_result r; cbn [round]
  | |- pass _ _ ?r _ => expose_result r; cbn [pass]
  | |- match ?x with _ => _ end =>
      first [ progress cbn [orb andb negb]
            | destruct_scrutinee x; cbv beta match ]
  end.

Ltac wp_auto simp := cbv zeta; repeat (wp_step simp).

(** ** Runs of [main] *)

Lemma bind_ret_tt (m : M unit) h : (m ;; ret tt) h = m h.
Proof.
  unfold bind, ret.
  destruct (m h) as [[[]|e|] ev]; rewrite ?app_nil_r; reflexivity.
Qed.

Lemma bind_ext {A B} (m : M A) (k k' : A -> M B) h :
  (forall a h', k a h' = k' a h') -> bind m k h = bind m k' h.
Proof.
  intros H. unfold bind. destruct (m h) as [[a|e|] ev]; try reflexivity.
  rewrite H. reflexivity.
Qed.

(** [main] runs its steps in the order of [demo_steps]. *)
Lemma main_run_steps srv fuel h :
  main srv fuel h =
  run_steps (map (fun m => m main_test_vdb) (demo_steps srv fuel)) h.
Proof.
  unfold main, demo_steps. cbv zeta. cbn [map run_steps].
  fold main_test_vdb. change (TestMochow_init _ _) with main_test_vdb.
  repeat (apply bind_ext; intros ? ?).
  symmetry. apply bind_ret_tt.
Qed.

Lemma wp_ext {S} (step : S -> Event -> option S) {A} (m m' : M A) Q s :
  (forall h, m h = m' h) -> wp step m' Q s -> wp step m Q s.
Proof. intros E H h. rewrite E. apply H. Qed.

Lemma wp_run_steps {S} (step : S -> Event -> option S) (Inv : S -> Prop)
    (Q : Res unit -> S -> Prop) (ms : list (M unit)) :
  (forall s, Inv s -> Q (Ok tt) s) ->
  Forall (fun m => forall s, Inv s -> wp step m (pass Inv Q) s) ms ->
  forall s, Inv s -> wp step (run_steps ms) Q s.
Proof.
  intros Hend Hms. induction Hms as [|m ms Hm _ IH]; intros s Hs; simpl.
  - apply wp_ret. auto.
  - apply wp_bind. eapply wp_mono; [|apply Hm; exact Hs].
    intros [[]|e|] s' H; simpl in *; auto.
Qed.

(** A property every step keeps is a property of [main]. *)
Lemma wp_main {S} (step : S -> Event -> option S) (Inv : S -> Prop)
    (Q : Res unit -> S -> Prop) srv fuel :
  (forall s, Inv s -> Q (Ok tt) s) ->
  Forall (fun m => forall self s, Inv s -> wp step (m self) (pass Inv Q) s)
         (demo_steps srv fuel) ->
  forall s, Inv s -> wp step (main srv fuel) Q s.
Proof.
  intros Hend Hms s Hs.
  apply wp_ext with (m' := run_steps (map (fun m => m main_test_vdb) (demo_steps srv fuel))).
  - apply main_run_steps.
  - apply wp_run_steps with (Inv := Inv); auto.
    apply Forall_map. revert Hms. apply Forall_impl. intros m Hm. apply Hm.
Qed.

(** Reading one more event. *)
Lemma mon_run_split {S} (step : S -> Event -> option S) s pre e post s' :
  mon_run step s (pre ++ e :: post) = Some s' ->
  exists s1 s2, mon_run step s pre = Some s1 /\ step s1 e = Some s2 /\
                mon_run step s2 post = Some s'.
Proof.
  rewrite mon_run_app. destruct (mon_run step s pre) as [s1|]; [|discriminate].
  simpl. destruct (step s1 e) as [s2|] eqn:E; [|discriminate].
  intros H. eauto.
Qed.

Lemma mon_run_last {S} (step : S -> Event -> option S) s pre e s' :
  mon_run step s (pre ++ [e]) = Some s' ->
  exists s1, mon_run step s pre = Some s1 /\ step s1 e = Some s'.
Proof.
  intros H. apply mon_run_split in H. destruct H as (s1 & s2 & H1 & H2 & H3).
  simpl in H3. injection H3 as <-. eauto.
Qed.

(** ** Delays (C8) *)

Lemma delay_step_sleep s n s' :
  delay_step s (EvSleep n) = Some s' -> n = 1 \/ n = 2 \/ n = 10.
Proof.
  simpl. destruct (Z.eqb_spec n 2); [auto|].
  destruct (Z.eqb_spec n 1); [auto|].
  destruct (Z.eqb_spec n 10); [auto|]. discriminate.
Qed.

Lemma delay_step_AfterSleep2 s e :
  delay_step s e = Some AfterSleep2 -> e = EvSleep 2.
Proof.
  destruct e as [R c r|n|t a]; simpl.
  - destruct c; destruct s; discriminate.
  - destruct (Z.eqb_spec n 2); [congruence|].
    destruct ((n =? 1) || (n =? 10)); discriminate.
  - discriminate.
Qed.

Lemma delay_step_AfterModifyIndex s e :
  delay_step s e = Some AfterModifyIndex -> is_modify_index e = true.
Proof.
  destruct e as [R c r|n|t a]; simpl.
  - destruct c; destruct s; try discriminate; reflexivity.
  - destruct (n =? 2); [discriminate|].
    destruct ((n =? 1) || (n =? 10)); discriminate.
  - discriminate.
Qed.

Lemma delay_step_describe_table s e s' :
  delay_step s e = Some s' -> is_describe_table e = true -> s = AfterSleep2.
Proof.
  destruct e as [R c r|n|t a]; simpl; try discriminate.
  destruct c; try discriminate. destruct s; try discriminate. reflexivity.
Qed.

Lemma delay_step_describe_index s e s' :
  delay_step s e = Some s' -> is_describe_index e = true ->
  s = AfterSleep2 \/ s = AfterModifyIndex.
Proof.
  destruct e as [R c r|n|t a]; simpl; try discriminate.
  destruct c; try discriminate. destruct s; try discriminate; auto.
Qed.

(** What the delay monitor accepts keeps to fixed delays. *)
Lemma delay_monitor_sound ev s' :
  mon_run delay_step AfterOther ev = Some s' -> fixed_delays ev.
Proof.
  intros Hrun. split; [|split].
  - intros n Hin. apply in_split in Hin. destruct Hin as (pre & post & ->).
    apply mon_run_split in Hrun. destruct Hrun as (s1 & s2 & _ & H & _).
    eapply delay_step_sleep; eassumption.
  - intros pre e post -> He.
    apply mon_run_split in Hrun. destruct Hrun as (s1 & s2 & Hpre & H & _).
    apply delay_step_describe_table in H; [|assumption]. subst s1.
    destruct pre as [|e0 pre0] using rev_ind; [discriminate|].
    apply mon_run_last in Hpre. destruct Hpre as (s0 & _ & H0).
    apply delay_step_AfterSleep2 in H0. subst. eauto.
  - intros pre e post -> He.
    apply mon_run_split in Hrun. destruct Hrun as (s1 & s2 & Hpre & H & _).
    apply delay_step_describe_index in H; [|assumption].
    destruct pre as [|e0 pre0] using rev_ind;
      [destruct H; subst; discriminate|].
    apply mon_run_last in Hpre. destruct Hpre as (s0 & _ & H0).
    exists pre0, e0. split; [reflexivity|].
    destruct H; subst s1.
    + left. eapply delay_step_AfterSleep2; eassumption.
    + right. eapply delay_step_AfterModifyIndex; eassumption.
Qed.

(** *** The schedule of the delays *)

Lemma advance_sound sch : forall started x s',
  advance started sch x = Some s' ->
  forall l, fits_from s' l = true -> fits_from (started, sch) (x :: l) = true.
Proof.
  unfold fits_from.
  induction sch as [|[n|n|n] rest IH]; intros started x s' H l Hl;
    cbn [advance] in H; cbn [fst snd fits rounds].
  - discriminate H.
  - destruct (x =? n); [|discriminate H]. injection H as <-.
    cbn [fst snd andb orb] in Hl. rewrite orb_false_r in Hl. rewrite Hl.
    reflexivity.
  - destruct (x =? n).
    + injection H as <-. cbn [fst snd andb orb] in Hl.
      rewrite orb_false_r in Hl. rewrite Hl. cbn. rewrite orb_true_r.
      reflexivity.
    + specialize (IH false x s' H l Hl). cbn [fst snd andb] in IH.
      rewrite orb_false_r in IH. rewrite IH. reflexivity.
  - destruct (x =? n).
    + injection H as <-. cbn [fst snd andb fits] in Hl. cbn [andb].
      rewrite orb_comm in Hl. rewrite Hl. reflexivity.
    + destruct started; [|discriminate H].
      specialize (IH false x s' H l Hl). cbn [fst snd andb] in IH.
      rewrite orb_false_r in IH. rewrite IH. cbn [andb].
      rewrite ?orb_true_r. reflexivity.
Qed.

Lemma may_end_sound sch : forall started,
  may_end started sch = true -> fits_from (started, sch) [] = true.
Proof.
  unfold fits_from.
  induction sch as [|[n|n|n] rest IH]; intros started H;
    cbn [may_end] in H; cbn [fst snd fits rounds].
  - reflexivity.
  - discriminate H.
  - specialize (IH false H). cbn [fst snd andb] in IH.
    rewrite orb_false_r in IH. rewrite IH. reflexivity.
  - apply andb_true_iff in H. destruct H as [-> H].
    specialize (IH false H). cbn [fst snd andb] in IH.
    rewrite orb_false_r in IH. rewrite IH. reflexivity.
Qed.

(** Every schedule has a run. *)
Lemma fits_some sch : exists w, fits sch w = true.
Proof.
  induction sch as [|[n|n|n] rest [w Hw]].
  - exists []. reflexivity.
  - exists (n :: w). cbn [fits]. rewrite Z.eqb_refl, Hw. reflexivity.
  - exists w. cbn [fits]. rewrite Hw. reflexivity.
  - exists (n :: w). cbn [fits rounds]. rewrite Z.eqb_refl, Hw. reflexivity.
Qed.

Lemma rounds_app n (k k' : list Z -> bool) l2 :
  (forall l, k l = true -> k' (l ++ l2) = true) ->
  forall l1, rounds n k l1 = true -> rounds n k' (l1 ++ l2) = true.
Proof.
  intros Hk. induction l1 as [|x l1 IH]; cbn [rounds app]; [discriminate|].
  intros H. apply andb_true_iff in H. destruct H as [-> H]. cbn [andb].
  apply orb_true_iff in H. destruct H as [H|H].
  - rewrite (Hk _ H). reflexivity.
  - rewrite (IH H). apply orb_true_r.
Qed.

Lemma fits_app a b l2 :
  fits b l2 = true ->
  forall l1, fits a l1 = true -> fits (a ++ b) (l1 ++ l2) = true.
Proof.
  intros Hb. induction a as [|[n|n|n] rest IH]; intros l1 H;
    cbn [fits app] in *.
  - destruct l1; [exact Hb|discriminate H].
  - destruct l1 as [|x l1]; [discriminate H|]. cbn [app].
    apply andb_true_iff in H. destruct H as [-> H]. rewrite (IH _ H).
    reflexivity.
  - apply orb_true_iff in H. destruct H as [H|H].
    + rewrite (IH _ H). reflexivity.
    + destruct l1 as [|x l1]; [discriminate H|]. cbn [app].
      apply andb_true_iff in H. destruct H as [-> H]. rewrite (IH _ H).
      apply orb_true_r.
  - eapply rounds_app; [|exact H]. exact IH.
Qed.

Lemma sleeps_app ev1 ev2 : sleeps (ev1 ++ ev2) = sleeps ev1 ++ sleeps ev2.
Proof. unfold sleeps. apply flat_map_app. Qed.

Lemma sched_run ev : forall s s',
  mon_run sched_step s ev = Some s' ->
  forall more, fits_from s' more = true ->
               fits_from s (sleeps ev ++ more) = true.
Proof.
  induction ev as [|e ev IH]; intros s s' H more Hm; cbn [mon_run] in H.
  - injection H as <-. exact Hm.
  - destruct (sched_step s e) as [s1|] eqn:E; [|discriminate H].
    specialize (IH _ _ H more Hm).
    destruct e as [R c r|x|t a]; cbn [sched_step] in E;
      try (injection E as <-; exact IH).
    destruct s as [started sch]. cbn [fst snd] in E.
    change (sleeps (EvSleep x :: ev)) with (x :: sleeps ev). cbn [app].
    eapply advance_sound; eassumption.
Qed.

Lemma sched_sound (m : M unit) sch h :
  wp sched_step m sched_final (false, sch) -> keeps_schedule sch (m h).
Proof.
  intros H. destruct (wp_run h H) as ([started sch'] & Hrun & HQ).
  assert (Hfrom : forall l, fits_from (false, sch) l = fits sch l).
  { intros l. unfold fits_from. cbn [fst snd andb]. apply orb_false_r. }
  split.
  - destruct (fits_some sch') as [w Hw]. exists w. rewrite <- Hfrom.
    eapply sched_run; [exact Hrun|]. unfold fits_from. cbn [fst snd].
    rewrite Hw. reflexivity.
  - intros E. rewrite E in HQ. cbn [sched_final fst snd] in HQ.
    apply may_end_sound in HQ.
    pose proof (sched_run _ _ _ Hrun [] HQ) as Hf.
    rewrite app_nil_r, Hfrom in Hf. exact Hf.
Qed.

Lemma follows_app_l a b l : follows a l -> follows (a ++ b) l.
Proof.
  intros [more H]. destruct (fits_some b) as [w Hw].
  exists (more ++ w). rewrite app_assoc. apply fits_app; assumption.
Qed.

Lemma follows_app_r a b l1 l2 :
  fits a l1 = true -> follows b l2 -> follows (a ++ b) (l1 ++ l2).
Proof.
  intros Ha [more H]. exists more. rewrite <- app_assoc.
  apply fits_app; assumption.
Qed.

Lemma run_steps_schedule (ms : list (M unit)) (schs : list (list Delay)) :
  Forall2 (fun m sch => forall h, keeps_schedule sch (m h)) ms schs ->
  forall h, keeps_schedule (List.concat schs) (run_steps ms h).
Proof.
  induction 1 as [|m sch ms schs Hm _ IH]; intros h;
    cbn [run_steps List.concat].
  - split; [exists []|intros _]; reflexivity.
  - specialize (Hm h). unfold keeps_schedule in *. unfold bind.
    destruct (m h) as [[[]|e|] ev]; cbn [fst snd] in Hm;
      destruct Hm as [Hf Hok].
    + specialize (IH (h ++ ev)).
      destruct (run_steps ms (h ++ ev)) as [r' ev']. cbn [fst snd] in *.
      destruct IH as [IHf IHok]. rewrite sleeps_app. split.
      * apply follows_app_r; [apply Hok; reflexivity|exact IHf].
      * intros E. apply fits_app; [apply IHok; exact E|apply Hok; reflexivity].
    + cbn [fst snd]. split; [apply follows_app_l; exact Hf|discriminate].
    + cbn [fst snd]. split; [apply follows_app_l; exact Hf|discriminate].
Qed.

Ltac sched_simp := cbn [sched_step advance fst snd Z.eqb Pos.eqb].

Ltac sched_tac :=
  lazymatch goal with
  | |- wp _ (while_true _ _ _) _ ?s =>
      apply wp_while
        with (Inv := fun _ s' => s' = s \/ Some s' = sched_step s (EvSleep 2));
      [ intros ? ? [->|?] | intros ? ? [->|?] | left; reflexivity ];
      try match goal with
          | H : Some _ = sched_step _ _ |- _ =>
              vm_compute in H; first [discriminate H | injection H as ->]
          end
  | |- sched_final _ _ => cbn [sched_final fst snd may_end andb];
                          first [reflexivity | exact I]
  | |- _ \/ _ => first [left; reflexivity | right; reflexivity]
  | |- _ = _ => reflexivity
  | |- True => exact I
  | _ => wp_step sched_simp
  end.

Ltac sched_method := cbv zeta; repeat sched_tac.

(** *** The delay that follows a statement *)

Lemma due_run_last pre : forall s0 s,
  mon_run due_step s0 pre = Some s ->
  pre = [] /\ s = s0 \/ exists pre' e, pre = pre' ++ [e] /\ s = delay_after e.
Proof.
  induction pre as [|e pre _] using rev_ind; intros s0 s H.
  - left. injection H as <-. auto.
  - right. apply mon_run_last in H. destruct H as (s1 & _ & Hstep).
    exists pre, e. split; [reflexivity|].
    destruct e as [R c r|n|t a]; cbn [due_step] in Hstep.
    + injection Hstep as <-. reflexivity.
    + destruct s1 as [d|]; [|discriminate Hstep].
      destruct (n =? d); [|discriminate Hstep]. injection Hstep as <-. reflexivity.
    + injection Hstep as <-. reflexivity.
Qed.

Lemma due_sound ev s :
  mon_run due_step None ev = Some s -> delays_by_statement ev.
Proof.
  intros H pre n post ->.
  apply mon_run_split in H. destruct H as (s1 & s2 & Hpre & Hstep & _).
  cbn [due_step] in Hstep. destruct s1 as [d|]; [|discriminate Hstep].
  destruct (Z.eqb_spec n d) as [->|]; [|discriminate Hstep].
  destruct (due_run_last _ _ _ Hpre) as [[_ E]|(pre' & e & -> & E)];
    [discriminate E|].
  exists pre', e. split; [reflexivity|]. symmetry. exact E.
Qed.

Ltac due_simp :=
  cbn [due_step delay_after];
  repeat match goal with
         | |- context [String.eqb ?a ?b] =>
             let v := eval vm_compute in (String.eqb a b) in
             change (String.eqb a b) with v
         end;
  repeat match goal with
         | H : TableState.eqb _ _ = _ |- _ => rewrite H
         end;
  cbv beta iota.

Ltac due_method := wp_auto due_simp; first [exact I | reflexivity].

Section Delays.

Variable srv : Server.
Variable fuel : nat.

Lemma delays_of_steps :
  Forall (fun m => forall self s, wp delay_step (m self) (fun _ _ => True) s)
         (demo_steps srv fuel).
Proof.
  unfold demo_steps.
  repeat (apply Forall_cons; [intros self s|]); [..|apply Forall_nil].
  - unfold clear. wp_auto ltac:(cbn [delay_step]); first [exact I | reflexivity].
  - unfold create_db_and_table. wp_auto ltac:(cbn [delay_step]); first [exact I | reflexivity].
  - unfold upsert_data. wp_auto ltac:(cbn [delay_step]); first [exact I | reflexivity].
  - unfold select_data. wp_auto ltac:(cbn [delay_step]); first [exact I | reflexivity].
  - unfold change_table_schema. wp_auto ltac:(cbn [delay_step]); first [exact I | reflexivity].
  - unfold show_table_stats. wp_auto ltac:(cbn [delay_step]); first [exact I | reflexivity].
  - unfold query_data. wp_auto ltac:(cbn [delay_step]); first [exact I | reflexivity].
  - unfold batch_query_data. wp_auto ltac:(cbn [delay_step]); first [exact I | reflexivity].
  - unfold vector_search. wp_auto ltac:(cbn [delay_step]); first [exact I | reflexivity].
  - unfold search_iterator. wp_auto ltac:(cbn [delay_step]); first [exact I | reflexivity].
  - unfold bm25_search. wp_auto ltac:(cbn [delay_step]); first [exact I | reflexivity].
  - unfold hybrid_search. wp_auto ltac:(cbn [delay_step]); first [exact I | reflexivity].
  - unfold update_data. wp_auto ltac:(cbn [delay_step]); first [exact I | reflexivity].
  - unfold delete_data. wp_auto ltac:(cbn [delay_step]); first [exact I | reflexivity].
  - unfold drop_and_create_vindex. wp_auto ltac:(cbn [delay_step]); first [exact I | reflexivity].
  - unfold binary_vector_usage_example. wp_auto ltac:(cbn [delay_step]); first [exact I | reflexivity].
  - unfold sparse_vector_usage_example. wp_auto ltac:(cbn [delay_step]); first [exact I | reflexivity].
  - unfold delete_and_drop. wp_auto ltac:(cbn [delay_step]); first [exact I | reflexivity].
Qed.

Lemma schedules_of_steps :
  Forall2 (fun m sch => forall self, wp sched_step (m self) sched_final (false, sch))
          (demo_steps srv fuel) step_schedules.
Proof.
  unfold demo_steps, step_schedules. repeat constructor; intros self.
  - unfold clear. sched_method.
  - unfold create_db_and_table. sched_method.
  - unfold upsert_data. sched_method.
  - unfold select_data. sched_method.
  - unfold change_table_schema. sched_method.
  - unfold show_table_stats. sched_method.
  - unfold query_data. sched_method.
  - unfold batch_query_data. sched_method.
  - unfold vector_search. sched_method.
  - unfold search_iterator. sched_method.
  - unfold bm25_search. sched_method.
  - unfold hybrid_search. sched_method.
  - unfold update_data. sched_method.
  - unfold delete_data. sched_method.
  - unfold drop_and_create_vindex. sched_method.
  - unfold binary_vector_usage_example. sched_method.
  - unfold sparse_vector_usage_example. sched_method.
  - unfold delete_and_drop. sched_method.
Qed.

Lemma due_of_steps :
  Forall (fun m => forall self s, wp due_step (m self) (fun _ _ => True) s)
         (demo_steps srv fuel).
Proof.
  unfold demo_steps.
  repeat (apply Forall_cons; [intros self s|]); [..|apply Forall_nil].
  - unfold clear. due_method.
  - unfold create_db_and_table. due_method.
  - unfold upsert_data. due_method.
  - unfold select_data. due_method.
  - unfold change_table_schema. due_method.
  - unfold show_table_stats. due_method.
  - unfold query_data. due_method.
  - unfold batch_query_data. due_method.
  - unfold vector_search. due_method.
  - unfold search_iterator. due_method.
  - unfold bm25_search. due_method.
  - unfold hybrid_search. due_method.
  - unfold update_data. due_method.
  - unfold delete_data. due_method.
  - unfold drop_and_create_vindex. due_method.
  - unfold binary_vector_usage_example. due_method.
  - unfold sparse_vector_usage_example. due_method.
  - unfold delete_and_drop. due_method.
Qed.


End Delays.

(** ** The binary list of a number (C2) *)

Lemma ints_of_chars_app s t ds dt :
  Py.ints_of_chars s = Ok ds -> Py.ints_of_chars t = Ok dt ->
  Py.ints_of_chars (s ++ t) = Ok (ds ++ dt).
Proof.
  revert ds. induction s as [|c s IH]; simpl; intros ds Hs Ht.
  - injection Hs as <-. exact Ht.
  - destruct (Py.int_of_char c); try discriminate.
    destruct (Py.ints_of_chars s) eqn:E; try discriminate.
    injection Hs as <-. rewrite (IH _ eq_refl Ht). reflexivity.
Qed.

Lemma ints_of_bin_digits p : Py.ints_of_chars (Py.bin_digits p) = Ok (pos_bits p).
Proof.
  induction p; simpl.
  - apply ints_of_chars_app; [assumption | reflexivity].
  - apply ints_of_chars_app; [assumption | reflexivity].
  - reflexivity.
Qed.

Lemma ints_of_bin num : 0 <= num ->
  Py.ints_of_chars (Py.str_from 2 (Py.bin num)) = Ok (nat_bits num).
Proof.
  destruct num; intros H; simpl.
  - reflexivity.
  - apply ints_of_bin_digits.
  - lia.
Qed.

Lemma pos_bits_length p : Py.len (pos_bits p) = Z.log2 (Zpos p) + 1.
Proof.
  unfold Py.len. induction p; simpl pos_bits.
  - rewrite length_app, Nat2Z.inj_add, IHp. simpl List.length.
    change (Zpos p~1) with (2 * Zpos p + 1). rewrite Z.log2_succ_double by lia. lia.
  - rewrite length_app, Nat2Z.inj_add, IHp. simpl List.length.
    change (Zpos p~0) with (2 * Zpos p). rewrite Z.log2_double by lia. lia.
  - reflexivity.
Qed.

Lemma pos_bits_rev_nth p k :
  nth k (rev (pos_bits p)) 0 = Z.b2z (Z.testbit (Zpos p) (Z.of_nat k)).
Proof.
  revert k. induction p; intros k; simpl pos_bits.
  - rewrite rev_app_distr. simpl. destruct k as [|k].
    + reflexivity.
    + rewrite IHp. change (Zpos p~1) with (2 * Zpos p + 1).
      rewrite Nat2Z.inj_succ, Z.testbit_odd_succ by lia. reflexivity.
  - rewrite rev_app_distr. simpl. destruct k as [|k].
    + reflexivity.
    + rewrite IHp. change (Zpos p~0) with (2 * Zpos p).
      rewrite Nat2Z.inj_succ, Z.testbit_even_succ by lia. reflexivity.
  - simpl. destruct k as [|[|k]]; try reflexivity.
Qed.

Lemma pos_bits_are_bits p : Forall is_bit (pos_bits p).
Proof.
  induction p; simpl.
  - apply Forall_app. split; [assumption|]. constructor; [right; reflexivity | constructor].
  - apply Forall_app. split; [assumption|]. constructor; [left; reflexivity | constructor].
  - constructor; [right; reflexivity | constructor].
Qed.

Lemma nat_bits_are_bits num : Forall is_bit (nat_bits num).
Proof.
  destruct num; simpl; try apply pos_bits_are_bits;
    (constructor; [left; reflexivity | constructor]).
Qed.

Lemma nat_bits_rev_nth num k : 0 <= num ->
  nth k (rev (nat_bits num)) 0 = Z.b2z (Z.testbit num (Z.of_nat k)).
Proof.
  destruct num; intros H; simpl nat_bits.
  - rewrite Z.testbit_0_l. destruct k as [|[|k]]; reflexivity.
  - apply pos_bits_rev_nth.
  - lia.
Qed.

Lemma nat_bits_len_pos num : 0 < num -> Py.len (nat_bits num) = Z.log2 num + 1.
Proof. destruct num; intros H; try lia. apply pos_bits_length. Qed.

Lemma nat_bits_nth num i : 0 <= num -> (i < List.length (nat_bits num))%nat ->
  nth i (nat_bits num) 0 =
  Z.b2z (Z.testbit num (Py.len (nat_bits num) - 1 - Z.of_nat i)).
Proof.
  intros Hn Hi.
  rewrite <- (rev_involutive (nat_bits num)) at 1.
  rewrite rev_nth by (rewrite length_rev; lia).
  rewrite length_rev, nat_bits_rev_nth by assumption.
  unfold Py.len. do 2 f_equal. lia.
Qed.

(** C2: for [num >= 0] and [dimension >= 1], [num_to_binary_list]
    returns (its assertion holds) a list of [dimension] elements, each 0
    or 1: the binary digits of [num], most significant first, with zeros
    in front when [num < 2 ^ dimension], and the [dimension] leading
    digits of [num], the low ones dropped, when [num >= 2 ^ dimension]. *)
Theorem num_to_binary_list_spec num dimension :
  0 <= num -> 1 <= dimension ->
  exists l,
    num_to_binary_list num dimension = Ok l /\ binary_list_of num dimension l.
Proof.
  intros Hn Hd. unfold num_to_binary_list, binary_list_of. cbv zeta.
  rewrite (ints_of_bin num Hn).
  pose proof (nat_bits_are_bits num) as Hbits.
  pose proof (fun i => nat_bits_nth num i Hn) as Hnth.
  assert (Hlen : (num = 0 /\ Py.len (nat_bits num) = 1) \/
                 (0 < num /\ Py.len (nat_bits num) = Z.log2 num + 1)).
  { destruct (Z.eq_dec num 0) as [->|]; [left; split; reflexivity|].
    right. split; [lia | apply nat_bits_len_pos; lia]. }
  assert (Hcmp : 2 ^ dimension <= num <-> Py.len (nat_bits num) > dimension).
  { destruct Hlen as [[-> ->]|[Hpos ->]].
    - assert (0 < 2 ^ dimension) by (apply Z.pow_pos_nonneg; lia). lia.
    - rewrite (Z.log2_le_pow2 num dimension Hpos). lia. }
  remember (nat_bits num) as bits eqn:Ebits.
  unfold Py.len in *.
  destruct (Z.gtb_spec (Z.of_nat (List.length bits)) dimension) as [Hgt|Hle].
  - (* more digits than [dimension]: the slice keeps the leading ones *)
    unfold Py.slice_to. destruct (Z.leb_spec 0 dimension); try lia.
    exists (firstn (Z.to_nat dimension) bits).
    assert (Hl : Z.of_nat (List.length (firstn (Z.to_nat dimension) bits)) = dimension)
      by (rewrite length_firstn; lia).
    rewrite Hl, Z.eqb_refl.
    split; [reflexivity|]. split; [reflexivity|]. split; [|split].
    + rewrite <- (firstn_skipn (Z.to_nat dimension) bits) in Hbits.
      apply Forall_app in Hbits. apply Hbits.
    + intros Hlt. assert (2 ^ dimension <= num) by (apply Hcmp; lia). lia.
    + intros _ i Hi. rewrite nth_firstn.
      destruct (Nat.ltb_spec (Z.to_nat i) (Z.to_nat dimension)); try lia.
      rewrite Hnth by lia. destruct Hlen as [[-> E]|[Hpos E]]; [lia|].
      rewrite E. do 2 f_equal. lia.
  - destruct (Z.ltb_spec (Z.of_nat (List.length bits)) dimension) as [Hlt|Hge].
    + (* fewer digits: zeros are put in front *)
      unfold Py.list_mul.
      set (pad := Z.to_nat (dimension - Z.of_nat (List.length bits))).
      exists (repeat 0 pad ++ bits).
      assert (Hl : Z.of_nat (List.length (repeat 0 pad ++ bits)) = dimension)
        by (rewrite length_app, repeat_length; lia).
      rewrite Hl, Z.eqb_refl.
      split; [reflexivity|]. split; [reflexivity|]. split; [|split].
      * apply Forall_app. split; [|assumption].
        apply Forall_forall. intros x Hx. apply repeat_spec in Hx. left. exact Hx.
      * intros _ i Hi.
        destruct (Z.lt_ge_cases i (dimension - Z.of_nat (List.length bits))) as [Hpad|Hin].
        -- rewrite app_nth1 by (rewrite repeat_length; lia).
           rewrite nth_repeat.
           destruct Hlen as [[-> E]|[Hpos E]].
           ++ rewrite Z.testbit_0_l. reflexivity.
           ++ rewrite Z.bits_above_log2 by lia. reflexivity.
        -- rewrite app_nth2 by (rewrite repeat_length; lia).
           rewrite repeat_length, Hnth by lia. do 2 f_equal. lia.
      * intros Hbig. apply Hcmp in Hbig. lia.
    + (* exactly [dimension] digits *)
      assert (Heq : Z.of_nat (List.length bits) = dimension) by lia.
      exists bits. rewrite Heq, Z.eqb_refl.
      split; [reflexivity|]. split; [reflexivity|]. split; [assumption|split].
      * intros _ i Hi. rewrite Hnth by lia. do 2 f_equal. lia.
      * intros Hbig. apply Hcmp in Hbig. lia.
Qed.

Lemma num_to_binary_list_spec_witness :
  (0 <= 5 /\ 1 <= 8 /\
   exists l, num_to_binary_list 5 8 = Ok l /\ binary_list_of 5 8 l) /\
  (0 <= 300 /\ 1 <= 4 /\
   exists l, num_to_binary_list 300 4 = Ok l /\ binary_list_of 300 4 l).
Proof.
  split.
  - split; [lia|]. split; [lia|]. apply (num_to_binary_list_spec 5 8); lia.
  - split; [lia|]. split; [lia|]. apply (num_to_binary_list_spec 300 4); lia.
Defined.

(** The helper on the inputs the script gives it, and outside the claim. *)
Example num_to_binary_list_5_8 :
  num_to_binary_list 5 8 = Ok [0; 0; 0; 0; 0; 1; 0; 1].
Proof. reflexivity. Qed.

Example num_to_binary_list_300_4 :
  num_to_binary_list 300 4 = Ok [1; 0; 0; 1].
Proof. reflexivity. Qed.

Example num_to_binary_list_negative :
  num_to_binary_list (-5) 3 =
  Raise (ValueError "invalid literal for int() with base 10").
Proof. reflexivity. Qed.

(** ** Waiting for a table or an index (C1) *)

Lemma wait_step_starts s trig s' w :
  wait_step s trig = Some s' -> starts_wait trig = Some w ->
  s = Free /\ s' = Await w.
Proof.
  intros Hstep Hw. destruct s as [|w0|w0|]; simpl in Hstep.
  - rewrite Hw in Hstep. injection Hstep as <-. auto.
  - destruct trig as [R c r|n|t a]; simpl in *; discriminate.
  - destruct trig as [R c r|n|t a]; simpl in Hw; try discriminate.
    destruct r as [err|v]; [discriminate|].
    destruct c; try discriminate; destruct w0; simpl in Hstep; discriminate.
  - discriminate.
Qed.

Lemma mon_run_Stopped ev s' : mon_run wait_step Stopped ev = Some s' -> ev = [].
Proof. destruct ev; [reflexivity | discriminate]. Qed.

(** Until a poll returns NORMAL, a pending wait only lets sleeps of 2
    seconds and polls through, in turn. *)
Lemma wait_monitor_polling w mid : forall post s',
  (forall p, In p mid -> reports_normal w p = false) ->
  (mon_run wait_step (Await w) (mid ++ post) = Some s' ->
   polling w false mid = true) /\
  (mon_run wait_step (Slept w) (mid ++ post) = Some s' ->
   polling w true mid = true).
Proof.
  induction mid as [|e mid IH]; intros post s' Hno; [split; reflexivity|].
  assert (Hno' : forall p, In p mid -> reports_normal w p = false)
    by (intros p Hp; apply Hno; right; exact Hp).
  assert (He : reports_normal w e = false) by (apply Hno; left; reflexivity).
  split; simpl.
  - destruct (is_sleep 2 e); [|discriminate].
    intros H. apply (IH post s' Hno'). exact H.
  - destruct (is_poll_of w e); [|discriminate]. rewrite He.
    destruct (call_failed e).
    + intros H. apply mon_run_Stopped in H. apply app_eq_nil in H.
      destruct H as [-> _]. reflexivity.
    + intros H. apply (IH post s' Hno'). exact H.
Qed.

(** A pending wait ends only with a poll that returns NORMAL. *)
Lemma wait_monitor_completion w mid :
  (mon_run wait_step (Await w) mid = Some Free ->
   exists p, In p mid /\ reports_normal w p = true) /\
  (mon_run wait_step (Slept w) mid = Some Free ->
   exists p, In p mid /\ reports_normal w p = true).
Proof.
  induction mid as [|e mid IH]; [split; discriminate|].
  split; simpl.
  - destruct (is_sleep 2 e); [|discriminate].
    intros H. apply IH in H. destruct H as (p & Hp & Hn).
    exists p. split; [right|]; assumption.
  - destruct (is_poll_of w e); [|discriminate].
    destruct (reports_normal w e) eqn:He.
    + intros _. exists e. split; [left; reflexivity | exact He].
    + destruct (call_failed e).
      * intros H. pose proof (mon_run_Stopped _ _ H) as E. subst mid.
        discriminate H.
      * intros H. apply IH in H. destruct H as (p & Hp & Hn).
        exists p. split; [right|]; assumption.
Qed.

(** What the wait monitor accepts respects its waits. *)
Lemma wait_monitor_sound (out : Res unit * list Event) s' :
  mon_run wait_step Free (snd out) = Some s' ->
  (ends_by_script (fst out) = true -> s' = Free) ->
  waits_respected out.
Proof.
  intros Hrun Hend. split.
  - intros pre trig mid post w Hev Hw Hno. rewrite Hev in Hrun.
    apply mon_run_split in Hrun. destruct Hrun as (s1 & s2 & _ & Hstep & Hrest).
    destruct (wait_step_starts _ _ _ _ Hstep Hw) as [_ ->].
    eapply wait_monitor_polling; eassumption.
  - intros Hr pre trig mid w Hev Hw. rewrite Hev in Hrun.
    apply mon_run_split in Hrun. destruct Hrun as (s1 & s2 & _ & Hstep & Hrest).
    destruct (wait_step_starts _ _ _ _ Hstep Hw) as [_ ->].
    rewrite (Hend Hr) in Hrest.
    apply wait_monitor_completion in Hrest. exact Hrest.
Qed.

Ltac wait_simp :=
  cbn [wait_step starts_wait is_poll_of reports_normal call_failed is_sleep
       is_describe_table is_describe_index].

Ltac wait_done :=
  cbn [ends_by_script];
  first [ reflexivity | intros _; reflexivity | (let Hx := fresh in intros Hx; discriminate Hx) ].

Section Waits.

Variable srv : Server.
Variable fuel : nat.

Lemma waits_of_steps :
  Forall (fun m => forall self,
            wp wait_step (m self)
               (fun r s => ends_by_script r = true -> s = Free) Free)
         (demo_steps srv fuel).
Proof.
  unfold demo_steps.
  repeat (apply Forall_cons; [intros self|]); [..|apply Forall_nil].
  - unfold clear. wp_auto wait_simp; wait_done.
  - unfold create_db_and_table. wp_auto wait_simp; wait_done.
  - unfold upsert_data. wp_auto wait_simp; wait_done.
  - unfold select_data. wp_auto wait_simp; wait_done.
  - unfold change_table_schema. wp_auto wait_simp; wait_done.
  - unfold show_table_stats. wp_auto wait_simp; wait_done.
  - unfold query_data. wp_auto wait_simp; wait_done.
  - unfold batch_query_data. wp_auto wait_simp; wait_done.
  - unfold vector_search. wp_auto wait_simp; wait_done.
  - unfold search_iterator. wp_auto wait_simp; wait_done.
  - unfold bm25_search. wp_auto wait_simp; wait_done.
  - unfold hybrid_search. wp_auto wait_simp; wait_done.
  - unfold update_data. wp_auto wait_simp; wait_done.
  - unfold delete_data. wp_auto wait_simp; wait_done.
  - unfold drop_and_create_vindex. wp_auto wait_simp; wait_done.
  - unfold binary_vector_usage_example. wp_auto wait_simp; wait_done.
  - unfold sparse_vector_usage_example. wp_auto wait_simp; wait_done.
  - unfold delete_and_drop. wp_auto wait_simp; wait_done.
Qed.

(** C1: in every run of [main] and of each of its steps (so of
    [create_db_and_table] and [vector_search], whatever the index type
    and whatever the server answers): once [create_table] or
    [rebuild_index] has returned, and until a [describe_table] (a
    [describe_index]) returns the state NORMAL, the script only sleeps
    2 seconds and describes, in turn; and it gets past the loop (it
    returns, or raises an exception of its own) only after a describe
    that returned NORMAL. *)
Theorem waits_are_respected :
  (forall h, waits_respected (main srv fuel h)) /\
  Forall (fun m => forall self h, waits_respected (m self h))
         (demo_steps srv fuel).
Proof.
  split.
  - intros h.
    assert (H : wp wait_step (main srv fuel)
                  (fun r s => ends_by_script r = true -> s = Free) Free).
    { apply wp_main with (Inv := fun s => s = Free); [intros; assumption| |reflexivity].
      generalize waits_of_steps. apply Forall_impl. intros m Hm self s ->.
      eapply wp_mono; [|apply Hm]. intros [[]|e|] s' H; cbn [pass]; auto. }
    destruct (wp_run h H) as (s' & Hrun & Hend).
    eapply wait_monitor_sound; eassumption.
  - generalize waits_of_steps. apply Forall_impl. intros m Hm self h.
    destruct (wp_run h (Hm self)) as (s' & Hrun & Hend).
    eapply wait_monitor_sound; eassumption.
Qed.

End Waits.

(** ** The calls of a run that returns (C4, C6) *)

Lemma seen_run P s ev :
  mon_run (seen_step P) s ev = Some (s || existsb P ev).
Proof.
  revert s. induction ev as [|e ev IH]; intros s; simpl.
  - rewrite orb_false_r. reflexivity.
  - rewrite IH, orb_assoc. reflexivity.
Qed.

(** The postcondition of the [seen_step] monitors: a run that returns
    made the call. *)
Definition made (r : Res unit) (s : bool) : Prop := r = Ok tt -> s = true.

Lemma issued_of_wp P (m : M unit) h ev :
  wp (seen_step P) m made false ->
  m h = (Ok tt, ev) ->
  exists e, In e ev /\ P e = true.
Proof.
  intros H E. destruct (wp_run h H) as (s' & Hrun & Hs').
  rewrite E in Hrun, Hs'. simpl in Hrun, Hs'.
  rewrite seen_run in Hrun. simpl in Hrun. injection Hrun as <-.
  apply existsb_exists. apply Hs'. reflexivity.
Qed.

Lemma run_steps_ran ms : forall h ev,
  run_steps ms h = (Ok tt, ev) ->
  exists evs, steps_ran ms h evs /\ ev = List.concat evs.
Proof.
  induction ms as [|m ms IH]; intros h ev H; simpl in H.
  - injection H as <-. exists []. split; [exact I | reflexivity].
  - unfold bind in H. destruct (m h) as [[[]|e|] ev1] eqn:E1; try discriminate.
    destruct (run_steps ms (h ++ ev1)) as [r2 ev2] eqn:E2.
    injection H as -> <-.
    destruct (IH _ _ E2) as (evs & Hran & ->).
    exists (ev1 :: evs). split; [|reflexivity]. split; assumption.
Qed.

Lemma steps_ran_In ms : forall h evs m,
  steps_ran ms h evs -> In m ms ->
  exists h' ev', m h' = (Ok tt, ev') /\ incl ev' (List.concat evs).
Proof.
  induction ms as [|m0 ms IH]; intros h evs m Hran Hin; [destruct Hin|].
  destruct evs as [|ev0 evs]; [destruct Hran|]. destruct Hran as [H0 Hran].
  destruct Hin as [<- | Hin].
  - exists h, ev0. split; [exact H0|]. simpl. apply incl_appl, incl_refl.
  - destruct (IH _ _ _ Hran Hin) as (h' & ev' & Hm & Hincl).
    exists h', ev'. split; [exact Hm|]. simpl. apply incl_appr. exact Hincl.
Qed.

Ltac seen_simp :=
  cbn [seen_step calls method_name searches search_mode_of SearchMode_eqb];
  repeat match goal with
         | |- context [String.eqb ?a ?b] =>
             let v := eval vm_compute in (String.eqb a b) in
             change (String.eqb a b) with v
         end;
  cbn [orb].

Ltac seen_done :=
  unfold made; first [ reflexivity | intros _; reflexivity | (let Hx := fresh in intros Hx; discriminate Hx) ].

Section Issued.

Variable srv : Server.
Variable fuel : nat.

(** A call every run of the step [m] that returns makes is a call every
    run of [main] that returns makes. *)
Lemma main_issues P (m : TestMochow -> M unit) :
  In m (demo_steps srv fuel) ->
  (forall self, wp (seen_step P) (m self) made false) ->
  forall h ev, main srv fuel h = (Ok tt, ev) ->
  exists e, In e ev /\ P e = true.
Proof.
  intros Hin Hm h ev Hmain. rewrite main_run_steps in Hmain.
  apply run_steps_ran in Hmain. destruct Hmain as (evs & Hran & ->).
  destruct (steps_ran_In _ _ _ (m main_test_vdb) Hran) as (h' & ev' & Hrun & Hincl).
  { apply in_map_iff. exists m. split; [reflexivity | exact Hin]. }
  destruct (issued_of_wp P _ h' ev' (Hm main_test_vdb) Hrun) as (e & He & HP).
  exists e. split; [apply Hincl; exact He | exact HP].
Qed.

Lemma create_db_and_table_calls_create_database self :
  wp (seen_step (calls "create_database")) (create_db_and_table srv fuel self) made false.
Proof. unfold create_db_and_table. wp_auto seen_simp; seen_done. Qed.

Lemma create_db_and_table_calls_create_table self :
  wp (seen_step (calls "create_table")) (create_db_and_table srv fuel self) made false.
Proof. unfold create_db_and_table. wp_auto seen_simp; seen_done. Qed.

Lemma upsert_data_calls_upsert self :
  wp (seen_step (calls "upsert")) (upsert_data srv self) made false.
Proof. unfold upsert_data. wp_auto seen_simp; seen_done. Qed.

Lemma query_data_calls_query self :
  wp (seen_step (calls "query")) (query_data srv self) made false.
Proof. unfold query_data. wp_auto seen_simp; seen_done. Qed.

Lemma vector_search_calls_vector_search self :
  wp (seen_step (calls "vector_search")) (vector_search srv fuel self) made false.
Proof. unfold vector_search. wp_auto seen_simp; seen_done. Qed.

Lemma bm25_search_calls_bm25_search self :
  wp (seen_step (calls "bm25_search")) (bm25_search srv self) made false.
Proof. unfold bm25_search. wp_auto seen_simp; seen_done. Qed.

Lemma hybrid_search_calls_hybrid_search self :
  wp (seen_step (calls "hybrid_search")) (hybrid_search srv self) made false.
Proof. unfold hybrid_search. wp_auto seen_simp; seen_done. Qed.

Lemma update_data_calls_update self :
  wp (seen_step (calls "update")) (update_data srv self) made false.
Proof. unfold update_data. wp_auto seen_simp; seen_done. Qed.

Lemma delete_data_calls_delete self :
  wp (seen_step (calls "delete")) (delete_data srv self) made false.
Proof. unfold delete_data. wp_auto seen_simp; seen_done. Qed.

Lemma delete_and_drop_calls_drop_table self :
  wp (seen_step (calls "drop_table")) (delete_and_drop srv self) made false.
Proof. unfold delete_and_drop. wp_auto seen_simp; seen_done. Qed.

Lemma delete_and_drop_calls_drop_database self :
  wp (seen_step (calls "drop_database")) (delete_and_drop srv self) made false.
Proof. unfold delete_and_drop. wp_auto seen_simp; seen_done. Qed.

Lemma search_iterator_calls_search_iterator self :
  wp (seen_step (calls "search_iterator")) (search_iterator srv fuel self) made false.
Proof. unfold search_iterator. wp_auto seen_simp; seen_done. Qed.

Lemma vector_search_searches_TopkSearch self :
  wp (seen_step (searches TopkSearch)) (vector_search srv fuel self) made false.
Proof. unfold vector_search. wp_auto seen_simp; seen_done. Qed.

Lemma vector_search_searches_RangeSearch self :
  wp (seen_step (searches RangeSearch)) (vector_search srv fuel self) made false.
Proof. unfold vector_search. wp_auto seen_simp; seen_done. Qed.

Lemma vector_search_searches_BatchSearch self :
  wp (seen_step (searches BatchSearch)) (vector_search srv fuel self) made false.
Proof. unfold vector_search. wp_auto seen_simp; seen_done. Qed.

Lemma vector_search_searches_MultiVectorSearch self :
  wp (seen_step (searches MultiVectorSearch)) (vector_search srv fuel self) made false.
Proof. unfold vector_search. wp_auto seen_simp; seen_done. Qed.

Lemma bm25_search_searches_BM25Search self :
  wp (seen_step (searches BM25Search)) (bm25_search srv self) made false.
Proof. unfold bm25_search. wp_auto seen_simp; seen_done. Qed.

Lemma hybrid_search_searches_HybridSearch self :
  wp (seen_step (searches HybridSearch)) (hybrid_search srv self) made false.
Proof. unfold hybrid_search. wp_auto seen_simp; seen_done. Qed.

End Issued.

(** ** Search iterators (C4) *)

Lemma iterator_eqb_refl it : iterator_eqb it it = true.
Proof. apply Z.eqb_refl. Qed.

Ltac iter_simp :=
  cbn [iter_step opens uses_iterator is_next is_empty_batch is_close
       is_rows_log call_failed];
  rewrite ?iterator_eqb_refl;
  cbn [iter_step opens uses_iterator is_next is_empty_batch is_close
       is_rows_log call_failed].

Ltac iter_done :=
  cbn [iter_final ends_ok]; first [ exact I | reflexivity ].

Lemma iter_step_opens s e s' it :
  iter_step s e = Some s' -> opens e = Some it ->
  s = NoIterator /\ s' = Iterating it.
Proof.
  intros Hstep Ho.
  destruct e as [R c r|n|t a]; try discriminate Ho.
  destruct c; try discriminate Ho.
  destruct s; simpl in Hstep; try discriminate Hstep.
  simpl in Ho. destruct r as [err|v]; [discriminate Ho|].
  injection Ho as ->. injection Hstep as <-. auto.
Qed.

Lemma is_empty_batch_is_next it e :
  is_empty_batch it e = true -> is_next it e = true.
Proof.
  destruct e as [R c r|n|t a]; try discriminate.
  destruct c; try discriminate. simpl.
  destruct r as [err|[|row rows]]; try discriminate. auto.
Qed.

Lemma is_empty_batch_not_log it e :
  is_empty_batch it e = true -> is_rows_log e = false.
Proof. destruct e; [reflexivity | discriminate | discriminate]. Qed.

Lemma mon_run_Broken ev s' : mon_run iter_step Broken ev = Some s' -> ev = [].
Proof. destruct ev; [reflexivity | discriminate]. Qed.

(** With no empty batch yet, an open iterator lets only [next] and the
    log of the batch through, and stays open. *)
Lemma iter_monitor_fetching it mid :
  (forall p, In p mid -> is_empty_batch it p = false) ->
  forall s s',
    s = Iterating it \/ s = Fetched it ->
    mon_run iter_step s mid = Some s' ->
    Forall (fun e => is_next it e || is_rows_log e = true) mid /\
    (s' = Iterating it \/ s' = Fetched it \/ s' = Broken).
Proof.
  induction mid as [|e mid IH]; intros Hno s s' Hs Hrun.
  - simpl in Hrun. injection Hrun as <-. split; [constructor|].
    destruct Hs; auto.
  - assert (Hno' : forall p, In p mid -> is_empty_batch it p = false)
      by (intros p Hp; apply Hno; right; exact Hp).
    assert (He : is_empty_batch it e = false) by (apply Hno; left; reflexivity).
    simpl in Hrun. destruct Hs as [-> | ->]; simpl in Hrun.
    + destruct (is_next it e) eqn:Hn; [|discriminate]. rewrite He in Hrun.
      destruct (call_failed e).
      * pose proof (mon_run_Broken _ _ Hrun) as E. subst mid.
        simpl in Hrun. injection Hrun as <-.
        split; [|auto]. constructor; [|constructor]. rewrite Hn. reflexivity.
      * destruct (IH Hno' (Fetched it) s') as [HF Hs']; auto.
        split; [|exact Hs']. constructor; [|exact HF]. rewrite Hn. reflexivity.
    + destruct (is_rows_log e) eqn:Hl; [|discriminate].
      destruct (IH Hno' (Iterating it) s') as [HF Hs']; auto.
      split; [|exact Hs']. constructor; [|exact HF].
      rewrite Hl. apply orb_true_r.
Qed.

(** An iterator is given up only after an empty batch and a [close]. *)
Lemma iter_monitor_closing it rest :
  forall s,
    mon_run iter_step s rest = Some NoIterator ->
    (s = Iterating it \/ s = Fetched it ->
     exists e c, In e rest /\ is_empty_batch it e = true /\
                 In c rest /\ is_close it c = true) /\
    (s = Drained it -> exists c, In c rest /\ is_close it c = true).
Proof.
  induction rest as [|e rest IH]; intros s Hrun.
  - simpl in Hrun. injection Hrun as ->.
    split; [intros [H|H]; discriminate H | intros H; discriminate H].
  - simpl in Hrun. split.
    + intros [-> | ->]; simpl in Hrun.
      * destruct (is_next it e) eqn:Hn; [|discriminate].
        destruct (is_empty_batch it e) eqn:He.
        -- destruct (proj2 (IH _ Hrun) eq_refl) as (c & Hc & Hcl).
           exists e, c. repeat split; auto; try (left; reflexivity); right; exact Hc.
        -- destruct (call_failed e).
           ++ pose proof (mon_run_Broken _ _ Hrun) as E. subst rest.
              discriminate Hrun.
           ++ destruct (proj1 (IH _ Hrun)) as (e' & c & He' & Hem & Hc & Hcl); auto.
              exists e', c. repeat split; auto; right; assumption.
      * destruct (is_rows_log e); [|discriminate].
        destruct (proj1 (IH _ Hrun)) as (e' & c & He' & Hem & Hc & Hcl); auto.
        exists e', c. repeat split; auto; right; assumption.
    + intros ->. simpl in Hrun.
      destruct (is_close it e) eqn:Hcl; [|discriminate].
      exists e. split; [left; reflexivity | exact Hcl].
Qed.

(** What the iterator monitor accepts consumes its iterators. *)
Lemma iter_monitor_sound (out : Res unit * list Event) s' :
  mon_run iter_step NoIterator (snd out) = Some s' ->
  iter_final (fst out) s' ->
  iterators_consumed out.
Proof.
  intros Hrun Hfin. split; [|split].
  - intros pre opn mid post it Hev Ho Hno. rewrite Hev in Hrun.
    apply mon_run_split in Hrun. destruct Hrun as (s1 & s2 & _ & Hstep & Hrest).
    destruct (iter_step_opens _ _ _ _ Hstep Ho) as [_ ->].
    rewrite mon_run_app in Hrest.
    destruct (mon_run iter_step (Iterating it) mid) as [s3|] eqn:Hmid;
      [|discriminate].
    destruct (iter_monitor_fetching it mid Hno (Iterating it) s3) as [HF _]; auto.
  - intros pre opn mid e post it Hev Ho Hno He. rewrite Hev in Hrun.
    apply mon_run_split in Hrun. destruct Hrun as (s1 & s2 & _ & Hstep & Hrest).
    destruct (iter_step_opens _ _ _ _ Hstep Ho) as [_ ->].
    apply mon_run_split in Hrest.
    destruct Hrest as (s3 & s4 & Hmid & Hstep' & Hpost).
    destruct (iter_monitor_fetching it mid Hno (Iterating it) s3) as [_ Hs3]; auto.
    assert (s4 = Drained it) as ->.
    { destruct Hs3 as [-> | [-> | ->]]; simpl in Hstep'.
      - rewrite (is_empty_batch_is_next _ _ He), He in Hstep'. congruence.
      - rewrite (is_empty_batch_not_log _ _ He) in Hstep'. discriminate.
      - discriminate. }
    destruct post as [|c post'].
    + simpl in Hpost. injection Hpost as <-. contradiction.
    + simpl in Hpost. destruct (is_close it c) eqn:Hcl; [|discriminate].
      eauto.
  - intros Hok pre opn rest it Hev Ho. rewrite Hev in Hrun.
    apply mon_run_split in Hrun. destruct Hrun as (s1 & s2 & _ & Hstep & Hrest).
    destruct (iter_step_opens _ _ _ _ Hstep Ho) as [_ ->].
    assert (s' = NoIterator) as ->.
    { destruct s'; simpl in Hfin; try contradiction; congruence. }
    apply (iter_monitor_closing it) in Hrest. apply Hrest. auto.
Qed.

Section Iterators.

Variable srv : Server.
Variable fuel : nat.

Lemma iterators_of_steps :
  Forall (fun m => forall self, wp iter_step (m self) iter_final NoIterator)
         (demo_steps srv fuel).
Proof.
  unfold demo_steps.
  repeat (apply Forall_cons; [intros self|]); [..|apply Forall_nil].
  - unfold clear. wp_auto iter_simp; iter_done.
  - unfold create_db_and_table. wp_auto iter_simp; iter_done.
  - unfold upsert_data. wp_auto iter_simp; iter_done.
  - unfold select_data. wp_auto iter_simp; iter_done.
  - unfold change_table_schema. wp_auto iter_simp; iter_done.
  - unfold show_table_stats. wp_auto iter_simp; iter_done.
  - unfold query_data. wp_auto iter_simp; iter_done.
  - unfold batch_query_data. wp_auto iter_simp; iter_done.
  - unfold vector_search. wp_auto iter_simp; iter_done.
  - unfold search_iterator. wp_auto iter_simp; iter_done.
  - unfold bm25_search. wp_auto iter_simp; iter_done.
  - unfold hybrid_search. wp_auto iter_simp; iter_done.
  - unfold update_data. wp_auto iter_simp; iter_done.
  - unfold delete_data. wp_auto iter_simp; iter_done.
  - unfold drop_and_create_vindex. wp_auto iter_simp; iter_done.
  - unfold binary_vector_usage_example. wp_auto iter_simp; iter_done.
  - unfold sparse_vector_usage_example. wp_auto iter_simp; iter_done.
  - unfold delete_and_drop. wp_auto iter_simp; iter_done.
Qed.

Lemma iterators_of_main :
  wp iter_step (main srv fuel) iter_final NoIterator.
Proof.
  apply wp_main with (Inv := fun s => s = NoIterator);
    [intros s ->; exact I | | reflexivity].
  generalize iterators_of_steps. apply Forall_impl. intros m Hm self s ->.
  eapply wp_mono; [|apply Hm].
  intros [[]|e|] [ | | | | ] H; cbn [pass iter_final ends_ok] in *;
    auto; try discriminate H; try contradiction H.
Qed.

End Iterators.

Section Demonstration.

Variable srv : Server.
Variable fuel : nat.

(** C4: the script issues each search mode of the list (top-k, range,
    batch and multi-vector through [table.vector_search], BM25 through
    [table.bm25_search], hybrid through [table.hybrid_search]) and
    drives a search iterator: a run of the step that returns has issued
    the searches of that step, a run of [main] that returns has issued
    all six and opened an iterator, and in every run an iterator is
    fetched with [next] until a batch is empty and is then closed. *)
Theorem search_modes_are_issued :
  (forall self h ev,
     vector_search srv fuel self h = (Ok tt, ev) ->
     Forall (fun mode => exists e, In e ev /\ searches mode e = true)
            [TopkSearch; RangeSearch; BatchSearch; MultiVectorSearch]) /\
  (forall self h ev,
     bm25_search srv self h = (Ok tt, ev) ->
     exists e, In e ev /\ searches BM25Search e = true) /\
  (forall self h ev,
     hybrid_search srv self h = (Ok tt, ev) ->
     exists e, In e ev /\ searches HybridSearch e = true) /\
  (forall self h ev,
     search_iterator srv fuel self h = (Ok tt, ev) ->
     exists e, In e ev /\ calls "search_iterator" e = true) /\
  (forall self h, iterators_consumed (search_iterator srv fuel self h)) /\
  (forall h, iterators_consumed (main srv fuel h)) /\
  (forall h ev,
     main srv fuel h = (Ok tt, ev) ->
     (forall mode, exists e, In e ev /\ searches mode e = true) /\
     (exists e, In e ev /\ calls "search_iterator" e = true)).
Proof.
  split.
  {
    intros self h ev H.
    repeat (apply Forall_cons; [|try apply Forall_nil]);
      eapply issued_of_wp; try exact H.
    + apply vector_search_searches_TopkSearch.
    + apply vector_search_searches_RangeSearch.
    + apply vector_search_searches_BatchSearch.
    + apply vector_search_searches_MultiVectorSearch.
  }
  split.
  {
    intros self h ev H. eapply issued_of_wp; [|exact H].
    apply bm25_search_searches_BM25Search.
  }
  split.
  {
    intros self h ev H. eapply issued_of_wp; [|exact H].
    apply hybrid_search_searches_HybridSearch.
  }
  split.
  {
    intros self h ev H. eapply issued_of_wp; [|exact H].
    apply search_iterator_calls_search_iterator.
  }
  split.
  {
    intros self h.
    pose proof (iterators_of_steps srv fuel) as Hs. unfold demo_steps in Hs.
    rewrite Forall_forall in Hs.
    assert (Hw : wp iter_step (search_iterator srv fuel self) iter_final NoIterator).
    { apply (Hs (search_iterator srv fuel)). simpl. auto 20. }
    destruct (wp_run h Hw) as (s' & Hrun & Hfin).
    eapply iter_monitor_sound; eassumption.
  }
  split.
  {
    intros h.
    destruct (wp_run h (iterators_of_main srv fuel)) as (s' & Hrun & Hfin).
    eapply iter_monitor_sound; eassumption.
  }
  intros h ev H. split.
  - intros mode. destruct mode.
    + eapply (main_issues srv fuel _ (vector_search srv fuel)); [simpl; auto 20| |exact H].
      apply vector_search_searches_TopkSearch.
    + eapply (main_issues srv fuel _ (vector_search srv fuel)); [simpl; auto 20| |exact H].
      apply vector_search_searches_RangeSearch.
    + eapply (main_issues srv fuel _ (vector_search srv fuel)); [simpl; auto 20| |exact H].
      apply vector_search_searches_BatchSearch.
    + eapply (main_issues srv fuel _ (vector_search srv fuel)); [simpl; auto 20| |exact H].
      apply vector_search_searches_MultiVectorSearch.
    + eapply (main_issues srv fuel _ (bm25_search srv)); [simpl; auto 20| |exact H].
      apply bm25_search_searches_BM25Search.
    + eapply (main_issues srv fuel _ (hybrid_search srv)); [simpl; auto 20| |exact H].
      apply hybrid_search_searches_HybridSearch.
  - eapply (main_issues srv fuel _ (search_iterator srv fuel)); [simpl; auto 20| |exact H].
    apply search_iterator_calls_search_iterator.
Qed.

(** C6: [main] runs its steps one after the other in the order clear,
    create_db_and_table, upsert_data, select_data, change_table_schema,
    show_table_stats, query_data, batch_query_data, vector_search,
    search_iterator, bm25_search, hybrid_search, update_data,
    delete_data, drop_and_create_vindex, binary_vector_usage_example,
    sparse_vector_usage_example, delete_and_drop, a step starting from
    the history the steps before it left; and a run that returns has
    called each of create_database, create_table, upsert, query,
    vector_search, bm25_search, hybrid_search, update, delete,
    drop_table and drop_database. *)
Theorem main_runs_the_steps_in_order :
  (forall h,
     main srv fuel h =
     run_steps (map (fun m => m main_test_vdb) (demo_steps srv fuel)) h) /\
  (forall h ev,
     main srv fuel h = (Ok tt, ev) ->
     (exists evs,
        steps_ran (map (fun m => m main_test_vdb) (demo_steps srv fuel)) h evs /\
        ev = List.concat evs) /\
     Forall (fun name => exists e, In e ev /\ calls name e = true)
            demonstrated_methods).
Proof.
  split; [apply main_run_steps|]. intros h ev H. split.
  - apply run_steps_ran. rewrite <- main_run_steps. exact H.
  - unfold demonstrated_methods.
    repeat (apply Forall_cons; [|try apply Forall_nil]).
    + eapply (main_issues srv fuel _ (create_db_and_table srv fuel)); [simpl; auto 20| |exact H].
      apply create_db_and_table_calls_create_database.
    + eapply (main_issues srv fuel _ (create_db_and_table srv fuel)); [simpl; auto 20| |exact H].
      apply create_db_and_table_calls_create_table.
    + eapply (main_issues srv fuel _ (upsert_data srv)); [simpl; auto 20| |exact H].
      apply upsert_data_calls_upsert.
    + eapply (main_issues srv fuel _ (query_data srv)); [simpl; auto 20| |exact H].
      apply query_data_calls_query.
    + eapply (main_issues srv fuel _ (vector_search srv fuel)); [simpl; auto 20| |exact H].
      apply vector_search_calls_vector_search.
    + eapply (main_issues srv fuel _ (bm25_search srv)); [simpl; auto 20| |exact H].
      apply bm25_search_calls_bm25_search.
    + eapply (main_issues srv fuel _ (hybrid_search srv)); [simpl; auto 20| |exact H].
      apply hybrid_search_calls_hybrid_search.
    + eapply (main_issues srv fuel _ (update_data srv)); [simpl; auto 20| |exact H].
      apply update_data_calls_update.
    + eapply (main_issues srv fuel _ (delete_data srv)); [simpl; auto 20| |exact H].
      apply delete_data_calls_delete.
    + eapply (main_issues srv fuel _ (delete_and_drop srv)); [simpl; auto 20| |exact H].
      apply delete_and_drop_calls_drop_table.
    + eapply (main_issues srv fuel _ (delete_and_drop srv)); [simpl; auto 20| |exact H].
      apply delete_and_drop_calls_drop_database.
Qed.

End Demonstration.

(** * Status codes the run depends on *)

Section RecodingRules.

Variable f : ServerErrCode.t -> ServerErrCode.t.

Lemma sim_ret {A} (a : A) : sim f (ret a) (ret a).
Proof. intros h. reflexivity. Qed.

Lemma sim_raise {A} (e : Exn) : sim f (@raise A e) (raise (recode_exn f e)).
Proof. intros h. reflexivity. Qed.

Lemma sim_lift {A} (r : Res A) : recode_res f r = r -> sim f (lift r) (lift r).
Proof. intros H h. unfold lift, recode_out. cbn. rewrite H. reflexivity. Qed.

Lemma sim_sleep n : sim f (sleep n) (sleep n).
Proof. intros h. reflexivity. Qed.

Lemma sim_log t a :
  sim f (logger_debug t a) (logger_debug t (option_map (recode_printable f) a)).
Proof. intros h. reflexivity. Qed.

Lemma sim_bind {A B} (m m' : M A) (k k' : A -> M B) :
  sim f m m' -> (forall a, sim f (k a) (k' a)) ->
  sim f (bind m k) (bind m' k').
Proof.
  intros Hm Hk h. unfold bind. rewrite Hm. unfold recode_out.
  destruct (m h) as [[a|e|] ev]; cbn [fst snd recode_res]; try reflexivity.
  rewrite <- map_app, Hk. unfold recode_out.
  destruct (k a (h ++ ev)) as [r' ev']. cbn [fst snd]. rewrite map_app.
  reflexivity.
Qed.

Lemma sim_call (srv srv' : Server) {R} (c : Call R) :
  recoded f srv srv' -> sim f (call srv c) (call srv' c).
Proof.
  intros H h. unfold call. rewrite H.
  destruct (srv h R c) as [err|v]; reflexivity.
Qed.

Lemma sim_try_except {A} (m m' : M A) (handler handler' : Exn -> option (M A)) :
  sim f m m' ->
  (forall e, match handler e, handler' (recode_exn f e) with
             | Some k, Some k' => sim f k k'
             | None, None => True
             | _, _ => False
             end) ->
  sim f (try_except m handler) (try_except m' handler').
Proof.
  intros Hm Hh h. unfold try_except. rewrite Hm. unfold recode_out.
  destruct (m h) as [[a|e|] ev]; cbn [fst snd recode_res]; try reflexivity.
  specialize (Hh e).
  destruct (handler e) as [k|], (handler' (recode_exn f e)) as [k'|];
    try contradiction; [|reflexivity].
  rewrite <- map_app, Hh. unfold recode_out.
  destruct (k (h ++ ev)) as [r' ev']. cbn [fst snd]. rewrite map_app.
  reflexivity.
Qed.

Lemma sim_while {I A} fuel (body body' : I -> M (I + A)) i :
  (forall i, sim f (body i) (body' i)) ->
  sim f (while_true fuel body i) (while_true fuel body' i).
Proof.
  intros Hb. revert i. induction fuel as [|n IH]; intros i.
  - intros h. reflexivity.
  - cbn [while_true]. apply sim_bind; [apply Hb|].
    intros [i'|a]; [apply IH|apply sim_ret].
Qed.

Lemma sim_for_each {A} (l : list A) (body body' : A -> M unit) :
  (forall x, sim f (body x) (body' x)) ->
  sim f (for_each l body) (for_each l body').
Proof.
  intros Hb. induction l as [|x l IH]; cbn [for_each].
  - apply sim_ret.
  - apply sim_bind; [apply Hb|]. intros _. exact IH.
Qed.

Lemma sim_map_M {A B} (g g' : A -> M B) (l : list A) :
  (forall x, sim f (g x) (g' x)) ->
  sim f (map_M g l) (map_M g' l).
Proof.
  intros Hg. induction l as [|x l IH]; cbn [map_M].
  - apply sim_ret.
  - apply sim_bind; [apply Hg|]. intros y.
    apply sim_bind; [exact IH|]. intros ys. apply sim_ret.
Qed.

Lemma sim_read_local {A} name (v : option A) :
  sim f (read_local name v) (read_local name v).
Proof. destruct v; intros h; reflexivity. Qed.

Lemma recode_ints_of_chars s :
  recode_res f (Py.ints_of_chars s) = Py.ints_of_chars s.
Proof.
  induction s as [|c s IH]; cbn [Py.ints_of_chars]; [reflexivity|].
  unfold Py.int_of_char. cbv zeta.
  destruct (_ && _); [|reflexivity].
  destruct (Py.ints_of_chars s) as [ds|e|]; [reflexivity|exact IH|reflexivity].
Qed.

Lemma recode_num_to_binary_list num dimension :
  recode_res f (num_to_binary_list num dimension) = num_to_binary_list num dimension.
Proof.
  unfold num_to_binary_list. cbv zeta.
  pose proof (recode_ints_of_chars (Py.str_from 2 (Py.bin num))) as H.
  destruct (Py.ints_of_chars _) as [l|e|]; [|exact H|reflexivity].
  destruct (_ =? _); reflexivity.
Qed.

End RecodingRules.

Ltac sim_handler Hf :=
  let e := fresh "e" in
  intros e; destruct e as [[?|? ?|? ?]| | | |];
  cbn [except_ServerError except_ClientError recode_exn recode_error];
  rewrite ?Hf; try exact I.

Ltac sim_step Hf :=
  lazymatch goal with
  | |- sim _ (bind _ _) (bind _ _) => apply sim_bind; [|intros ?]
  | |- sim _ (call _ _) (call _ _) => apply sim_call; assumption
  | |- sim _ (ret _) (ret _) => apply sim_ret
  | |- sim _ (raise _) (raise _) => apply sim_raise
  | |- sim _ (sleep _) _ => apply sim_sleep
  | |- sim _ (logger_debug _ _) _ => apply sim_log
  | |- sim _ (lift _) _ => apply sim_lift; apply recode_num_to_binary_list
  | |- sim _ (read_local _ _) _ => apply sim_read_local
  | |- sim _ (while_true _ _ _) _ => apply sim_while; intros ?
  | |- sim _ (for_each _ _) _ => apply sim_for_each; intros ?
  | |- sim _ (map_M _ _) _ => apply sim_map_M; intros ?
  | |- sim _ (try_except _ _) _ => apply sim_try_except; [|sim_handler Hf]
  | |- sim _ (if ?b then _ else _) _ => destruct b
  | |- sim _ (match ?x with _ => _ end) _ => destruct x
  | |- sim _ _ (if ?b then _ else _) => destruct b
  end.

Ltac sim_auto Hf := cbv zeta; repeat (sim_step Hf).

Section RecodedScript.

Variable f : ServerErrCode.t -> ServerErrCode.t.
Hypothesis Hf : keeps_index_not_exist f.

Variables srv srv' : Server.
Hypothesis Hsrv : recoded f srv srv'.

Variable fuel : nat.

Lemma recoded_steps :
  Forall2 (fun m m' => forall self, sim f (m self) (m' self))
          (demo_steps srv fuel) (demo_steps srv' fuel).
Proof.
  unfold keeps_index_not_exist in Hf.
  repeat constructor; intros self.
  - unfold clear. sim_auto Hf.
  - unfold create_db_and_table. sim_auto Hf.
  - unfold upsert_data. sim_auto Hf.
  - unfold select_data. sim_auto Hf.
  - unfold change_table_schema. sim_auto Hf.
  - unfold show_table_stats. sim_auto Hf.
  - unfold query_data. sim_auto Hf.
  - unfold batch_query_data. sim_auto Hf.
  - unfold vector_search. sim_auto Hf.
  - unfold search_iterator. sim_auto Hf.
  - unfold bm25_search. sim_auto Hf.
  - unfold hybrid_search. sim_auto Hf.
  - unfold update_data. sim_auto Hf.
  - unfold delete_data. sim_auto Hf.
  - unfold drop_and_create_vindex. sim_auto Hf.
  - unfold binary_vector_usage_example. sim_auto Hf.
  - unfold sparse_vector_usage_example. sim_auto Hf.
  - unfold delete_and_drop. sim_auto Hf.
Qed.

End RecodedScript.

Lemma sim_run_steps f (ms ms' : list (M unit)) :
  Forall2 (sim f) ms ms' -> sim f (run_steps ms) (run_steps ms').
Proof.
  induction 1 as [|m m' ms ms' Hm _ IH]; cbn [run_steps].
  - apply sim_ret.
  - apply sim_bind; [exact Hm|]. intros _. exact IH.
Qed.

Lemma main_recoded f srv srv' fuel :
  keeps_index_not_exist f -> recoded f srv srv' ->
  sim f (main srv fuel) (main srv' fuel).
Proof.
  intros Hf Hsrv h. rewrite !main_run_steps. apply sim_run_steps.
  pose proof (recoded_steps f Hf srv srv' Hsrv fuel) as H.
  induction H as [|m m' ms ms' Hm _ IH]; cbn [map]; constructor.
  - apply Hm.
  - exact IH.
Qed.

(** ** The simulated services under recoding *)

Lemma is_trigger_recode f e : is_trigger (recode_event f e) = is_trigger e.
Proof. destruct e as [R c r| |]; [destruct c|..]; reflexivity. Qed.

Lemma is_poll_recode f e : is_poll (recode_event f e) = is_poll e.
Proof. destruct e as [R c r| |]; [destruct c|..]; reflexivity. Qed.

Lemma polls_since_trigger_recode f h n :
  polls_since_trigger (map (recode_event f) h) n = polls_since_trigger h n.
Proof.
  revert n. induction h as [|e h IH]; intros n; cbn [map polls_since_trigger].
  - reflexivity.
  - rewrite is_trigger_recode, is_poll_recode, !IH. reflexivity.
Qed.

Lemma database_exists_recode f name h now :
  database_exists name (map (recode_event f) h) now = database_exists name h now.
Proof.
  revert now. induction h as [|e h IH]; intros now; [reflexivity|].
  destruct e as [R c r| |]; cbn [map recode_event database_exists];
    [|apply IH..].
  destruct c; try apply IH; destruct r as [err|v];
    cbn [recode_answer database_exists]; apply IH.
Qed.

Lemma index_dropped_recode f h now :
  index_dropped (map (recode_event f) h) now = index_dropped h now.
Proof.
  revert now. induction h as [|e h IH]; intros now; [reflexivity|].
  destruct e as [R c r| |]; cbn [map recode_event index_dropped];
    [|apply IH..].
  destruct c; try apply IH; destruct r as [err|v];
    cbn [recode_answer index_dropped]; apply IH.
Qed.

Lemma keeps_INDEX_NOT_EXIST f :
  keeps_index_not_exist f ->
  f ServerErrCode.INDEX_NOT_EXIST = ServerErrCode.INDEX_NOT_EXIST.
Proof.
  intros Hf. specialize (Hf ServerErrCode.INDEX_NOT_EXIST).
  destruct (f ServerErrCode.INDEX_NOT_EXIST); [discriminate Hf|reflexivity|
    discriminate Hf].
Qed.

Lemma forget_codes_keeps : keeps_index_not_exist forget_codes.
Proof. intros [| |n]; reflexivity. Qed.

Lemma demo_server_recoded f :
  keeps_index_not_exist f -> recoded f demo_server demo_server.
Proof.
  intros Hf h R c. apply keeps_INDEX_NOT_EXIST in Hf.
  destruct c; cbn [demo_server];
    rewrite ?polls_since_trigger_recode, ?database_exists_recode,
            ?index_dropped_recode;
    unfold Py.len; rewrite ?length_map;
    repeat match goal with
           | |- context [if ?b then _ else _] => destruct b
           end;
    cbn [recode_answer recode_error]; rewrite ?Hf; reflexivity.
Qed.

Lemma stale_server_recoded f failure :
  keeps_index_not_exist f ->
  recoded f (stale_server failure) (stale_server (recode_error f failure)).
Proof.
  intros Hf h R c. unfold stale_server.
  pose proof (demo_server_recoded f Hf h R c) as H.
  destruct c; try exact H; reflexivity.
Qed.

(** ** The index type (C5, C10) *)

Lemma guard_run F G ev : forall s s',
  mon_run (guard_step F G) s ev = Some s' ->
  Forall (fun e => F e = false) ev /\ s' = s || existsb G ev.
Proof.
  induction ev as [|e ev IH]; intros s s' H; simpl in H.
  - injection H as <-. split; [constructor | rewrite orb_false_r; reflexivity].
  - unfold guard_step in H at 1. destruct (F e) eqn:HF; [discriminate|].
    destruct (IH _ _ H) as [HFa ->].
    split; [constructor; assumption | simpl; rewrite orb_assoc; reflexivity].
Qed.

Lemma unsupported_eqb t :
  supported t = false ->
  IndexType.eqb t IndexType.HNSW = false /\
  IndexType.eqb t IndexType.HNSWPQ = false /\
  IndexType.eqb t IndexType.PUCK = false.
Proof. destruct t; simpl; intros H; try discriminate H; auto. Qed.

Lemma guard_step_eq F G s e :
  guard_step F G s e = if F e then None else Some (s || G e).
Proof. reflexivity. Qed.

Ltac guard_simp :=
  rewrite ?guard_step_eq;
  cbn [never calls method_name call_failed index_gone
       reports_normal defines_one_vector_index defines_other_indexes
       vector_indexes_of one_vector_index schema_indexes filter app
       is_vector_index IndexType.eqb negb];
  repeat match goal with
         | |- context [String.eqb ?a ?b] =>
             let v := eval vm_compute in (String.eqb a b) in
             change (String.eqb a b) with v
         end;
  cbn [orb andb negb].

Ltac by_index_type self :=
  destruct self as [client t]; cbn [_vector_index_type _client] in *;
  destruct t; try discriminate;
  cbn [IndexType.eqb is_HNSW_or_HNSWPQ is_PUCK _vector_index_type orb].

(** Where a run with an index type that is not supported may stop. *)
Definition refused (r : Res unit) (flagged : bool) : Prop :=
  if flagged then raised_by_sdk r else r = Raise not_support_index_type.

Definition refused_after_wait (r : Res unit) (gone : bool) : Prop :=
  if gone then r = Raise not_support_index_type
  else r = Diverge \/ raised_by_sdk r.

(** Where a run with a supported index type may stop: not on an
    exception of the script's own, and when it returns, after the call
    that was looked for. *)
Definition went_through (r : Res unit) (flagged : bool) : Prop :=
  raised_by_script r = false /\ (ends_ok r = true -> flagged = true).

Definition unbound_after_wait (r : Res unit) (normal : bool) : Prop :=
  if normal then r = Raise (UnboundLocalError "request")
  else r = Diverge \/ raised_by_sdk r.

Definition unbound (r : Res unit) (failed : bool) : Prop :=
  if failed then raised_by_sdk r
  else r = Raise (UnboundLocalError "config").

Definition no_NameError (r : Res unit) (s : bool) : Prop :=
  match r with
  | Raise e => is_NameError e = false
  | _ => True
  end.

Ltac through_done :=
  cbn [raised_by_script ends_ok is_NameError];
  first [ exact I | reflexivity
        | split; [reflexivity | first [ intros _; reflexivity
                                      | (let Hx := fresh in intros Hx; discriminate Hx) ]] ].

Ltac guard_done :=
  cbn [orb];
  first [ reflexivity | exact I
        | eexists; reflexivity
        | left; reflexivity
        | right; eexists; reflexivity ].

Section IndexType.

Variable srv : Server.
Variable fuel : nat.

Lemma create_db_and_table_refuses self :
  supported self.(_vector_index_type) = false ->
  wp (guard_step (calls "create_table") call_failed)
     (create_db_and_table srv fuel self) refused false.
Proof.
  intros H. unfold create_db_and_table, refused, raised_by_sdk. by_index_type self;
    wp_auto guard_simp; guard_done.
Qed.

Lemma drop_and_create_vindex_refuses self :
  supported self.(_vector_index_type) = false ->
  wp (guard_step (calls "create_indexes") index_gone)
     (drop_and_create_vindex srv fuel self) refused_after_wait false.
Proof.
  intros H. unfold drop_and_create_vindex, refused_after_wait, raised_by_sdk.
  by_index_type self; wp_auto guard_simp; guard_done.
Qed.

Lemma create_db_and_table_defines self :
  supported self.(_vector_index_type) = true ->
  wp (guard_step (defines_other_indexes self.(_vector_index_type))
                 (defines_one_vector_index self.(_vector_index_type)))
     (create_db_and_table srv fuel self) went_through false.
Proof.
  intros H. unfold create_db_and_table, went_through.
  by_index_type self; wp_auto guard_simp; through_done.
Qed.

Lemma drop_and_create_vindex_defines self :
  supported self.(_vector_index_type) = true ->
  wp (guard_step (defines_other_indexes self.(_vector_index_type))
                 (defines_one_vector_index self.(_vector_index_type)))
     (drop_and_create_vindex srv fuel self) went_through false.
Proof.
  intros H. unfold drop_and_create_vindex, went_through.
  by_index_type self; wp_auto guard_simp; through_done.
Qed.

Lemma vector_search_unbound self :
  supported self.(_vector_index_type) = false ->
  wp (guard_step (calls "vector_search") (reports_normal AwaitIndex))
     (vector_search srv fuel self) unbound_after_wait false.
Proof.
  intros H. unfold vector_search, unbound_after_wait, raised_by_sdk.
  by_index_type self; wp_auto guard_simp; guard_done.
Qed.

Lemma hybrid_search_unbound self :
  supported self.(_vector_index_type) = false ->
  wp (guard_step (calls "hybrid_search") call_failed)
     (hybrid_search srv self) unbound false.
Proof.
  intros H. unfold hybrid_search, unbound, raised_by_sdk.
  by_index_type self; wp_auto guard_simp; guard_done.
Qed.

Lemma vector_search_bound self :
  supported self.(_vector_index_type) = true ->
  wp (guard_step never never) (vector_search srv fuel self) no_NameError false.
Proof.
  intros H. unfold vector_search, no_NameError.
  by_index_type self; wp_auto guard_simp; through_done.
Qed.

Lemma hybrid_search_bound self :
  supported self.(_vector_index_type) = true ->
  wp (guard_step never never) (hybrid_search srv self) no_NameError false.
Proof.
  intros H. unfold hybrid_search, no_NameError.
  by_index_type self; wp_auto guard_simp; through_done.
Qed.

(** C5: with an index type other than HNSW, HNSWPQ and PUCK,
    [create_db_and_table] never calls [create_table] and, unless an SDK
    call before that point fails, raises Exception("not support index
    type"); [drop_and_create_vindex] never calls [create_indexes] and
    raises the same exception once the wait for the dropped index is
    over. With one of the three types, each call that defines indexes is
    given exactly one vector index, of that type, on the field 'vector',
    with the L2 metric, no exception of the script's own is raised, and
    a run that returns has made that call. *)
Theorem index_type_is_checked self :
  (supported self.(_vector_index_type) = false ->
   forall h,
     (let out := create_db_and_table srv fuel self h in
      Forall (fun e => calls "create_table" e = false) (snd out) /\
      (existsb call_failed (snd out) = false ->
       fst out = Raise not_support_index_type) /\
      (existsb call_failed (snd out) = true -> raised_by_sdk (fst out))) /\
     (let out := drop_and_create_vindex srv fuel self h in
      Forall (fun e => calls "create_indexes" e = false) (snd out) /\
      (existsb index_gone (snd out) = true ->
       fst out = Raise not_support_index_type) /\
      (existsb index_gone (snd out) = false ->
       fst out = Diverge \/ raised_by_sdk (fst out)))) /\
  (supported self.(_vector_index_type) = true ->
   forall h,
     (let out := create_db_and_table srv fuel self h in
      Forall (fun e => defines_other_indexes self.(_vector_index_type) e = false)
             (snd out) /\
      raised_by_script (fst out) = false /\
      (ends_ok (fst out) = true ->
       exists e, In e (snd out) /\
         defines_one_vector_index self.(_vector_index_type) e = true)) /\
     (let out := drop_and_create_vindex srv fuel self h in
      Forall (fun e => defines_other_indexes self.(_vector_index_type) e = false)
             (snd out) /\
      raised_by_script (fst out) = false /\
      (ends_ok (fst out) = true ->
       exists e, In e (snd out) /\
         defines_one_vector_index self.(_vector_index_type) e = true))).
Proof.
  split; intros Hs h; cbv zeta; split.
  - destruct (wp_run h (create_db_and_table_refuses self Hs)) as (s' & Hrun & HQ).
    apply guard_run in Hrun. destruct Hrun as [HF ->]. simpl orb in HQ.
    unfold refused in HQ. split; [exact HF|].
    split; intros E; rewrite E in HQ; exact HQ.
  - destruct (wp_run h (drop_and_create_vindex_refuses self Hs)) as (s' & Hrun & HQ).
    apply guard_run in Hrun. destruct Hrun as [HF ->]. simpl orb in HQ.
    unfold refused_after_wait in HQ. split; [exact HF|].
    split; intros E; rewrite E in HQ; exact HQ.
  - destruct (wp_run h (create_db_and_table_defines self Hs)) as (s' & Hrun & HQ).
    apply guard_run in Hrun. destruct Hrun as [HF ->]. simpl orb in HQ.
    destruct HQ as [HQ1 HQ2]. split; [exact HF|]. split; [exact HQ1|].
    intros E. apply existsb_exists. apply HQ2. exact E.
  - destruct (wp_run h (drop_and_create_vindex_defines self Hs)) as (s' & Hrun & HQ).
    apply guard_run in Hrun. destruct Hrun as [HF ->]. simpl orb in HQ.
    destruct HQ as [HQ1 HQ2]. split; [exact HF|]. split; [exact HQ1|].
    intros E. apply existsb_exists. apply HQ2. exact E.
Qed.

(** C10: with an index type other than HNSW, HNSWPQ and PUCK,
    [vector_search] issues no search and, once the index is NORMAL,
    raises UnboundLocalError (a NameError) for its local [request];
    [hybrid_search] issues no search and, unless one of its two lookups
    fails, raises UnboundLocalError for its local [config]. With one of
    the three types neither method ever raises a NameError: the local is
    assigned before each read. *)
Theorem locals_are_bound_for_supported_types self :
  (supported self.(_vector_index_type) = false ->
   forall h,
     (let out := vector_search srv fuel self h in
      Forall (fun e => calls "vector_search" e = false) (snd out) /\
      (existsb (reports_normal AwaitIndex) (snd out) = true ->
       fst out = Raise (UnboundLocalError "request")) /\
      (existsb (reports_normal AwaitIndex) (snd out) = false ->
       fst out = Diverge \/ raised_by_sdk (fst out))) /\
     (let out := hybrid_search srv self h in
      Forall (fun e => calls "hybrid_search" e = false) (snd out) /\
      (existsb call_failed (snd out) = false ->
       fst out = Raise (UnboundLocalError "config")) /\
      (existsb call_failed (snd out) = true -> raised_by_sdk (fst out)))) /\
  (supported self.(_vector_index_type) = true ->
   forall h e,
     (fst (vector_search srv fuel self h) = Raise e -> is_NameError e = false) /\
     (fst (hybrid_search srv self h) = Raise e -> is_NameError e = false)).
Proof.
  split; intros Hs h.
  - cbv zeta. split.
    + destruct (wp_run h (vector_search_unbound self Hs)) as (s' & Hrun & HQ).
      apply guard_run in Hrun. destruct Hrun as [HF ->]. simpl orb in HQ.
      unfold unbound_after_wait in HQ. split; [exact HF|].
      split; intros E; rewrite E in HQ; exact HQ.
    + destruct (wp_run h (hybrid_search_unbound self Hs)) as (s' & Hrun & HQ).
      apply guard_run in Hrun. destruct Hrun as [HF ->]. simpl orb in HQ.
      unfold unbound in HQ. split; [exact HF|].
      split; intros E; rewrite E in HQ; exact HQ.
  - intros e. split; intros E.
    + destruct (wp_run h (vector_search_bound self Hs)) as (s' & _ & HQ).
      rewrite E in HQ. exact HQ.
    + destruct (wp_run h (hybrid_search_bound self Hs)) as (s' & _ & HQ).
      rewrite E in HQ. exact HQ.
Qed.

End IndexType.

(** ** Exceptions the script catches (C7) *)

Ltac catch_simp := cbn [catch_step raises_foreign foreign].

Ltac catch_done := cbn [catch_final]; first [ exact I | reflexivity ].

Ltac drop_simp :=
  cbn [drop_step is_drop_index_ok is_sleep is_describe_index server_code
       call_failed is_code_log calls method_name];
  repeat match goal with
         | |- context [String.eqb ?a ?b] =>
             let v := eval vm_compute in (String.eqb a b) in
             change (String.eqb a b) with v
         end;
  cbn [orb].

Ltac drop_done :=
  cbn [drop_final ends_by_script ends_ok]; first [ exact I | reflexivity ].

Lemma raises_foreign_foreign {R} (c : Call R) err :
  foreign err = true -> raises_foreign (EvCall c (inl err)) = Some err.
Proof. destruct err; try discriminate. reflexivity. Qed.

Lemma mon_run_Halted err ev s' :
  mon_run catch_step (Halted err) ev = Some s' -> ev = [] /\ s' = Halted err.
Proof.
  destruct ev; simpl; [|discriminate]. intros H. injection H as <-. auto.
Qed.

(** What the catch monitor accepts lets foreign exceptions escape. *)
Lemma catch_monitor_sound (out : Res unit * list Event) s' :
  mon_run catch_step Running (snd out) = Some s' ->
  catch_final (fst out) s' ->
  foreign_errors_escape out.
Proof.
  intros Hrun Hfin pre R c err post Hev Hf. rewrite Hev in Hrun.
  apply mon_run_split in Hrun. destruct Hrun as (s1 & s2 & _ & Hstep & Hpost).
  destruct s1 as [|err0]; [|discriminate Hstep].
  cbn [catch_step] in Hstep. rewrite (raises_foreign_foreign c err Hf) in Hstep.
  injection Hstep as <-.
  apply mon_run_Halted in Hpost. destruct Hpost as [-> ->].
  split; [reflexivity | exact Hfin].
Qed.

Lemma drop_step_starts s trig s' :
  drop_step s trig = Some s' -> is_drop_index_ok trig = true ->
  s = DropIdle /\ s' = DropWait.
Proof.
  intros Hstep Ht.
  destruct trig as [R c r|n|t a]; try discriminate Ht.
  destruct c; try discriminate Ht.
  destruct r as [err|v]; [discriminate Ht|].
  destruct s; simpl in Hstep; try discriminate Hstep.
  injection Hstep as <-. auto.
Qed.

Lemma index_gone_code e code :
  is_describe_index e = true -> server_code e = Some code ->
  index_gone e = ServerErrCode.eqb code ServerErrCode.INDEX_NOT_EXIST.
Proof.
  destruct e as [R c r|n|t a]; try discriminate.
  destruct c; try discriminate. intros _.
  destruct r as [[m|code' m|cl m]|v]; simpl; try discriminate.
  intros H. injection H as ->. reflexivity.
Qed.

Lemma index_gone_describe e :
  index_gone e = true ->
  is_describe_index e = true /\
  server_code e = Some ServerErrCode.INDEX_NOT_EXIST /\
  is_sleep 2 e = false /\ is_code_log e = false.
Proof.
  destruct e as [R c r|n|t a]; try discriminate.
  destruct c; try discriminate.
  destruct r as [[m|code m|cl m]|v]; simpl; try discriminate.
  destruct code; try discriminate. auto.
Qed.

Lemma mon_run_DropDead ev s' :
  mon_run drop_step DropDead ev = Some s' -> ev = [] /\ s' = DropDead.
Proof.
  destruct ev; simpl; [|discriminate]. intros H. injection H as <-. auto.
Qed.

(** While the index is not gone the wait goes on. *)
Lemma drop_monitor_waiting mid :
  (forall p, In p mid -> index_gone p = false) ->
  forall s s',
    s = DropWait \/ s = DropSlept \/ s = DropLog false ->
    mon_run drop_step s mid = Some s' ->
    Forall (fun e => is_sleep 2 e || is_describe_index e || is_code_log e = true)
           mid /\
    (s' = DropWait \/ s' = DropSlept \/ s' = DropLog false \/ s' = DropDead).
Proof.
  induction mid as [|e mid IH]; intros Hno s s' Hs Hrun.
  - simpl in Hrun. injection Hrun as <-. split; [constructor|].
    destruct Hs as [H|[H|H]]; auto.
  - assert (Hno' : forall p, In p mid -> index_gone p = false)
      by (intros p Hp; apply Hno; right; exact Hp).
    assert (He : index_gone e = false) by (apply Hno; left; reflexivity).
    simpl in Hrun. destruct Hs as [-> | [-> | ->]]; simpl in Hrun.
    + destruct (is_sleep 2 e) eqn:H1; [|discriminate].
      destruct (IH Hno' DropSlept s' ltac:(auto) Hrun) as [HF Hs'].
      split; [|exact Hs']. constructor; [rewrite H1; reflexivity | exact HF].
    + destruct (is_describe_index e) eqn:H1; [|discriminate].
      assert (HP : is_sleep 2 e || is_describe_index e || is_code_log e = true)
        by (rewrite H1, orb_true_r; reflexivity).
      destruct (server_code e) as [code|] eqn:H2.
      * rewrite <- (index_gone_code e code H1 H2), He in Hrun.
        destruct (IH Hno' (DropLog false) s' ltac:(auto) Hrun) as [HF Hs'].
        split; [|exact Hs']. constructor; [exact HP | exact HF].
      * destruct (call_failed e).
        -- apply mon_run_DropDead in Hrun. destruct Hrun as [-> ->].
           split; [|auto 10]. constructor; [exact HP | constructor].
        -- destruct (IH Hno' DropWait s' ltac:(auto) Hrun) as [HF Hs'].
           split; [|exact Hs']. constructor; [exact HP | exact HF].
    + destruct (is_code_log e) eqn:H1; [|discriminate].
      destruct (IH Hno' DropWait s' ltac:(auto) Hrun) as [HF Hs'].
      split; [|exact Hs']. constructor; [|exact HF]. rewrite H1. apply orb_true_r.
Qed.

(** The wait is left only by the code INDEX_NOT_EXIST. *)
Lemma drop_monitor_leaving rest : forall s s',
  mon_run drop_step s rest = Some s' ->
  s' = DropIdle \/ s' = DropExited ->
  s = DropWait \/ s = DropSlept \/ s = DropLog false ->
  exists e, In e rest /\ index_gone e = true.
Proof.
  induction rest as [|e rest IH]; intros s s' Hrun Hs' Hs.
  - simpl in Hrun. injection Hrun as <-.
    destruct Hs as [-> | [-> | ->]]; destruct Hs'; discriminate.
  - assert (Hnext : forall s1, mon_run drop_step s1 rest = Some s' ->
              s1 = DropWait \/ s1 = DropSlept \/ s1 = DropLog false ->
              exists e0, In e0 (e :: rest) /\ index_gone e0 = true).
    { intros s1 H1 H2. destruct (IH _ _ H1 Hs' H2) as (e0 & Hin & Hg).
      exists e0. split; [right; exact Hin | exact Hg]. }
    simpl in Hrun. destruct Hs as [-> | [-> | ->]]; simpl in Hrun.
    + destruct (is_sleep 2 e); [|discriminate]. eapply Hnext; eauto.
    + destruct (is_describe_index e) eqn:H1; [|discriminate].
      destruct (server_code e) as [code|] eqn:H2.
      * destruct (ServerErrCode.eqb code ServerErrCode.INDEX_NOT_EXIST) eqn:Hc.
        -- exists e. split; [left; reflexivity|].
           rewrite (index_gone_code e code H1 H2). exact Hc.
        -- eapply Hnext; eauto.
      * destruct (call_failed e).
        -- apply mon_run_DropDead in Hrun. destruct Hrun as [_ ->].
           destruct Hs'; discriminate.
        -- eapply Hnext; eauto.
    + destruct (is_code_log e); [|discriminate]. eapply Hnext; eauto.
Qed.

(** What the drop monitor accepts waits by the code INDEX_NOT_EXIST. *)
Lemma drop_monitor_sound (out : Res unit * list Event) s' :
  mon_run drop_step DropIdle (snd out) = Some s' ->
  drop_final (fst out) s' ->
  drop_wait_respected out.
Proof.
  intros Hrun Hfin. split; [|split].
  - intros pre trig mid post Hev Ht Hno. rewrite Hev in Hrun.
    apply mon_run_split in Hrun. destruct Hrun as (s1 & s2 & _ & Hstep & Hrest).
    destruct (drop_step_starts _ _ _ Hstep Ht) as [_ ->].
    rewrite mon_run_app in Hrest.
    destruct (mon_run drop_step DropWait mid) as [s3|] eqn:Hmid; [|discriminate].
    destruct (drop_monitor_waiting mid Hno DropWait s3) as [HF _]; auto.
  - intros pre trig mid e post Hev Ht Hno He. rewrite Hev in Hrun.
    apply mon_run_split in Hrun. destruct Hrun as (s1 & s2 & _ & Hstep & Hrest).
    destruct (drop_step_starts _ _ _ Hstep Ht) as [_ ->].
    apply mon_run_split in Hrest.
    destruct Hrest as (s3 & s4 & Hmid & Hstep' & Hpost).
    destruct (drop_monitor_waiting mid Hno DropWait s3) as [_ Hs3]; auto.
    destruct (index_gone_describe e He) as (Hd & Hc & Hsl & Hlg).
    assert (s4 = DropLog true) as ->.
    { destruct Hs3 as [-> | [-> | [-> | ->]]]; simpl in Hstep'.
      - rewrite Hsl in Hstep'. discriminate.
      - rewrite Hd, Hc in Hstep'. injection Hstep' as <-. reflexivity.
      - rewrite Hlg in Hstep'. discriminate.
      - discriminate. }
    destruct post as [|l post'].
    + simpl in Hpost. injection Hpost as <-. contradiction.
    + simpl in Hpost. destruct (is_code_log l) eqn:Hl; [|discriminate].
      exists l, post'. split; [reflexivity|]. split; [exact Hl|].
      destruct post' as [|e' post'']; [left; reflexivity|]. right.
      simpl in Hpost.
      destruct (calls "create_indexes" e') eqn:Hc'; [|discriminate]. eauto.
  - intros Hr pre trig rest Hev Ht. rewrite Hev in Hrun.
    apply mon_run_split in Hrun. destruct Hrun as (s1 & s2 & _ & Hstep & Hrest).
    destruct (drop_step_starts _ _ _ Hstep Ht) as [_ ->].
    eapply drop_monitor_leaving; [exact Hrest | | auto].
    destruct s'; simpl in Hfin; auto; try contradiction; congruence.
Qed.

Section Catching.

Variable srv : Server.
Variable fuel : nat.

Lemma catching_of_steps :
  Forall (fun m => forall self, wp catch_step (m self) catch_final Running)
         (demo_steps srv fuel).
Proof.
  unfold demo_steps.
  repeat (apply Forall_cons; [intros self|]); [..|apply Forall_nil].
  - unfold clear. wp_auto catch_simp; catch_done.
  - unfold create_db_and_table. wp_auto catch_simp; catch_done.
  - unfold upsert_data. wp_auto catch_simp; catch_done.
  - unfold select_data. wp_auto catch_simp; catch_done.
  - unfold change_table_schema. wp_auto catch_simp; catch_done.
  - unfold show_table_stats. wp_auto catch_simp; catch_done.
  - unfold query_data. wp_auto catch_simp; catch_done.
  - unfold batch_query_data. wp_auto catch_simp; catch_done.
  - unfold vector_search. wp_auto catch_simp; catch_done.
  - unfold search_iterator. wp_auto catch_simp; catch_done.
  - unfold bm25_search. wp_auto catch_simp; catch_done.
  - unfold hybrid_search. wp_auto catch_simp; catch_done.
  - unfold update_data. wp_auto catch_simp; catch_done.
  - unfold delete_data. wp_auto catch_simp; catch_done.
  - unfold drop_and_create_vindex. wp_auto catch_simp; catch_done.
  - unfold binary_vector_usage_example. wp_auto catch_simp; catch_done.
  - unfold sparse_vector_usage_example. wp_auto catch_simp; catch_done.
  - unfold delete_and_drop. wp_auto catch_simp; catch_done.
Qed.

Lemma drop_wait_of_steps :
  Forall (fun m => forall self, wp drop_step (m self) drop_final DropIdle)
         (demo_steps srv fuel).
Proof.
  unfold demo_steps.
  repeat (apply Forall_cons; [intros self|]); [..|apply Forall_nil].
  - unfold clear. wp_auto drop_simp; drop_done.
  - unfold create_db_and_table. wp_auto drop_simp; drop_done.
  - unfold upsert_data. wp_auto drop_simp; drop_done.
  - unfold select_data. wp_auto drop_simp; drop_done.
  - unfold change_table_schema. wp_auto drop_simp; drop_done.
  - unfold show_table_stats. wp_auto drop_simp; drop_done.
  - unfold query_data. wp_auto drop_simp; drop_done.
  - unfold batch_query_data. wp_auto drop_simp; drop_done.
  - unfold vector_search. wp_auto drop_simp; drop_done.
  - unfold search_iterator. wp_auto drop_simp; drop_done.
  - unfold bm25_search. wp_auto drop_simp; drop_done.
  - unfold hybrid_search. wp_auto drop_simp; drop_done.
  - unfold update_data. wp_auto drop_simp; drop_done.
  - unfold delete_data. wp_auto drop_simp; drop_done.
  - unfold drop_and_create_vindex. wp_auto drop_simp; drop_done.
  - unfold binary_vector_usage_example. wp_auto drop_simp; drop_done.
  - unfold sparse_vector_usage_example. wp_auto drop_simp; drop_done.
  - unfold delete_and_drop. wp_auto drop_simp; drop_done.
Qed.


End Catching.

(** * Cleanup: [clear] and the setup of the usage examples *)

Ltac run_script :=
  cbv zeta;
  cbv [bind try_except call ret raise sleep logger_debug lift
       except_ClientError except_ServerError];
  cbn [app].

Ltac next_answer srv :=
  match goal with
  | |- context [srv ?h ?R ?c] => destruct (srv h R c)
  end.

Lemma clear_not_found (srv : Server) self h msg :
  srv h _ (client_database self.(_client) "book") = inl (ClientError msg) ->
  clear srv self h =
  (Ok tt, [EvCall (client_database self.(_client) "book") (inl (ClientError msg));
           EvLog "database {} not found." (Some (PStr "book"))]).
Proof.
  intros H. unfold clear. run_script. rewrite H. reflexivity.
Qed.

Lemma clear_found (srv : Server) self h db :
  srv h _ (client_database self.(_client) "book") = inr db ->
  let e1 := EvCall (client_database self.(_client) "book") (inr db) in
  let r := srv (h ++ [e1]) _ (db_drop_table db "book_segments") in
  let pre := e1 :: EvCall (db_drop_table db "book_segments") r ::
             error_log "drop table error {}" r ++ [EvSleep 10] in
  let resp := srv (h ++ pre) _ (db_drop_database db) in
  tolerated r = true ->
  clear srv self h = (outcome resp, pre ++ [EvCall (db_drop_database db) resp]).
Proof.
  intros H e1 r pre resp Hr. unfold clear. run_script. rewrite H. cbn [app].
  fold e1. fold r. subst resp pre.
  destruct r as [[m|code m|cl m]|v]; try discriminate Hr.
  - destruct (ServerErrCode.eqb code ServerErrCode.TABLE_NOT_EXIST);
      cbn [app error_log]; rewrite <- !app_assoc; cbn [app];
      next_answer srv; reflexivity.
  - cbn [app error_log]; rewrite <- !app_assoc; cbn [app];
      next_answer srv; reflexivity.
Qed.

(** An error of [drop_table] that is not a ServerError is not caught:
    [clear] ends with it, before any sleep. *)
Lemma clear_drop_table_escapes (srv : Server) self h db :
  srv h _ (client_database self.(_client) "book") = inr db ->
  let e1 := EvCall (client_database self.(_client) "book") (inr db) in
  let r := srv (h ++ [e1]) _ (db_drop_table db "book_segments") in
  tolerated r = false ->
  clear srv self h = (outcome r, [e1; EvCall (db_drop_table db "book_segments") r]).
Proof.
  intros H e1 r Hr. unfold clear. run_script. rewrite H. cbn [app].
  fold e1. fold r.
  destruct r as [[m|code m|cl m]|v]; try discriminate Hr; reflexivity.
Qed.

Lemma bind_call_starts (srv : Server) {R B} (c : Call R) (k : R -> M B) h :
  exists rest, snd (bind (call srv c) k h) = EvCall c (srv h R c) :: rest.
Proof.
  unfold bind, call. destruct (srv h R c) as [err|v].
  - exists []. reflexivity.
  - destruct (k v _) as [r ev]. exists ev. reflexivity.
Qed.

(** Names the part of a usage example that follows its cleanup, which
    starts with the creation of the database. *)
Ltac name_creation srv Hrest :=
  match goal with
  | |- context [bind (call srv (client_create_database ?c ?n)) ?k] =>
      pose proof (fun h => bind_call_starts srv (client_create_database c n) k h)
        as Hrest;
      let rest := fresh "creation" in
      set (rest := bind (call srv (client_create_database c n)) k) in *;
      clearbody rest
  end.

Ltac cleanup_not_found srv H :=
  let Hrest := fresh "Hrest" in
  cbv zeta; name_creation srv Hrest; run_script;
  rewrite H; cbn [app];
  match goal with
  | |- context [?creation ?h] =>
      let rest := fresh "rest" in
      let Erest := fresh "Erest" in
      destruct (Hrest h) as [rest Erest];
      destruct (creation h) as [? ?];
      cbn [snd] in *; subst; eexists _, _; split; reflexivity
  end.

Ltac cleanup_found srv H r Hr :=
  let Hrest := fresh "Hrest" in
  cbv zeta; name_creation srv Hrest; run_script;
  rewrite H; cbn [app]; fold r;
  destruct r as [[?|? ?|? ?]|?]; try discriminate Hr;
  cbn [app]; rewrite <- ?app_assoc; cbn [app];
  next_answer srv; cbn [app];
  first
    [ solve [eexists; split; [reflexivity|split; reflexivity]]
    | match goal with
      | |- context [?creation ?h] =>
          let rest := fresh "rest" in
          let Erest := fresh "Erest" in
          destruct (Hrest h) as [rest Erest];
          destruct (creation h) as [? ?];
          cbn [snd] in *; subst; eexists; split;
          [reflexivity|eexists _, _; split; reflexivity]
      end ].

Lemma binary_not_found (srv : Server) fuel self h msg :
  let lookup := client_database self.(_client) "test_binary_vec" in
  srv h _ lookup = inl (ClientError msg) ->
  exists e rest,
    snd (binary_vector_usage_example srv fuel self h) =
    EvCall lookup (inl (ClientError msg)) :: e :: rest /\
    creates_database "test_binary_vec" e = true.
Proof.
  intros lookup H. unfold binary_vector_usage_example. subst lookup.
  cleanup_not_found srv H.
Qed.

Lemma binary_found (srv : Server) fuel self h db :
  let lookup := client_database self.(_client) "test_binary_vec" in
  srv h _ lookup = inr db ->
  let r := srv (h ++ [EvCall lookup (inr db)]) _
               (db_drop_table db "test_binary_vec_tab") in
  let pre := [EvCall lookup (inr db);
              EvCall (db_drop_table db "test_binary_vec_tab") r; EvSleep 10] in
  let resp := srv (h ++ pre) _ (db_drop_database db) in
  tolerated r = true ->
  exists rest,
    snd (binary_vector_usage_example srv fuel self h) =
    pre ++ EvCall (db_drop_database db) resp :: rest /\
    continues_with_creation "test_binary_vec" resp
      (binary_vector_usage_example srv fuel self h) rest.
Proof.
  intros lookup H r pre resp Hr.
  unfold binary_vector_usage_example, continues_with_creation.
  subst lookup resp pre. cleanup_found srv H r Hr.
Qed.

Lemma sparse_not_found (srv : Server) fuel self h msg :
  let lookup := client_database self.(_client) "test_sparse_vec" in
  srv h _ lookup = inl (ClientError msg) ->
  exists e rest,
    snd (sparse_vector_usage_example srv fuel self h) =
    EvCall lookup (inl (ClientError msg)) :: e :: rest /\
    creates_database "test_sparse_vec" e = true.
Proof.
  intros lookup H. unfold sparse_vector_usage_example. subst lookup.
  cleanup_not_found srv H.
Qed.

Lemma sparse_found (srv : Server) fuel self h db :
  let lookup := client_database self.(_client) "test_sparse_vec" in
  srv h _ lookup = inr db ->
  let r := srv (h ++ [EvCall lookup (inr db)]) _
               (db_drop_table db "test_sparse_vec_tab") in
  let pre := [EvCall lookup (inr db);
              EvCall (db_drop_table db "test_sparse_vec_tab") r; EvSleep 10] in
  let resp := srv (h ++ pre) _ (db_drop_database db) in
  tolerated r = true ->
  exists rest,
    snd (sparse_vector_usage_example srv fuel self h) =
    pre ++ EvCall (db_drop_database db) resp :: rest /\
    continues_with_creation "test_sparse_vec" resp
      (sparse_vector_usage_example srv fuel self h) rest.
Proof.
  intros lookup H r pre resp Hr.
  unfold sparse_vector_usage_example, continues_with_creation.
  subst lookup resp pre. cleanup_found srv H r Hr.
Qed.

(** C3: cleanup ignores the expected not-found conditions. In [clear],
    when the lookup of database "book" raises a ClientError the run is
    that lookup and one log line and ends normally, with no drop; when
    the handle was obtained and [drop_table] raises a ServerError with
    the code TABLE_NOT_EXIST, or returns, the run goes on to sleep 10
    seconds and to call [drop_database], whose answer is the outcome.
    The setup of [binary_vector_usage_example] does the same: after a
    ClientError of the lookup the next call is [create_database]; after
    a [drop_table] that returned or raised a ServerError it sleeps 10
    seconds, calls [drop_database] and, when that returned, goes on to
    [create_database]. *)
Theorem cleanup_ignores_not_found (srv : Server) (fuel : nat)
    (self : TestMochow) (h : list Event) :
  (forall msg,
     srv h _ (client_database self.(_client) "book") = inl (ClientError msg) ->
     clear srv self h =
     (Ok tt,
      [EvCall (client_database self.(_client) "book") (inl (ClientError msg));
       EvLog "database {} not found." (Some (PStr "book"))])) /\
  (forall db msg,
     let lookup := EvCall (client_database self.(_client) "book") (inr db) in
     let failure := ServerError ServerErrCode.TABLE_NOT_EXIST msg in
     srv h _ (client_database self.(_client) "book") = inr db ->
     srv (h ++ [lookup]) _ (db_drop_table db "book_segments") = inl failure ->
     let pre := [lookup; EvCall (db_drop_table db "book_segments") (inl failure);
                 EvLog "drop table error {}" (Some (PError failure));
                 EvSleep 10] in
     let resp := srv (h ++ pre) _ (db_drop_database db) in
     clear srv self h =
     (outcome resp, pre ++ [EvCall (db_drop_database db) resp])) /\
  (forall db v,
     let lookup := EvCall (client_database self.(_client) "book") (inr db) in
     srv h _ (client_database self.(_client) "book") = inr db ->
     srv (h ++ [lookup]) _ (db_drop_table db "book_segments") = inr v ->
     let pre := [lookup; EvCall (db_drop_table db "book_segments") (inr v);
                 EvSleep 10] in
     let resp := srv (h ++ pre) _ (db_drop_database db) in
     clear srv self h =
     (outcome resp, pre ++ [EvCall (db_drop_database db) resp])) /\
  (forall msg,
     let lookup := client_database self.(_client) "test_binary_vec" in
     srv h _ lookup = inl (ClientError msg) ->
     exists e rest,
       snd (binary_vector_usage_example srv fuel self h) =
       EvCall lookup (inl (ClientError msg)) :: e :: rest /\
       creates_database "test_binary_vec" e = true) /\
  (forall db,
     let lookup := client_database self.(_client) "test_binary_vec" in
     srv h _ lookup = inr db ->
     let r := srv (h ++ [EvCall lookup (inr db)]) _
                  (db_drop_table db "test_binary_vec_tab") in
     let pre := [EvCall lookup (inr db);
                 EvCall (db_drop_table db "test_binary_vec_tab") r;
                 EvSleep 10] in
     let resp := srv (h ++ pre) _ (db_drop_database db) in
     tolerated r = true ->
     exists rest,
       snd (binary_vector_usage_example srv fuel self h) =
       pre ++ EvCall (db_drop_database db) resp :: rest /\
       continues_with_creation "test_binary_vec" resp
         (binary_vector_usage_example srv fuel self h) rest).
Proof.
  split; [|split; [|split; [|split]]].
  - intros msg H. apply clear_not_found. exact H.
  - intros db msg lookup failure H Hdrop pre resp.
    pose proof (clear_found srv self h db H) as E. cbv zeta in E.
    fold lookup in E. rewrite Hdrop in E. apply E. reflexivity.
  - intros db v lookup H Hdrop pre resp.
    pose proof (clear_found srv self h db H) as E. cbv zeta in E.
    fold lookup in E. rewrite Hdrop in E. apply E. reflexivity.
  - intros msg lookup H. apply binary_not_found. exact H.
  - intros db lookup H r pre resp Hr. apply binary_found; assumption.
Qed.

(** The not-found conditions of C3 on simulated services: a fresh one,
    where no database exists, and a stale one, where [drop_table] fails
    with TABLE_NOT_EXIST. *)
Lemma cleanup_ignores_not_found_witness :
  clear demo_server main_test_vdb [] =
  (Ok tt,
   [EvCall (client_database main_test_vdb.(_client) "book")
           (inl (ClientError "database not found"));
    EvLog "database {} not found." (Some (PStr "book"))]) /\
  (let failure := ServerError ServerErrCode.TABLE_NOT_EXIST "table not exist" in
   let db := {| database_name := "book" |} in
   clear (stale_server failure) main_test_vdb [] =
   (Ok tt,
    [EvCall (client_database main_test_vdb.(_client) "book") (inr db);
     EvCall (db_drop_table db "book_segments") (inl failure);
     EvLog "drop table error {}" (Some (PError failure));
     EvSleep 10;
     EvCall (db_drop_database db) (inr VNone)])).
Proof.
  split.
  - exact (proj1 (cleanup_ignores_not_found demo_server 0 main_test_vdb [])
             "database not found"%string eq_refl).
  - exact (proj1 (proj2 (cleanup_ignores_not_found
                           (stale_server (ServerError ServerErrCode.TABLE_NOT_EXIST
                                            "table not exist"))
                           0 main_test_vdb []))
             {| database_name := "book" |} "table not exist"%string
             eq_refl eq_refl).
Defined.

(** C9: [clear] suppresses every ServerError of [drop_table]: whatever
    the code of the error, the run logs it, sleeps 10 seconds and calls
    [drop_database], and the answer of [drop_database] is the outcome;
    the code appears in the run only inside the logged error. *)
Theorem clear_suppresses_every_server_error (srv : Server)
    (self : TestMochow) (h : list Event) (db : Database)
    (code : ServerErrCode.t) (msg : string) :
  let lookup := EvCall (client_database self.(_client) "book") (inr db) in
  let failure := ServerError code msg in
  srv h _ (client_database self.(_client) "book") = inr db ->
  srv (h ++ [lookup]) _ (db_drop_table db "book_segments") = inl failure ->
  let pre := [lookup; EvCall (db_drop_table db "book_segments") (inl failure);
              EvLog "drop table error {}" (Some (PError failure));
              EvSleep 10] in
  let resp := srv (h ++ pre) _ (db_drop_database db) in
  clear srv self h = (outcome resp, pre ++ [EvCall (db_drop_database db) resp]).
Proof.
  intros lookup failure H Hdrop pre resp.
  pose proof (clear_found srv self h db H) as E. cbv zeta in E.
  fold lookup in E. rewrite Hdrop in E. apply E. reflexivity.
Qed.

(** C9 on a stale service whose [drop_table] fails with a code that is
    neither TABLE_NOT_EXIST nor INDEX_NOT_EXIST. *)
Lemma clear_suppresses_every_server_error_witness :
  let failure := ServerError (ServerErrCode.Other 500) "internal error" in
  let db := {| database_name := "book" |} in
  clear (stale_server failure) main_test_vdb [] =
  (Ok tt,
   [EvCall (client_database main_test_vdb.(_client) "book") (inr db);
    EvCall (db_drop_table db "book_segments") (inl failure);
    EvLog "drop table error {}" (Some (PError failure));
    EvSleep 10;
    EvCall (db_drop_database db) (inr VNone)]).
Proof.
  exact (clear_suppresses_every_server_error
           (stale_server (ServerError (ServerErrCode.Other 500) "internal error"))
           main_test_vdb [] {| database_name := "book" |}
           (ServerErrCode.Other 500) "internal error" eq_refl eq_refl).
Defined.

(** * Runs on the simulated service *)

(** With enough fuel for its wait loops, the whole demo runs to its end
    on [demo_server]; with too little, a wait loop is cut short. *)
Example main_completes : fst (main demo_server 5 []) = Ok tt.
Proof. vm_compute. reflexivity. Qed.

Example main_makes_142_events : List.length (snd (main demo_server 5 [])) = 142%nat.
Proof. vm_compute. reflexivity. Qed.

Example main_out_of_fuel : fst (main demo_server 2 []) = Diverge.
Proof. vm_compute. reflexivity. Qed.

(** The sleeps of the run of [main] on [demo_server], where a table or
    an index is ready at the third poll, keep to the delays of the
    text; a sleep of another length after the wait for the table would
    not. *)
Example demo_run_keeps_schedule :
  sleeps (snd (main demo_server 5 [])) =
    [2; 2; 2; 10; 10; 10; 2; 2; 2; 2; 2; 1; 2; 2; 2; 2; 2; 2; 10] /\
  fits (List.concat step_schedules) (sleeps (snd (main demo_server 5 []))) = true /\
  fits [Many 2; Once 10; Once 10] [2; 2; 2; 1; 10] = false.
Proof. vm_compute. auto. Qed.

(** The delay that follows a poll of the table depends on its answer
    only through the loop it ends or sends round again. *)
Example delay_after_a_poll (db : Database) (t : Table) :
  delay_after (EvCall (db_describe_table db "book_segments") (inr t)) =
  Some (if TableState.eqb t.(table_state) TableState.NORMAL then 10 else 2) /\
  delay_after (EvCall (db_table db "book_segments") (inr t)) = None.
Proof. cbn. destruct (TableState.eqb _ _); auto. Qed.

(** C5 on [demo_server]: the type FLAT is refused by both methods, and
    with HNSWPQ both define one vector index. *)
Lemma index_type_is_checked_witness :
  fst (create_db_and_table demo_server 5 flat_vdb []) =
    Raise not_support_index_type /\
  fst (drop_and_create_vindex demo_server 5 flat_vdb book_created) =
    Raise not_support_index_type /\
  (exists e, In e (snd (create_db_and_table demo_server 5 main_test_vdb [])) /\
             defines_one_vector_index IndexType.HNSWPQ e = true) /\
  (exists e, In e (snd (drop_and_create_vindex demo_server 5 main_test_vdb
                          book_created)) /\
             defines_one_vector_index IndexType.HNSWPQ e = true).
Proof.
  split; [|split; [|split]].
  - destruct (proj1 (index_type_is_checked demo_server 5 flat_vdb) eq_refl [])
      as [[_ [H _]] _].
    apply H. vm_compute. reflexivity.
  - destruct (proj1 (index_type_is_checked demo_server 5 flat_vdb) eq_refl
                book_created) as [_ [_ [H _]]].
    apply H. vm_compute. reflexivity.
  - destruct (proj2 (index_type_is_checked demo_server 5 main_test_vdb) eq_refl [])
      as [[_ [_ H]] _].
    apply H. vm_compute. reflexivity.
  - destruct (proj2 (index_type_is_checked demo_server 5 main_test_vdb) eq_refl
                book_created) as [_ [_ [_ H]]].
    apply H. vm_compute. reflexivity.
Defined.

(** C10 on [demo_server]: with the type FLAT both searches end with the
    unbound local. *)
Lemma locals_are_bound_for_supported_types_witness :
  fst (vector_search demo_server 5 flat_vdb book_created) =
    Raise (UnboundLocalError "request") /\
  fst (hybrid_search demo_server flat_vdb book_created) =
    Raise (UnboundLocalError "config") /\
  is_NameError (UnboundLocalError "request") = true /\
  fst (vector_search demo_server 5 main_test_vdb book_created) = Ok tt.
Proof.
  split; [|split; [|split]].
  - destruct (proj1 (locals_are_bound_for_supported_types demo_server 5 flat_vdb)
                eq_refl book_created) as [[_ [H _]] _].
    apply H. vm_compute. reflexivity.
  - destruct (proj1 (locals_are_bound_for_supported_types demo_server 5 flat_vdb)
                eq_refl book_created) as [_ [_ [H _]]].
    apply H. vm_compute. reflexivity.
  - reflexivity.
  - vm_compute. reflexivity.
Defined.


(** On that service [clear] and the usage examples get over the failing
    [drop_table]; [delete_and_drop], which catches nothing, ends the run
    with it. *)
Example stale_main_ends_in_delete_and_drop :
  fst (main (stale_server (ServerError (ServerErrCode.Other 500) "internal error"))
            5 []) =
  Raise (Sdk (ServerError (ServerErrCode.Other 500) "internal error")).
Proof. vm_compute. reflexivity. Qed.

Lemma demo_run : main demo_server 5 [] = (Ok tt, snd (main demo_server 5 [])).
Proof. vm_compute. reflexivity. Qed.

(** C4 on [demo_server]: the run of [main] issues every search mode and
    opens an iterator. *)
Lemma search_modes_are_issued_witness :
  (forall mode, exists e, In e (snd (main demo_server 5 [])) /\
                          searches mode e = true) /\
  (exists e, In e (snd (main demo_server 5 [])) /\
             calls "search_iterator" e = true).
Proof.
  exact (proj2 (proj2 (proj2 (proj2 (proj2 (proj2
           (search_modes_are_issued demo_server 5))))))
           [] _ demo_run).
Defined.

(** C6 on [demo_server]: the run of [main] is made of the runs of its
    steps and calls each of the eleven methods. *)
Lemma main_runs_the_steps_in_order_witness :
  (exists evs,
     steps_ran (map (fun m => m main_test_vdb) (demo_steps demo_server 5)) [] evs /\
     snd (main demo_server 5 []) = List.concat evs) /\
  Forall (fun name => exists e, In e (snd (main demo_server 5 [])) /\
                                calls name e = true)
         demonstrated_methods.
Proof.
  exact (proj2 (main_runs_the_steps_in_order demo_server 5) [] _ demo_run).
Defined.

(** * More on cleanup: what escapes, and the sparse example *)

Lemma clear_lookup_escapes (srv : Server) self h err :
  srv h _ (client_database self.(_client) "book") = inl err ->
  (forall msg, err <> ClientError msg) ->
  clear srv self h =
  (Raise (Sdk err), [EvCall (client_database self.(_client) "book") (inl err)]).
Proof.
  intros H Hne. unfold clear. run_script. rewrite H.
  destruct err as [msg|code msg|cl msg]; [destruct (Hne msg)|..]; reflexivity.
Qed.

(** The handlers of [clear] catch by class and by place: an error of
    the lookup that is not a ClientError (a ServerError, say) ends
    [clear] at once, and so does an error of [drop_table] that is not a
    ServerError (a ClientError, say): [clear] then neither sleeps nor
    calls [drop_database]. *)
Theorem clear_lets_other_errors_escape (srv : Server) (self : TestMochow)
    (h : list Event) :
  (forall err,
     srv h _ (client_database self.(_client) "book") = inl err ->
     (forall msg, err <> ClientError msg) ->
     clear srv self h =
     (Raise (Sdk err),
      [EvCall (client_database self.(_client) "book") (inl err)])) /\
  (forall db err,
     let lookup := EvCall (client_database self.(_client) "book") (inr db) in
     srv h _ (client_database self.(_client) "book") = inr db ->
     srv (h ++ [lookup]) _ (db_drop_table db "book_segments") = inl err ->
     (forall code msg, err <> ServerError code msg) ->
     clear srv self h =
     (Raise (Sdk err),
      [lookup; EvCall (db_drop_table db "book_segments") (inl err)])).
Proof.
  split.
  - intros err H Hne. apply clear_lookup_escapes; assumption.
  - intros db err lookup H Hdrop Hne.
    pose proof (clear_drop_table_escapes srv self h db H) as E. cbv zeta in E.
    fold lookup in E. rewrite Hdrop in E. apply E.
    destruct err as [msg|code msg|cl msg]; try reflexivity.
    destruct (Hne code msg). reflexivity.
Qed.

(** A stale service whose [drop_table] raises a ClientError: [clear]
    stops there. *)
Lemma clear_lets_other_errors_escape_witness :
  let failure := ClientError "connection reset" in
  let db := {| database_name := "book" |} in
  clear (stale_server failure) main_test_vdb [] =
  (Raise (Sdk failure),
   [EvCall (client_database main_test_vdb.(_client) "book") (inr db);
    EvCall (db_drop_table db "book_segments") (inl failure)]).
Proof.
  refine (proj2 (clear_lets_other_errors_escape
                   (stale_server (ClientError "connection reset"))
                   main_test_vdb [])
            {| database_name := "book" |} (ClientError "connection reset")
            eq_refl eq_refl _).
  intros code msg H. discriminate H.
Defined.

(** The setup of [sparse_vector_usage_example] cleans up as that of the
    binary example does: after a ClientError of the lookup of
    "test_sparse_vec" the next call is [create_database]; with the
    handle obtained, a [drop_table] that returned or raised a
    ServerError of any code is followed by a sleep of 10 seconds and
    [drop_database], and when that returned, by [create_database]. *)
Theorem sparse_cleanup_ignores_not_found (srv : Server) (fuel : nat)
    (self : TestMochow) (h : list Event) :
  (forall msg,
     let lookup := client_database self.(_client) "test_sparse_vec" in
     srv h _ lookup = inl (ClientError msg) ->
     exists e rest,
       snd (sparse_vector_usage_example srv fuel self h) =
       EvCall lookup (inl (ClientError msg)) :: e :: rest /\
       creates_database "test_sparse_vec" e = true) /\
  (forall db,
     let lookup := client_database self.(_client) "test_sparse_vec" in
     srv h _ lookup = inr db ->
     let r := srv (h ++ [EvCall lookup (inr db)]) _
                  (db_drop_table db "test_sparse_vec_tab") in
     let pre := [EvCall lookup (inr db);
                 EvCall (db_drop_table db "test_sparse_vec_tab") r;
                 EvSleep 10] in
     let resp := srv (h ++ pre) _ (db_drop_database db) in
     tolerated r = true ->
     exists rest,
       snd (sparse_vector_usage_example srv fuel self h) =
       pre ++ EvCall (db_drop_database db) resp :: rest /\
       continues_with_creation "test_sparse_vec" resp
         (sparse_vector_usage_example srv fuel self h) rest).
Proof.
  split.
  - intros msg lookup H. apply sparse_not_found. exact H.
  - intros db lookup H r pre resp Hr. apply sparse_found; assumption.
Qed.

(** On a fresh service the lookup of "test_sparse_vec" fails and the
    example goes on to create the database. *)
Lemma sparse_cleanup_ignores_not_found_witness :
  exists e rest,
    snd (sparse_vector_usage_example demo_server 5 main_test_vdb []) =
    EvCall (client_database main_test_vdb.(_client) "test_sparse_vec")
           (inl (ClientError "database not found")) :: e :: rest /\
    creates_database "test_sparse_vec" e = true.
Proof.
  exact (proj1 (sparse_cleanup_ignores_not_found demo_server 5 main_test_vdb [])
           "database not found"%string eq_refl).
Defined.

(** * Exceptions of the helper *)

Lemma ints_of_chars_raises s e :
  Py.ints_of_chars s = Raise e -> exists msg, e = ValueError msg.
Proof.
  revert e. induction s as [|c s IH]; intros e; cbn [Py.ints_of_chars].
  - discriminate.
  - unfold Py.int_of_char. cbv zeta. destruct (_ && _).
    + destruct (Py.ints_of_chars s) as [ds|e'|]; try discriminate.
      intros H. injection H as <-. apply IH. reflexivity.
    + intros H. injection H as <-. eauto.
Qed.

(** The helper raises nothing but what [int] and [assert] raise. *)
Lemma num_to_binary_list_raises num dimension e :
  num_to_binary_list num dimension = Raise e ->
  e = AssertionError \/ exists msg, e = ValueError msg.
Proof.
  unfold num_to_binary_list. cbv zeta.
  destruct (Py.ints_of_chars _) as [l|e'|] eqn:E; try discriminate.
  - destruct (_ =? _); [discriminate|]. intros H. injection H as <-. auto.
  - intros H. injection H as <-. right. eapply ints_of_chars_raises. exact E.
Qed.

Ltac own_exception :=
  match goal with
  | H : num_to_binary_list _ _ = Raise _ |- _ =>
      apply num_to_binary_list_raises in H; destruct H as [->|[? ->]]
  end.

(** * The script raises nothing of its own *)

Lemma wp_map_M_In {S} (step : S -> Event -> option S) {A B} (Inv : S -> Prop)
    (f : A -> M B) (l : list A) (Q : Res (list B) -> S -> Prop) :
  (forall ys s, Inv s -> Q (Ok ys) s) ->
  (forall x s, In x l -> Inv s -> wp step (f x) (pass Inv Q) s) ->
  forall s, Inv s -> wp step (map_M f l) Q s.
Proof.
  revert Q. induction l as [|x l IH]; intros Q Hend Hf s Hs; simpl.
  - apply wp_ret. auto.
  - apply wp_bind. eapply wp_mono; [|apply Hf; [left; reflexivity|eassumption]].
    intros [y|e|] s' H; simpl in *; auto.
    apply wp_bind.
    apply (IH (after step (fun ys => ret (y :: ys)) Q)).
    + intros ys s0 H0. simpl. apply wp_ret. auto.
    + intros x0 s0 Hin H0. eapply wp_mono; [|apply Hf; [right; exact Hin|eassumption]].
      intros [y0|e|] s1 H1; simpl in *; auto.
    + exact H.
Qed.

(** The numbers the binary example converts are converted. *)
Lemma binary_rows_convert x :
  In x (Py.range 50) -> ends_ok (num_to_binary_list x 128) = true.
Proof.
  assert (H : forallb (fun x => ends_ok (num_to_binary_list x 128)) (Py.range 50)
              = true) by (vm_compute; reflexivity).
  rewrite forallb_forall in H. apply H.
Qed.

Ltac any_simp := cbn [any_step].

Ltac own_step :=
  lazymatch goal with
  | |- wp _ (map_M _ _) _ ?s =>
      apply wp_map_M_In with (Inv := fun s' => s' = s);
      [ intros ? ? -> | intros ? ? ? -> | reflexivity ]
  | _ => wp_step any_simp
  end.

Ltac own_done :=
  try match goal with
      | Hin : In ?x (Py.range 50), H : num_to_binary_list ?x 128 = _ |- _ =>
          apply binary_rows_convert in Hin; rewrite H in Hin; discriminate Hin
      | H : num_to_binary_list 123 128 = _ |- _ =>
          vm_compute in H; discriminate H
      end;
  first [ reflexivity | exact I ].

Ltac own_method self := by_index_type self; cbv zeta; repeat own_step; own_done.

Lemma quiet_steps srv fuel :
  Forall (fun m => forall self,
            supported self.(_vector_index_type) = true ->
            wp any_step (m self)
               (fun r _ => raised_by_script r = false) tt)
         (demo_steps srv fuel).
Proof.
  repeat constructor; intros self Hs.
  - unfold clear. own_method self.
  - unfold create_db_and_table. own_method self.
  - unfold upsert_data. own_method self.
  - unfold select_data. own_method self.
  - unfold change_table_schema. own_method self.
  - unfold show_table_stats. own_method self.
  - unfold query_data. own_method self.
  - unfold batch_query_data. own_method self.
  - unfold vector_search. own_method self.
  - unfold search_iterator. own_method self.
  - unfold bm25_search. own_method self.
  - unfold hybrid_search. own_method self.
  - unfold update_data. own_method self.
  - unfold delete_data. own_method self.
  - unfold drop_and_create_vindex. own_method self.
  - unfold binary_vector_usage_example. own_method self.
  - unfold sparse_vector_usage_example. own_method self.
  - unfold delete_and_drop. own_method self.
Qed.

(** Every run of [main], and of each step of an instance with one of the
    three index types, ends by returning, by an exception the SDK
    raised, or not at all: the script raises no exception of its own.
    In particular the assertion and the [int] conversions of
    [num_to_binary_list] never fail on the numbers the binary example
    converts. *)
Theorem script_raises_nothing_of_its_own (srv : Server) (fuel : nat) :
  Forall (fun m => forall self h,
            supported self.(_vector_index_type) = true ->
            raised_by_script (fst (m self h)) = false)
         (demo_steps srv fuel) /\
  (forall h, raised_by_script (fst (main srv fuel h)) = false).
Proof.
  split.
  - generalize (quiet_steps srv fuel). apply Forall_impl.
    intros m Hm self h Hs.
    destruct (wp_run h (Hm self Hs)) as (s' & _ & HQ). exact HQ.
  - intros h.
    assert (H : wp any_step (main srv fuel)
                   (fun r _ => raised_by_script r = false) tt).
    { apply wp_ext with
        (m' := run_steps (map (fun m => m main_test_vdb) (demo_steps srv fuel)));
        [apply main_run_steps|].
      apply wp_run_steps with (Inv := fun _ => True); [reflexivity| |exact I].
      apply Forall_map. generalize (quiet_steps srv fuel). apply Forall_impl.
      intros m Hm [] _.
      eapply wp_mono; [|apply Hm; reflexivity].
      intros [[]|e|] s' H; cbn [pass]; auto. }
    destruct (wp_run h H) as (s' & _ & HQ). exact HQ.
Qed.

(** * Paging through a table *)


Lemma while_true_S {I A} fuel (body : I -> M (I + A)) i h :
  while_true (S fuel) body i h =
  let (r, ev) := body i h in
  match r with
  | Ok (inl i') => let (r', ev') := while_true fuel body i' (h ++ ev) in (r', ev ++ ev')
  | Ok (inr a) => (Ok a, ev ++ [])
  | Raise e => (Raise e, ev)
  | Diverge => (Diverge, ev)
  end.
Proof.
  cbn [while_true]. unfold bind. destruct (body i h) as [[[i'|a]|e|] ev]; reflexivity.
Qed.

Lemma select_round_run srv table marker h :
  let c := table_select table marker ["id"; "bookName"; "json_field"]%string 20 in
  select_round srv table marker h =
  match srv h _ c with
  | inl err => (Raise (Sdk err), [EvCall c (inl err)])
  | inr res =>
      if res.(is_truncated)
      then (Ok (inl res.(next_marker)),
            [EvCall c (inr res); EvLog "res: {}" (Some (PSelect res));
             EvLog "select next batch" None])
      else (Ok (inr tt),
            [EvCall c (inr res); EvLog "res: {}" (Some (PSelect res));
             EvLog "select finished" None])
  end.
Proof.
  cbv zeta. unfold select_round. run_script.
  destruct (srv h _ _) as [err|res]; [reflexivity|].
  destruct (is_truncated res); reflexivity.
Qed.

Lemma select_loop_pages srv table fuel : forall marker h,
  let out := while_true fuel (select_round srv table) marker h in
  pages_from marker (selects (snd out)) /\
  Forall (asks_for_a_page table) (selects (snd out)) /\
  (fst out = Ok tt -> ends_complete (selects (snd out))) /\
  (List.length (selects (snd out)) <= fuel)%nat.
Proof.
  induction fuel as [|fuel IH]; intros marker h out; subst out.
  - cbn. repeat split; auto. discriminate.
  - rewrite while_true_S, select_round_run. cbv zeta.
    destruct (srv h _ _) as [err|res].
    + cbn. repeat split; auto; try discriminate; try lia.
      repeat constructor.
    + destruct (is_truncated res) eqn:Ht.
      * match goal with
        | |- context [while_true fuel _ ?m ?h'] =>
            specialize (IH m h'); cbv zeta in IH;
            destruct (while_true fuel _ m h') as [r' ev']
        end.
        cbn [fst snd selects select_call app] in *.
        fold (the_select table marker (inr res)).
        destruct IH as (Hp & Hf & He & Hl).
        repeat split; cbn [pages_from sel_marker sel_answer the_select]; auto.
        -- rewrite Ht. exact Hp.
        -- constructor; [repeat split|exact Hf].
        -- intros Hr. destruct (He Hr) as (l' & c & res' & -> & Hc & Hres).
           exists (the_select table marker (inr res) :: l'), c, res'. auto.
        -- cbn [List.length]. lia.
      * cbn. repeat split; auto; try lia.
        -- rewrite Ht. reflexivity.
        -- repeat constructor.
        -- intros _. exists [], (the_select table marker (inr res)), res. auto.
Qed.

Lemma bind_call_run srv {R B} (c : Call R) (k : R -> M B) h :
  bind (call srv c) k h =
  match srv h R c with
  | inl err => (Raise (Sdk err), [EvCall c (inl err)])
  | inr v =>
      let (r, ev) := k v (h ++ [EvCall c (inr v)]) in
      (r, EvCall c (inr v) :: ev)
  end.
Proof.
  unfold bind, call. destruct (srv h R c) as [err|v]; [reflexivity|].
  destruct (k v _) as [r ev]. reflexivity.
Qed.

(** [select_data] pages through the table: its first [select] passes no
    marker, each later one passes the [next_marker] of the answer
    before it, and a [select] follows another exactly when the answer
    was truncated; every [select] asks for the same three columns, at
    most 20 rows, on the table handle [db.table] returned; and a run
    that returns has seen an answer that was not truncated. *)
Theorem select_data_pages (srv : Server) (fuel : nat) (self : TestMochow)
    (h : list Event) :
  let out := select_data srv fuel self h in
  pages_from VNone (selects (snd out)) /\
  (forall c, In c (selects (snd out)) ->
     c.(sel_projections) = ["id"; "bookName"; "json_field"]%string /\
     c.(sel_limit) = 20 /\
     exists db, In (EvCall (db_table db "book_segments") (inr c.(sel_table)))
                   (snd out)) /\
  (fst out = Ok tt -> ends_complete (selects (snd out))).
Proof.
  cbv zeta. unfold select_data. cbv zeta.
  rewrite bind_call_run. destruct (srv h _ _) as [err|db].
  { cbn. repeat split; auto; try discriminate; contradiction. }
  rewrite bind_call_run. destruct (srv _ _ _) as [err|table].
  { cbn. repeat split; auto; try discriminate; contradiction. }
  change (while_true fuel _ VNone) with (while_true fuel (select_round srv table) VNone).
  match goal with
  | |- context [while_true fuel _ VNone ?h'] =>
      pose proof (select_loop_pages srv table fuel VNone h') as H; cbv zeta in H;
      destruct (while_true fuel _ VNone h') as [r ev]
  end.
  cbn [fst snd selects select_call] in *.
  destruct H as (Hp & Hf & He & _).
  split; [exact Hp|]. split; [|exact He].
  intros c Hc. rewrite Forall_forall in Hf.
  destruct (Hf c Hc) as (Ht & Hpr & Hl).
  split; [exact Hpr|]. split; [exact Hl|].
  exists db. rewrite Ht. right. left. reflexivity.
Qed.

(** On [demo_server] the first answer is truncated and the second is not. *)
Example select_data_two_pages :
  map sel_marker (selects (snd (select_data demo_server 5 main_test_vdb book_created)))
  = [VNone; VStr "next"].
Proof. vm_compute. reflexivity. Qed.

(** * Closing the client *)


Ltac close_simp := cbn [close_step is_client_close failure].

Ltac close_done :=
  cbn [close_final pass];
  first [ reflexivity | exact I | discriminate
        | let H := fresh in intros H; discriminate H ].

Ltac close_method := wp_auto close_simp; close_done.

(** The steps before the last leave the client open. *)
Lemma close_steps srv fuel :
  Forall (fun m => forall self,
            wp close_step (m self) (fun _ s => s = Open) Open)
         (firstn 17 (demo_steps srv fuel)).
Proof.
  cbn [firstn demo_steps]. repeat constructor; intros self.
  - unfold clear. close_method.
  - unfold create_db_and_table. close_method.
  - unfold upsert_data. close_method.
  - unfold select_data. close_method.
  - unfold change_table_schema. close_method.
  - unfold show_table_stats. close_method.
  - unfold query_data. close_method.
  - unfold batch_query_data. close_method.
  - unfold vector_search. close_method.
  - unfold search_iterator. close_method.
  - unfold bm25_search. close_method.
  - unfold hybrid_search. close_method.
  - unfold update_data. close_method.
  - unfold delete_data. close_method.
  - unfold drop_and_create_vindex. close_method.
  - unfold binary_vector_usage_example. close_method.
  - unfold sparse_vector_usage_example. close_method.
Qed.

Lemma close_delete_and_drop srv self :
  wp close_step (delete_and_drop srv self) close_final Open.
Proof. unfold delete_and_drop. close_method. Qed.

Lemma wp_run_steps_last {S} (step : S -> Event -> option S) (Inv : S -> Prop)
    (Q : Res unit -> S -> Prop) (ms : list (M unit)) (m_last : M unit) :
  Forall (fun m => forall s, Inv s -> wp step m (pass Inv Q) s) ms ->
  (forall s, Inv s -> wp step m_last Q s) ->
  forall s, Inv s -> wp step (run_steps (ms ++ [m_last])) Q s.
Proof.
  intros Hms Hlast. induction Hms as [|m ms Hm _ IH]; intros s Hs;
    cbn [app run_steps].
  - apply wp_bind. eapply wp_mono; [|apply Hlast; exact Hs].
    intros [[]|e|] s' H; cbn [after]; auto. apply wp_ret. exact H.
  - apply wp_bind. eapply wp_mono; [|apply Hm; exact Hs].
    intros [[]|e|] s' H; cbn [after pass] in *; auto.
Qed.

Lemma close_main srv fuel :
  wp close_step (main srv fuel) close_final Open.
Proof.
  apply wp_ext with
    (m' := run_steps (map (fun m => m main_test_vdb)
                          (firstn 17 (demo_steps srv fuel))
                      ++ [delete_and_drop srv main_test_vdb])).
  { intros h. rewrite main_run_steps. reflexivity. }
  apply wp_run_steps_last with (Inv := fun s => s = Open); [| |reflexivity].
  - apply Forall_map. generalize (close_steps srv fuel). apply Forall_impl.
    intros m Hm s ->. eapply wp_mono; [|apply Hm].
    intros [[]|e|] s' ->; cbn [pass close_final]; [reflexivity|discriminate..].
  - intros s ->. apply close_delete_and_drop.
Qed.

Lemma mon_run_Closed a ev s' :
  mon_run close_step (Closed a) ev = Some s' -> ev = [] /\ s' = Closed a.
Proof.
  destruct ev; simpl; [|discriminate]. intros H. injection H as <-. auto.
Qed.

Lemma close_monitor_last ev : forall a,
  mon_run close_step Open ev = Some (Closed a) ->
  exists pre e, ev = pre ++ [e] /\ is_client_close e = true.
Proof.
  induction ev as [|e ev IH]; intros a H; [discriminate H|].
  cbn [mon_run close_step] in H. destruct (is_client_close e) eqn:He.
  - apply mon_run_Closed in H. destruct H as [-> _].
    exists [], e. auto.
  - destruct (IH a H) as (pre & e' & -> & He'). exists (e :: pre), e'. auto.
Qed.

(** What the close monitor accepts closes at the end. *)
Lemma close_monitor_sound (out : Res unit * list Event) s' :
  mon_run close_step Open (snd out) = Some s' ->
  close_final (fst out) s' ->
  closes_at_the_end out.
Proof.
  intros Hrun Hfin. split.
  - intros pre e post Hev He. rewrite Hev in Hrun.
    apply mon_run_split in Hrun. destruct Hrun as (s1 & s2 & _ & Hstep & Hpost).
    destruct s1 as [|a]; [|discriminate Hstep].
    cbn [close_step] in Hstep. rewrite He in Hstep. injection Hstep as <-.
    apply mon_run_Closed in Hpost. destruct Hpost as [-> ->].
    split; [reflexivity|].
    destruct (failure e); exact Hfin.
  - intros Hr. destruct s' as [|a].
    + destruct (Hfin Hr).
    + eapply close_monitor_last. exact Hrun.
Qed.

(** [main] closes the client at the very end and only then: in every
    run [client.close()] is the last event and its answer is the outcome
    of the run, a run that returns ends with it, and so a run that an
    exception ends before [close] leaves the client open. No step
    before [delete_and_drop] closes the client. *)
Theorem client_is_closed_last (srv : Server) (fuel : nat) :
  (forall h, closes_at_the_end (main srv fuel h)) /\
  (forall self h, closes_at_the_end (delete_and_drop srv self h)) /\
  Forall (fun m => forall self h,
            Forall (fun e => is_client_close e = false) (snd (m self h)))
         (firstn 17 (demo_steps srv fuel)).
Proof.
  split; [|split].
  - intros h. destruct (wp_run h (close_main srv fuel)) as (s' & Hrun & Hfin).
    eapply close_monitor_sound; eassumption.
  - intros self h.
    destruct (wp_run h (close_delete_and_drop srv self)) as (s' & Hrun & Hfin).
    eapply close_monitor_sound; eassumption.
  - generalize (close_steps srv fuel). apply Forall_impl. intros m Hm self h.
    destruct (wp_run h (Hm self)) as (s' & Hrun & Hfin).
    apply Forall_forall. intros e Hin.
    destruct (is_client_close e) eqn:He; [|reflexivity].
    apply in_split in Hin. destruct Hin as (pre & post & Hev).
    rewrite Hev in Hrun.
    apply mon_run_split in Hrun. destruct Hrun as (s1 & s2 & _ & Hstep & Hpost).
    destruct s1 as [|a]; [|discriminate Hstep].
    cbn [close_step] in Hstep. rewrite He in Hstep. injection Hstep as <-.
    apply mon_run_Closed in Hpost. destruct Hpost as [_ ->].
    discriminate Hfin.
Qed.

(** * Search parameters *)


Lemma config_eqb_eq a b : config_eqb a b = true -> b = a.
Proof.
  destruct a as [[x|x]|], b as [[y|y]|]; cbn; try discriminate;
    try reflexivity; intros H; apply Z.eqb_eq in H; subst; reflexivity.
Qed.

Lemma other_config_searches_with expected ev :
  Forall (fun e => other_config expected e = false) ev ->
  searches_with expected ev.
Proof.
  apply Forall_impl. intros e H. unfold other_config in H.
  apply negb_false_iff in H. rewrite forallb_forall in H.
  apply Forall_forall. intros c Hc. apply config_eqb_eq. apply H. exact Hc.
Qed.

Ltac config_simp :=
  rewrite ?guard_step_eq;
  repeat match goal with
         | |- context [other_config ?x ?e] =>
             let v := eval cbv in (other_config x e) in
             change (other_config x e) with v
         end;
  cbv [never]; cbn [orb].

Ltac config_method self :=
  by_index_type self; wp_auto config_simp; first [exact I | reflexivity].

Lemma vector_search_config srv fuel self :
  supported self.(_vector_index_type) = true ->
  wp (guard_step (other_config (config_for self.(_vector_index_type))) never)
     (vector_search srv fuel self) (fun _ _ => True) false.
Proof. intros H. unfold vector_search. config_method self. Qed.

Lemma hybrid_search_config srv self :
  supported self.(_vector_index_type) = true ->
  wp (guard_step (other_config (config_for self.(_vector_index_type))) never)
     (hybrid_search srv self) (fun _ _ => True) false.
Proof. intros H. unfold hybrid_search. config_method self. Qed.

Lemma search_iterator_config srv fuel self :
  wp (guard_step (other_config (Some (Config_ef 2000))) never)
     (search_iterator srv fuel self) (fun _ _ => True) false.
Proof. unfold search_iterator. wp_auto config_simp; first [exact I | reflexivity]. Qed.

(** The searches of [vector_search] and [hybrid_search] are made with
    the parameters of the index type of the instance: [ef=200] for HNSW
    and HNSWPQ, [search_coarse_count=5] for PUCK, in every request and
    every sub-request of the multi-vector search. [search_iterator]
    does not look at the index type: both its iterators are opened with
    [ef=2000], for a PUCK index too. *)
Theorem search_parameters_by_index_type (srv : Server) (fuel : nat)
    (self : TestMochow) (h : list Event) :
  (supported self.(_vector_index_type) = true ->
   searches_with (config_for self.(_vector_index_type))
                 (snd (vector_search srv fuel self h)) /\
   searches_with (config_for self.(_vector_index_type))
                 (snd (hybrid_search srv self h))) /\
  searches_with (Some (Config_ef 2000)) (snd (search_iterator srv fuel self h)).
Proof.
  split; [intros Hs; split|].
  - destruct (wp_run h (vector_search_config srv fuel self Hs)) as (s' & Hrun & _).
    apply guard_run in Hrun. apply other_config_searches_with. apply Hrun.
  - destruct (wp_run h (hybrid_search_config srv self Hs)) as (s' & Hrun & _).
    apply guard_run in Hrun. apply other_config_searches_with. apply Hrun.
  - destruct (wp_run h (search_iterator_config srv fuel self)) as (s' & Hrun & _).
    apply guard_run in Hrun. apply other_config_searches_with. apply Hrun.
Qed.

(** On [demo_server] a PUCK instance searches with
    [search_coarse_count], and opens its iterators with [ef]. *)
Lemma search_parameters_by_index_type_witness :
  searches_with (Some (Config_search_coarse_count 5))
                (snd (vector_search demo_server 5 puck_vdb book_created)) /\
  searches_with (Some (Config_ef 2000))
                (snd (search_iterator demo_server 5 puck_vdb book_created)) /\
  existsb (fun e => negb (Nat.eqb (List.length (search_configs e)) 0))
          (snd (vector_search demo_server 5 puck_vdb book_created)) = true.
Proof.
  split; [|split].
  - exact (proj1 (proj1 (search_parameters_by_index_type demo_server 5 puck_vdb
                           book_created) eq_refl)).
  - exact (proj2 (search_parameters_by_index_type demo_server 5 puck_vdb
                    book_created)).
  - vm_compute. reflexivity.
Defined.

(** * The rows of [upsert_data] *)


(** The loop of [upsert_data] appends one row for each value of its
    counter, in order. *)
Lemma upsert_append_rows_spec n : forall i rows,
  upsert_append_rows n i rows =
  rows ++ map upsert_generated_row (count_from i n).
Proof.
  unfold count_from. induction n as [|n IH]; intros i rows; cbn [upsert_append_rows].
  - cbn. rewrite app_nil_r. reflexivity.
  - rewrite IH. cbn [seq map]. rewrite <- app_assoc. cbn [app].
    rewrite Z.add_0_r. do 3 f_equal.
    rewrite <- seq_shift, map_map. apply map_ext. intros k. lia.
Qed.

Lemma upsert_data_ids_distinct :
  NoDup (map row_id (upsert_literal_rows ++
                     map upsert_generated_row (count_from 6 95))).
Proof.
  match goal with |- NoDup ?l =>
    assert (E : nodup option_string_dec l = l) by (vm_compute; reflexivity);
    rewrite <- E; apply NoDup_nodup
  end.
Qed.

(** [upsert_data] writes 100 rows in one call: the five it spells out
    and one for each [i] from 6 to 100; their ids, "0001" to "0005" and
    [str(i)], are pairwise distinct, so no row replaces another. *)
Theorem upsert_data_writes_100_rows (srv : Server) (self : TestMochow)
    (h : list Event) :
  let written :=
    upsert_literal_rows ++ map upsert_generated_row (count_from 6 95) in
  (forall e rows,
     In e (snd (upsert_data srv self h)) -> upserted e = Some rows ->
     rows = written) /\
  (fst (upsert_data srv self h) = Ok tt ->
   exists e, In e (snd (upsert_data srv self h)) /\ upserted e = Some written) /\
  List.length written = 100%nat /\
  NoDup (map row_id written) /\
  Forall (fun row => row_id row <> None) written.
Proof.
  cbv zeta. split; [|split; [|split; [|split]]].
  - intros e rows. unfold upsert_data. cbv zeta. rewrite !upsert_append_rows_spec.
    rewrite bind_call_run. destruct (srv h _ _) as [err|db].
    { cbn. intros [<-|[]]. discriminate. }
    rewrite bind_call_run. destruct (srv _ _ _) as [err|table].
    { cbn. intros [<-|[<-|[]]]; discriminate. }
    rewrite bind_call_run. destruct (srv _ _ _) as [err|res].
    { cbn [snd In]. intros [<-|[<-|[<-|[]]]]; try discriminate.
      cbn [upserted]. intros H. injection H as <-. reflexivity. }
    cbn [snd sleep In]. intros [<-|[<-|[<-|[<-|[]]]]]; try discriminate.
    cbn [upserted]. intros H. injection H as <-. reflexivity.
  - unfold upsert_data. cbv zeta. rewrite !upsert_append_rows_spec.
    rewrite bind_call_run. destruct (srv h _ _) as [err|db]; [discriminate|].
    rewrite bind_call_run. destruct (srv _ _ _) as [err|table]; [discriminate|].
    rewrite bind_call_run. destruct (srv _ _ _) as [err|res]; [discriminate|].
    intros _. eexists. split; [cbn [snd sleep In]; right; right; left; reflexivity|].
    reflexivity.
  - vm_compute. reflexivity.
  - exact upsert_data_ids_distinct.
  - apply Forall_forall. intros row Hin.
    assert (H : forallb (fun row => match row_id row with Some _ => true | None => false end)
                  (upsert_literal_rows ++ map upsert_generated_row (count_from 6 95))
                = true) by (vm_compute; reflexivity).
    rewrite forallb_forall in H. specialize (H row Hin).
    destruct (row_id row); [discriminate|discriminate H].
Qed.

(** * The number a binary list stands for *)


Lemma bits_value_snoc l b : bits_value (l ++ [b]) = 2 * bits_value l + b.
Proof. unfold bits_value. rewrite fold_left_app. reflexivity. Qed.

Lemma pos_bits_value p : bits_value (pos_bits p) = Zpos p.
Proof.
  induction p; cbn [pos_bits]; rewrite ?bits_value_snoc, ?IHp; try lia.
  reflexivity.
Qed.

Lemma bits_value_zeros n l : bits_value (repeat 0 n ++ l) = bits_value l.
Proof.
  unfold bits_value. rewrite fold_left_app. f_equal.
  induction n as [|n IH]; [reflexivity|]. cbn [repeat fold_left]. exact IH.
Qed.

(** The leading [k] digits of [p] stand for [p] shifted right. *)
Lemma pos_bits_firstn p : forall k,
  (k <= List.length (pos_bits p))%nat ->
  bits_value (firstn k (pos_bits p)) =
  Zpos p / 2 ^ Z.of_nat (List.length (pos_bits p) - k).
Proof.
  induction p as [q IH|q IH|]; intros k Hk; cbn [pos_bits] in *.
  - rewrite length_app in *. cbn [List.length] in *.
    destruct (Nat.eq_dec k (List.length (pos_bits q) + 1)) as [->|Hne].
    + rewrite firstn_all2 by (rewrite length_app; cbn; lia).
      rewrite bits_value_snoc, pos_bits_value, Nat.sub_diag. cbn [Z.of_nat].
      rewrite Z.pow_0_r, Z.div_1_r. lia.
    + rewrite firstn_app.
      replace (k - List.length (pos_bits q))%nat with 0%nat by lia.
      cbn [firstn]. rewrite app_nil_r, IH by lia.
      replace (List.length (pos_bits q) + 1 - k)%nat
        with (S (List.length (pos_bits q) - k)) by lia.
      rewrite Nat2Z.inj_succ, Z.pow_succ_r by lia.
      rewrite <- Z.div_div by (try lia; apply Z.pow_pos_nonneg; lia).
      f_equal. change (Zpos q~1) with (2 * Zpos q + 1).
      rewrite Z.mul_comm, Z.div_add_l by lia. reflexivity.
  - rewrite length_app in *. cbn [List.length] in *.
    destruct (Nat.eq_dec k (List.length (pos_bits q) + 1)) as [->|Hne].
    + rewrite firstn_all2 by (rewrite length_app; cbn; lia).
      rewrite bits_value_snoc, pos_bits_value, Nat.sub_diag. cbn [Z.of_nat].
      rewrite Z.pow_0_r, Z.div_1_r. lia.
    + rewrite firstn_app.
      replace (k - List.length (pos_bits q))%nat with 0%nat by lia.
      cbn [firstn]. rewrite app_nil_r, IH by lia.
      replace (List.length (pos_bits q) + 1 - k)%nat
        with (S (List.length (pos_bits q) - k)) by lia.
      rewrite Nat2Z.inj_succ, Z.pow_succ_r by lia.
      rewrite <- Z.div_div by (try lia; apply Z.pow_pos_nonneg; lia).
      f_equal. change (Zpos q~0) with (2 * Zpos q).
      rewrite Z.mul_comm, Z.div_mul by lia. reflexivity.
  - cbn [List.length] in Hk. destruct k as [|[|k]]; [reflexivity|reflexivity|lia].
Qed.

(** The list [num_to_binary_list] returns stands for [num] when [num]
    fits in [dimension] bits: the conversion loses nothing, and two
    such numbers with the same list are the same number. When [num]
    does not fit, the list stands for [num] without its low-order bits,
    [num] divided by 2 as many times as it has bits too many. *)
Theorem num_to_binary_list_value (num dimension : Z) (l : list Z) :
  0 <= num -> 1 <= dimension ->
  num_to_binary_list num dimension = Ok l ->
  (num < 2 ^ dimension -> bits_value l = num) /\
  (2 ^ dimension <= num ->
   bits_value l = num / 2 ^ (Z.log2 num + 1 - dimension)).
Proof.
  intros Hn Hd. unfold num_to_binary_list. cbv zeta.
  rewrite (ints_of_bin num Hn).
  assert (Hval : bits_value (nat_bits num) = num).
  { destruct num as [|p|p]; [reflexivity|apply pos_bits_value|lia]. }
  assert (Hlen : (num = 0 /\ Py.len (nat_bits num) = 1) \/
                 (0 < num /\ Py.len (nat_bits num) = Z.log2 num + 1)).
  { destruct (Z.eq_dec num 0) as [->|]; [left; split; reflexivity|].
    right. split; [lia | apply nat_bits_len_pos; lia]. }
  assert (Hcmp : 2 ^ dimension <= num <-> Py.len (nat_bits num) > dimension).
  { destruct Hlen as [[-> ->]|[Hpos ->]].
    - assert (0 < 2 ^ dimension) by (apply Z.pow_pos_nonneg; lia). lia.
    - rewrite (Z.log2_le_pow2 num dimension Hpos). lia. }
  unfold Py.len in *.
  destruct (Z.gtb_spec (Z.of_nat (List.length (nat_bits num))) dimension) as [Hgt|Hle].
  - unfold Py.slice_to. destruct (Z.leb_spec 0 dimension); try lia.
    destruct (_ =? _); [|discriminate]. intros Hl. injection Hl as <-.
    split; [intros Hlt; assert (2 ^ dimension <= num) by (apply Hcmp; lia); lia|].
    intros _. destruct Hlen as [[-> E]|[Hpos E]]; [lia|].
    destruct num as [|p|p]; try lia. cbn [nat_bits] in *.
    rewrite pos_bits_firstn by lia. do 2 f_equal. lia.
  - destruct (Z.ltb_spec (Z.of_nat (List.length (nat_bits num))) dimension) as [Hlt|Hge].
    + unfold Py.list_mul. destruct (_ =? _); [|discriminate].
      intros Hl. injection Hl as <-. rewrite bits_value_zeros.
      split; [intros _; exact Hval|]. intros Hbig. apply Hcmp in Hbig. lia.
    + destruct (_ =? _); [|discriminate]. intros Hl. injection Hl as <-.
      split; [intros _; exact Hval|]. intros Hbig. apply Hcmp in Hbig. lia.
Qed.

(** 5 in 8 bits stands for 5; of 300, which has 9 bits, 4 bits keep
    300 / 32 = 9. *)
Lemma num_to_binary_list_value_witness :
  bits_value [0; 0; 0; 0; 0; 1; 0; 1] = 5 /\
  bits_value [1; 0; 0; 1] = 300 / 2 ^ (Z.log2 300 + 1 - 4).
Proof.
  split.
  - apply (num_to_binary_list_value 5 8 [0; 0; 0; 0; 0; 1; 0; 1]);
      [lia | lia | reflexivity | reflexivity].
  - apply (num_to_binary_list_value 300 4 [1; 0; 0; 1]);
      [lia | lia | reflexivity | vm_compute; discriminate].
Defined.

(** * The data of the binary example *)


Lemma encodesb_encodes dimension num bits :
  encodesb dimension num bits = true -> encodes dimension num bits.
Proof.
  unfold encodesb, encodes. rewrite !andb_true_iff, !Z.eqb_eq, forallb_forall.
  intros [[Hl Hb] Hv]. split; [exact Hl|]. split; [|exact Hv].
  apply Forall_forall. intros b Hin. specialize (Hb b Hin).
  apply orb_true_iff in Hb. rewrite !Z.eqb_eq in Hb. exact Hb.
Qed.

Lemma binary_row_of_row row id bits :
  binary_row_of row = Some (id, bits) ->
  row = [ ("id"%string, CVal (VStr id));
          ("vector"%string, CVec (BinaryVector_from_binary_list bits)) ].
Proof.
  unfold binary_row_of.
  destruct row as [|[k1 [[| | | |s| |]|v1]] [|[k2 [v2|[l|b|d]]] [|]]];
    try discriminate.
  destruct (String.eqb k1 "id") eqn:E1; [|discriminate].
  destruct (String.eqb k2 "vector") eqn:E2; [|discriminate].
  apply String.eqb_eq in E1, E2. subst. cbn. intros H. injection H as <- <-.
  reflexivity.
Qed.

Lemma is_binary_row_spec dimension num row :
  is_binary_row dimension num row = true ->
  exists bits, row = binary_row num bits /\ encodes dimension num bits.
Proof.
  unfold is_binary_row. destruct (binary_row_of row) as [[id bits]|] eqn:E;
    [|discriminate].
  rewrite andb_true_iff, String.eqb_eq. intros [-> Hb].
  exists bits. split; [apply binary_row_of_row; exact E|].
  apply encodesb_encodes. exact Hb.
Qed.

Lemma are_binary_rows_spec dimension nums : forall rows,
  are_binary_rows dimension nums rows = true ->
  Forall2 (fun num row => exists bits, row = binary_row num bits /\
                                       encodes dimension num bits) nums rows.
Proof.
  induction nums as [|num nums IH]; intros [|row rows] H; try discriminate H.
  - constructor.
  - cbn [are_binary_rows] in H. apply andb_true_iff in H. destruct H as [H1 H2].
    constructor; [apply is_binary_row_spec; exact H1 | apply IH; exact H2].
Qed.

Lemma map_M_pure {A B} (f : A -> M B) (g : A -> B) (l : list A) :
  (forall x, In x l -> forall h, f x h = (Ok (g x), [])) ->
  forall h, map_M f l h = (Ok (map g l), []).
Proof.
  induction l as [|x l IH]; intros Hf h; cbn [map_M map].
  - reflexivity.
  - unfold bind at 1. rewrite (Hf x (or_introl eq_refl)).
    unfold bind at 1. rewrite IH by (intros y Hy; apply Hf; right; exact Hy).
    reflexivity.
Qed.

Lemma wp_map_M_pure {S} (step : S -> Event -> option S) {A B}
    (f : A -> M B) (g : A -> B) (l : list A) (Q : Res (list B) -> S -> Prop) s :
  (forall x, In x l -> forall h, f x h = (Ok (g x), [])) ->
  Q (Ok (map g l)) s ->
  wp step (map_M f l) Q s.
Proof.
  intros Hf HQ h. unfold accepted. rewrite (map_M_pure f g l Hf). exact HQ.
Qed.

Lemma binary_example_row_run x h :
  In x (Py.range 50) ->
  (bits <- lift (num_to_binary_list x 128) ;;
   ret [ ("id"%string, CVal (VStr (Py.str x)));
         ("vector"%string, CVec (BinaryVector_from_binary_list bits)) ]) h =
  (Ok (binary_example_row x), []).
Proof.
  intros Hin. apply binary_rows_convert in Hin. unfold binary_example_row.
  unfold bind, lift, ret.
  destruct (num_to_binary_list x 128); [reflexivity|discriminate..].
Qed.

Ltac binary_simp :=
  rewrite ?guard_step_eq;
  repeat match goal with
         | |- context [other_binary_data ?d ?n ?t ?e] =>
             let v := eval vm_compute in (other_binary_data d n t e) in
             change (other_binary_data d n t e) with v
         end;
  cbv [never]; cbn [orb].

Ltac binary_step :=
  lazymatch goal with
  | |- wp _ (map_M _ (Py.range 50)) _ _ =>
      apply wp_map_M_pure with (g := binary_example_row);
      [ intros ? ? ?; apply binary_example_row_run; assumption | ]
  | |- wp _ (lift (num_to_binary_list 123 128)) _ _ =>
      let v := eval vm_compute in (num_to_binary_list 123 128) in
      change (num_to_binary_list 123 128) with v
  | _ => wp_step binary_simp
  end.

Lemma binary_example_data_wp srv fuel self :
  wp (guard_step (other_binary_data 128 (Py.range 50) 123) never)
     (binary_vector_usage_example srv fuel self) (fun _ _ => True) false.
Proof.
  unfold binary_vector_usage_example. cbv zeta. repeat binary_step;
    first [exact I | reflexivity].
Qed.

Lemma binary_target_request req bits limit :
  binary_target req = Some (bits, limit) ->
  req = Topk {| topk_vector_field := "vector";
                topk_vector := BinaryVector_from_binary_list bits;
                topk_limit := limit; topk_filter := None;
                topk_config := None |}.
Proof.
  destruct req as [[field vector lim filter config]| | |]; try discriminate.
  unfold binary_target. cbn [topk_vector topk_filter topk_config
                             topk_vector_field topk_limit].
  destruct vector as [|b|]; try discriminate.
  destruct filter; try discriminate. destruct config; try discriminate.
  destruct (String.eqb field "vector") eqn:E; [|discriminate].
  apply String.eqb_eq in E. subst. intros H. injection H as <- <-. reflexivity.
Qed.

(** What the binary example stores and searches with: its one upsert
    writes a row for each number of [range(50)], in order, with
    [str(num)] as id and, as vector, 128 bits (the dimension the table
    declares) that stand for [num]; its search asks for the 10 rows
    nearest to the 128 bits that stand for 123. *)
Theorem binary_example_data (srv : Server) (fuel : nat) (self : TestMochow)
    (h : list Event) :
  Forall (fun e =>
    (forall rows, upserted e = Some rows ->
       Forall2 (fun num row => exists bits, row = binary_row num bits /\
                                            encodes 128 num bits)
               (Py.range 50) rows) /\
    (forall req, searched e = Some req ->
       exists bits,
         req = Topk {| topk_vector_field := "vector";
                       topk_vector := BinaryVector_from_binary_list bits;
                       topk_limit := Some 10; topk_filter := None;
                       topk_config := None |} /\
         encodes 128 123 bits))
    (snd (binary_vector_usage_example srv fuel self h)).
Proof.
  destruct (wp_run h (binary_example_data_wp srv fuel self)) as (s' & Hrun & _).
  apply guard_run in Hrun. destruct Hrun as [HF _].
  revert HF. apply Forall_impl. intros e HF. split.
  - intros rows Hu. destruct e as [R c r| |]; try discriminate Hu.
    destruct c; try discriminate Hu. cbn [upserted] in Hu. injection Hu as ->.
    cbn [other_binary_data] in HF. apply negb_false_iff in HF.
    apply are_binary_rows_spec. exact HF.
  - intros req Hs. destruct e as [R c r| |]; try discriminate Hs.
    destruct c; try discriminate Hs. cbn [searched] in Hs. injection Hs as ->.
    cbn [other_binary_data] in HF.
    destruct (binary_target req) as [[bits [limit|]]|] eqn:E; try discriminate HF.
    apply negb_false_iff, andb_true_iff in HF. destruct HF as [Hb Hl].
    apply Z.eqb_eq in Hl. subst limit.
    exists bits. split; [apply binary_target_request; exact E|].
    apply encodesb_encodes. exact Hb.
Qed.

(** On [demo_server] the example gets to its upsert and to its search. *)
Example binary_example_upserts_and_searches :
  existsb (fun e => match upserted e with Some _ => true | None => false end)
          (snd (binary_vector_usage_example demo_server 5 main_test_vdb [])) = true /\
  existsb (fun e => match searched e with Some _ => true | None => false end)
          (snd (binary_vector_usage_example demo_server 5 main_test_vdb [])) = true.
Proof. split; vm_compute; reflexivity. Qed.

(** * Creating a database after cleaning up *)


Lemma database_eqb_refl db : database_eqb db db = true.
Proof. apply String.eqb_refl. Qed.

Ltac clean_simp :=
  cbn [clean_step];
  rewrite ?database_eqb_refl;
  repeat match goal with
         | |- context [String.eqb ?a ?b] =>
             let v := eval vm_compute in (String.eqb a b) in
             change (String.eqb a b) with v
         end;
  cbv beta iota.

Ltac clean_done := cbn [pass]; first [exact I | reflexivity].

Ltac clean_method := wp_auto clean_simp; clean_done.

Lemma clean_clear srv self s :
  wp clean_step (clear srv self) (pass (fun s' => s' = Absent "book") anything) s.
Proof. unfold clear, anything. clean_method. Qed.

Lemma clean_create_db_and_table srv fuel self :
  wp clean_step (create_db_and_table srv fuel self)
     (pass (fun _ => True) anything) (Absent "book").
Proof. unfold create_db_and_table, anything. clean_method. Qed.

(** The steps after [create_db_and_table] start with a lookup. *)
Lemma clean_steps srv fuel :
  Forall (fun m => forall self s,
            wp clean_step (m self) (pass (fun _ => True) anything) s)
         (skipn 2 (demo_steps srv fuel)).
Proof.
  cbn [skipn demo_steps]. unfold anything. repeat constructor; intros self s.
  - unfold upsert_data. clean_method.
  - unfold select_data. clean_method.
  - unfold change_table_schema. clean_method.
  - unfold show_table_stats. clean_method.
  - unfold query_data. clean_method.
  - unfold batch_query_data. clean_method.
  - unfold vector_search. clean_method.
  - unfold search_iterator. clean_method.
  - unfold bm25_search. clean_method.
  - unfold hybrid_search. clean_method.
  - unfold update_data. clean_method.
  - unfold delete_data. clean_method.
  - unfold drop_and_create_vindex. clean_method.
  - unfold binary_vector_usage_example. clean_method.
  - unfold sparse_vector_usage_example. clean_method.
  - unfold delete_and_drop. clean_method.
Qed.

Lemma wp_seq {S} (step : S -> Event -> option S) (m : M unit) (rest : M unit)
    (Q : Res unit -> S -> Prop) (s s1 : S) :
  wp step m (pass (fun s' => s' = s1) Q) s ->
  wp step rest Q s1 ->
  wp step (m ;; rest) Q s.
Proof.
  intros Hm Hrest. apply wp_bind. eapply wp_mono; [|exact Hm].
  intros [[]|e|] s' H; cbn [after pass] in *; [subst; exact Hrest|exact H..].
Qed.

Lemma clean_main srv fuel s :
  wp clean_step (main srv fuel) anything s.
Proof.
  apply wp_ext with
    (m' := run_steps (map (fun m => m main_test_vdb) (demo_steps srv fuel)));
    [apply main_run_steps|].
  change (demo_steps srv fuel)
    with (clear srv :: create_db_and_table srv fuel :: skipn 2 (demo_steps srv fuel)).
  cbn [map run_steps].
  eapply wp_seq; [apply clean_clear|].
  apply wp_bind. eapply wp_mono; [|apply clean_create_db_and_table].
  intros [[]|e|] s' _; cbn [after]; try exact I.
  apply wp_run_steps with (Inv := fun _ => True); [intros; exact I| |exact I].
  apply Forall_map. generalize (clean_steps srv fuel). apply Forall_impl.
  intros m Hm s0 _. apply Hm.
Qed.

Lemma known_of_more s pre e :
  known_of s pre -> resets e = false -> known_of s (pre ++ [e]).
Proof.
  destruct s as [|name|name db]; cbn [known_of]; [auto|..].
  - intros (pre1 & l & pre2 & -> & HF & H) He.
    exists pre1, l, (pre2 ++ [e]). rewrite <- app_assoc. split; [reflexivity|].
    split; [apply Forall_app; split; [exact HF|repeat constructor; exact He]|].
    destruct H as [H|(db & Hf & Hd)]; [left; exact H|right].
    exists db. split; [exact Hf|]. rewrite existsb_app, Hd. reflexivity.
  - intros (pre1 & l & pre2 & -> & HF & H) He.
    exists pre1, l, (pre2 ++ [e]). rewrite <- app_assoc. split; [reflexivity|].
    split; [apply Forall_app; split; [exact HF|repeat constructor; exact He]|].
    exact H.
Qed.

Lemma database_eqb_eq a b : database_eqb a b = true -> a = b.
Proof.
  destruct a as [x], b as [y]. unfold database_eqb. cbn.
  intros H. apply String.eqb_eq in H. subst. reflexivity.
Qed.

Lemma clean_monitor_known pre : forall s,
  mon_run clean_step Unknown pre = Some s -> known_of s pre.
Proof.
  induction pre as [|e pre IH] using rev_ind; intros s H.
  - injection H as <-. exact I.
  - apply mon_run_last in H. destruct H as (s1 & Hpre & Hstep).
    specialize (IH s1 Hpre).
    destruct e as [R c r|n|t a]; cbn [clean_step] in Hstep;
      try (injection Hstep as <-; apply known_of_more; [exact IH|reflexivity]).
    destruct c;
      try (injection Hstep as <-; apply known_of_more; [exact IH|reflexivity]).
    + (* database *)
      destruct r as [[msg|code msg|cl msg]|db]; injection Hstep as <-;
        cbn [known_of]; try exact I.
      * exists pre, (EvCall (client_database c name) (inl (ClientError msg))), [].
        split; [reflexivity|]. split; [constructor|]. left. cbn.
        apply String.eqb_refl.
      * exists pre, (EvCall (client_database c name) (inr db)), [].
        split; [reflexivity|]. split; [constructor|]. cbn.
        rewrite String.eqb_refl. reflexivity.
    + (* create_database *)
      destruct s1 as [|name'|name' db']; try discriminate Hstep.
      destruct (String.eqb name name'); [|discriminate Hstep].
      injection Hstep as <-. exact I.
    + (* drop_database *)
      destruct s1 as [|name'|name' db'];
        try (injection Hstep as <-; apply known_of_more; [exact IH|reflexivity]).
      destruct r as [err|v];
        try (injection Hstep as <-; apply known_of_more; [exact IH|reflexivity]).
      destruct (database_eqb db db') eqn:E;
        try (injection Hstep as <-; apply known_of_more; [exact IH|reflexivity]).
      injection Hstep as <-. cbn [known_of] in *.
      destruct IH as (pre1 & l & pre2 & -> & HF & Hf).
      exists pre1, l, (pre2 ++ [EvCall (db_drop_database db) (inr v)]).
      rewrite <- app_assoc. split; [reflexivity|].
      split; [apply Forall_app; split; [exact HF|repeat constructor]|].
      right. exists db'. split; [exact Hf|].
      rewrite existsb_app. cbn [existsb drops]. rewrite E.
      rewrite orb_true_r. reflexivity.
Qed.

(** What the cleanup monitor accepts creates after cleanup. *)
Lemma clean_monitor_sound ev s' :
  mon_run clean_step Unknown ev = Some s' -> creates_after_cleanup ev.
Proof.
  intros Hrun pre e post name Hev Hc. rewrite Hev in Hrun.
  apply mon_run_split in Hrun. destruct Hrun as (s1 & s2 & Hpre & Hstep & _).
  apply clean_monitor_known in Hpre.
  destruct e as [R c r|n|t a]; try discriminate Hc.
  destruct c; try discriminate Hc. cbn [creates_database] in Hc.
  apply String.eqb_eq in Hc. subst name0.
  cbn [clean_step] in Hstep.
  destruct s1 as [|name'|name' db']; try discriminate Hstep.
  destruct (String.eqb name name') eqn:E; [|discriminate Hstep].
  apply String.eqb_eq in E. subst name'. exact Hpre.
Qed.

(** The script creates a database only after it has cleaned up what an
    earlier run may have left of it: in every run of [main] and of each
    usage example, the last lookup before a [create_database] is a
    lookup of the same name that raised a ClientError, or returned a
    handle on which [drop_database] has returned since. *)
Theorem databases_are_created_after_cleanup (srv : Server) (fuel : nat) :
  (forall h, creates_after_cleanup (snd (main srv fuel h))) /\
  (forall self h,
     creates_after_cleanup (snd (binary_vector_usage_example srv fuel self h))) /\
  (forall self h,
     creates_after_cleanup (snd (sparse_vector_usage_example srv fuel self h))).
Proof.
  pose proof (clean_steps srv fuel) as Hs. cbn [skipn demo_steps] in Hs.
  rewrite Forall_forall in Hs.
  split; [|split].
  - intros h. destruct (wp_run h (clean_main srv fuel Unknown)) as (s' & Hrun & _).
    eapply clean_monitor_sound. exact Hrun.
  - intros self h.
    assert (H : wp clean_step (binary_vector_usage_example srv fuel self)
                   (pass (fun _ => True) anything) Unknown).
    { apply (Hs (binary_vector_usage_example srv fuel)). cbn. auto 20. }
    destruct (wp_run h H) as (s' & Hrun & _).
    eapply clean_monitor_sound. exact Hrun.
  - intros self h.
    assert (H : wp clean_step (sparse_vector_usage_example srv fuel self)
                   (pass (fun _ => True) anything) Unknown).
    { apply (Hs (sparse_vector_usage_example srv fuel)). cbn. auto 20. }
    destruct (wp_run h H) as (s' & Hrun & _).
    eapply clean_monitor_sound. exact Hrun.
Qed.

(** * Failed calls end the run *)

Lemma fate_run_place pre : forall s p s',
  place_of s = Some p ->
  mon_run fate_step s pre = Some s' ->
  match s' with
  | Failed _ => True
  | _ => place_of s' = Some (fold_left place_after pre p)
  end.
Proof.
  induction pre as [|e pre IH]; intros s p s' Hp H; cbn [mon_run fold_left] in *.
  - injection H as <-. destruct s; try exact I; exact Hp.
  - destruct (fate_step s e) as [s1|] eqn:E; [|discriminate H].
    destruct s as [q|q|err]; try discriminate E; cbn [place_of] in Hp;
      injection Hp as ->; cbn [fate_step] in E;
      destruct (failure e); try destruct (in_reach _ e);
      injection E as <-;
      try (eapply IH; [|exact H]; reflexivity);
      destruct pre; cbn [mon_run fate_step] in H; try discriminate H;
      injection H as <-; exact I.
Qed.

Lemma mon_run_fate_Failed err ev s' :
  mon_run fate_step (Failed err) ev = Some s' -> ev = [] /\ s' = Failed err.
Proof.
  destruct ev; simpl; [|discriminate]. intros H. injection H as <-. auto.
Qed.

Lemma fate_sound p (out : Res unit * list Event) s' :
  mon_run fate_step (Going p) (snd out) = Some s' ->
  fate_final (fst out) s' ->
  fatal_out_of_reach p out.
Proof.
  intros Hrun Hfin. split.
  - intros pre e err post Hev Hf. rewrite Hev in Hrun.
    apply mon_run_split in Hrun. destruct Hrun as (s1 & s2 & Hpre & Hstep & Hpost).
    pose proof (fate_run_place pre (Going p) p s1 eq_refl Hpre) as Hp.
    destruct s1 as [q|q|err0]; [| |discriminate Hstep];
      cbn [place_of] in Hp; injection Hp as ->;
      cbn [fate_step] in Hstep; rewrite Hf in Hstep;
      destruct (in_reach _ e); injection Hstep as <-.
    + intros ->. injection Hpost as <-. exact Hfin.
    + apply mon_run_fate_Failed in Hpost. destruct Hpost as [-> ->].
      split; [reflexivity|exact Hfin].
    + intros ->. injection Hpost as <-. exact Hfin.
    + apply mon_run_fate_Failed in Hpost. destruct Hpost as [-> ->].
      split; [reflexivity|exact Hfin].
  - intros err Hr.
    destruct out as [r ev]. cbn [fst snd] in *. subst r.
    destruct ev as [|e0 ev0 _] using rev_ind.
    + injection Hrun as <-. destruct (Hfin err eq_refl).
    + apply mon_run_last in Hrun. destruct Hrun as (s1 & Hpre & Hstep).
      pose proof (fate_run_place _ (Going p) p s1 eq_refl Hpre) as Hp.
      exists ev0, e0. split; [reflexivity|].
      destruct s1 as [q|q|err0]; [| |discriminate Hstep];
        cbn [place_of] in Hp; injection Hp as ->;
        cbn [fate_step] in Hstep;
        destruct (failure e0) as [err1|]; try destruct (in_reach _ e0);
        injection Hstep as <-; cbn [fate_final] in Hfin;
        try contradiction;
        try (destruct (Hfin err eq_refl));
        injection Hfin as ->; split; reflexivity.
Qed.


Ltac fate_simp :=
  cbv [fate_step failure in_reach place_after is_created created cleaning waiting
       existsb is_drop_index_ok index_gone];
  repeat match goal with
         | |- context [String.eqb ?a ?b] =>
             let v := eval vm_compute in (String.eqb a b) in
             change (String.eqb a b) with v
         end;
  repeat match goal with
         | H : ServerErrCode.eqb _ _ = _ |- _ => rewrite H
         end;
  cbn [orb negb andb].

Ltac fate_done :=
  cbn [fate_final]; try own_exception;
  first [ reflexivity
        | discriminate
        | let H := fresh in intros ? H; first [discriminate H | congruence] ].

Ltac fate_method :=
  unfold at_start, with_databases; wp_auto fate_simp; fate_done.

Lemma fate_steps srv fuel :
  Forall2 (fun m places =>
             forall self,
               wp fate_step (m self)
                  (pass (fun s => s = Going (snd places)) fate_final)
                  (Going (fst places)))
          (demo_steps srv fuel) (combine step_places (tl main_places)).
Proof.
  unfold demo_steps. cbn [step_places main_places removelast tl combine app repeat].
  repeat constructor; intros self; cbn [fst snd].
  - unfold clear. fate_method.
  - unfold create_db_and_table. fate_method.
  - unfold upsert_data. fate_method.
  - unfold select_data. fate_method.
  - unfold change_table_schema. fate_method.
  - unfold show_table_stats. fate_method.
  - unfold query_data. fate_method.
  - unfold batch_query_data. fate_method.
  - unfold vector_search. fate_method.
  - unfold search_iterator. fate_method.
  - unfold bm25_search. fate_method.
  - unfold hybrid_search. fate_method.
  - unfold update_data. fate_method.
  - unfold delete_data. fate_method.
  - unfold drop_and_create_vindex. fate_method.
  - unfold binary_vector_usage_example. fate_method.
  - unfold sparse_vector_usage_example. fate_method.
  - unfold delete_and_drop. fate_method.
Qed.

Lemma fate_main srv fuel :
  wp fate_step (main srv fuel) fate_final (Going at_start).
Proof.
  apply wp_ext with
    (m' := run_steps (map (fun m => m main_test_vdb) (demo_steps srv fuel)));
    [apply main_run_steps|].
  pose proof (fate_steps srv fuel) as Hs. unfold demo_steps in Hs.
  cbn [step_places main_places removelast tl combine app repeat] in Hs.
  cbn [demo_steps map run_steps].
  repeat match type of Hs with
         | Forall2 _ (_ :: _) (_ :: _) =>
             let Hm := fresh "Hm" in
             let Hs' := fresh "Hs" in
             inversion Hs as [|? ? ? ? Hm Hs']; subst; clear Hs; rename Hs' into Hs;
             eapply wp_seq; [apply (Hm main_test_vdb)|]; cbn [fst snd]; clear Hm
         end.
  apply wp_ret. intros err H. discriminate H.
Qed.

Lemma pass_fate_final p r s :
  pass (fun s => s = Going p) fate_final r s -> fate_final r s.
Proof.
  destruct r as [[]|e|]; cbn [pass]; [|auto..].
  intros ->. intros err H. discriminate H.
Qed.

(** An SDK call that fails where no handler is in reach ends the run
    and is its outcome; one that fails in reach of a handler does not
    end the run; and a run that ends with an SDK exception ends with a
    call that failed out of reach: in [main], and in each step from the
    place where [main] gets to it. *)
Theorem sdk_failures_end_the_run (srv : Server) (fuel : nat) :
  (forall h, fatal_out_of_reach at_start (main srv fuel h)) /\
  Forall2 (fun m p => forall self h, fatal_out_of_reach p (m self h))
          (demo_steps srv fuel) step_places.
Proof.
  split.
  - intros h. destruct (wp_run h (fate_main srv fuel)) as (s' & Hrun & Hfin).
    eapply fate_sound; eassumption.
  - pose proof (fate_steps srv fuel) as Hs. unfold demo_steps in *.
    cbn [step_places main_places removelast tl combine app repeat] in *.
    repeat match type of Hs with
           | Forall2 _ (_ :: _) (_ :: _) =>
               let Hm := fresh "Hm" in
               let Hs' := fresh "Hs" in
               inversion Hs as [|? ? ? ? Hm Hs']; subst; clear Hs;
               rename Hs' into Hs; constructor;
               [ intros self h; cbn [fst snd] in Hm;
                 destruct (wp_run h (Hm self)) as (s' & Hrun & Hfin);
                 eapply fate_sound; [exact Hrun|];
                 eapply pass_fate_final; exact Hfin
               | clear Hm ]
           end.
    constructor.
Qed.

(** The handlers by place tell the two [describe_index] of
    [drop_and_create_vindex] apart, and the [drop_table] of [clear]
    from that of [delete_and_drop]. *)
Example in_reach_tells (c : MochowClient) (db : Database) (t : Table)
    (r : Response) (code : ServerErrCode.t) (msg : string) :
  let failed := EvCall (table_describe_index t "vector_idx")
                       (inl (ServerError code msg)) in
  let dropped := EvCall (table_drop_index t "vector_idx") (inr r) in
  let gone := EvCall (table_describe_index t "vector_idx")
                     (inl (ServerError ServerErrCode.INDEX_NOT_EXIST msg)) in
  let lookup := EvCall (client_database c "book") (inr db) in
  let drop_table := EvCall (db_drop_table db "book_segments")
                           (inl (ServerError code msg)) in
  in_reach (fold_left place_after [dropped] at_start) failed = true /\
  in_reach (fold_left place_after [dropped; gone] at_start) failed = false /\
  in_reach (fold_left place_after [lookup] at_start) drop_table = true /\
  in_reach (fold_left place_after [lookup] (with_databases ["book"%string])) drop_table
    = false.
Proof. cbv zeta. repeat split; reflexivity. Qed.

(** On the stale service the [drop_table] of [delete_and_drop] fails
    out of reach of a handler and ends the run of [main]. *)
Lemma sdk_failures_end_the_run_witness :
  let err := ServerError (ServerErrCode.Other 500) "internal error" in
  exists pre e,
    snd (main (stale_server err) 5 []) = pre ++ [e] /\
    failure e = Some err /\
    in_reach (fold_left place_after pre at_start) e = false.
Proof.
  exact (proj2 (proj1 (sdk_failures_end_the_run
                         (stale_server (ServerError (ServerErrCode.Other 500)
                                          "internal error")) 5) [])
               _ stale_main_ends_in_delete_and_drop).
Defined.

(** * Names and dimensions the script uses *)


Lemma checked_run {S} (check : S -> Event -> bool) (next : S -> Event -> S) ev :
  forall s s',
    mon_run (checked_step check next) s ev = Some s' ->
    s' = fold_left next ev s /\
    forall pre e post, ev = pre ++ e :: post ->
                       check (fold_left next pre s) e = true.
Proof.
  induction ev as [|e0 ev IH]; intros s s' H; cbn [mon_run] in H.
  - injection H as <-. split; [reflexivity|].
    intros [|x pre] e post Hev; discriminate Hev.
  - unfold checked_step in H at 1. destruct (check s e0) eqn:Hc; [|discriminate H].
    destruct (IH _ _ H) as [-> Hall]. split; [reflexivity|].
    intros [|e1 pre] e post Hev; injection Hev as <- Hev.
    + exact Hc.
    + cbn [fold_left]. eapply Hall. exact Hev.
Qed.

Ltac named_simp :=
  repeat match goal with
         | |- context [checked_step well_named declare ?s ?e] =>
             let v := eval vm_compute in (checked_step well_named declare s e) in
             change (checked_step well_named declare s e) with v
         end.

Ltac named_step :=
  lazymatch goal with
  | |- wp _ (map_M _ (Py.range 50)) _ _ =>
      first
        [ apply wp_map_M_pure with (g := binary_example_row);
          [ intros ? ? ?; apply binary_example_row_run; assumption | ]
        | apply wp_map_M_pure with (g := sparse_example_row);
          [ intros ? ? ?; reflexivity | ] ]
  | |- wp _ (lift (num_to_binary_list 123 128)) _ _ =>
      let v := eval vm_compute in (num_to_binary_list 123 128) in
      change (num_to_binary_list 123 128) with v
  | _ => wp_step named_simp
  end.

Ltac named_done := cbn [pass]; first [exact I | reflexivity].


Ltac named_method := unfold ends_in; cbv zeta; repeat named_step; named_done.

Section Named.

Variable srv : Server.
Variable fuel : nat.

Lemma named_clear self s :
  wp (checked_step well_named declare) (clear srv self) (ends_in s) s.
Proof. destruct s; unfold clear; named_method. Qed.

Lemma named_create_db_and_table self s :
  supported self.(_vector_index_type) = true ->
  wp (checked_step well_named declare) (create_db_and_table srv fuel self)
     (ends_in book_declared) s.
Proof.
  intros H. destruct s; unfold create_db_and_table; by_index_type self;
    named_method.
Qed.

Lemma named_upsert_data self :
  wp (checked_step well_named declare) (upsert_data srv self)
     (ends_in book_declared) book_declared.
Proof. unfold upsert_data, book_declared. named_method. Qed.

Lemma named_select_data self :
  wp (checked_step well_named declare) (select_data srv fuel self)
     (ends_in book_declared) book_declared.
Proof. unfold select_data, book_declared. named_method. Qed.

Lemma named_change_table_schema self :
  wp (checked_step well_named declare) (change_table_schema srv self)
     (ends_in book_declared_more) book_declared.
Proof. unfold change_table_schema, book_declared. named_method. Qed.

Lemma named_steps self :
  supported self.(_vector_index_type) = true ->
  Forall (fun m => wp (checked_step well_named declare) (m self)
                      (ends_in book_declared_more) book_declared_more)
         [ show_table_stats srv; query_data srv; batch_query_data srv;
           vector_search srv fuel; search_iterator srv fuel; bm25_search srv;
           hybrid_search srv; update_data srv; delete_data srv ].
Proof.
  intros H. repeat constructor.
  - unfold show_table_stats, book_declared_more. named_method.
  - unfold query_data, book_declared_more. named_method.
  - unfold batch_query_data, book_declared_more. named_method.
  - unfold vector_search, book_declared_more. by_index_type self; named_method.
  - unfold search_iterator, book_declared_more. named_method.
  - unfold bm25_search, book_declared_more. named_method.
  - unfold hybrid_search, book_declared_more. by_index_type self; named_method.
  - unfold update_data, book_declared_more. named_method.
  - unfold delete_data, book_declared_more. named_method.
Qed.

Lemma named_drop_and_create_vindex self :
  supported self.(_vector_index_type) = true ->
  wp (checked_step well_named declare) (drop_and_create_vindex srv fuel self)
     (ends_in book_redeclared) book_declared_more.
Proof.
  intros H. unfold drop_and_create_vindex, book_declared_more.
  by_index_type self; named_method.
Qed.

Lemma named_binary_vector_usage_example self s :
  wp (checked_step well_named declare) (binary_vector_usage_example srv fuel self)
     (ends_in binary_declared) s.
Proof. destruct s; unfold binary_vector_usage_example; named_method. Qed.

Lemma named_sparse_vector_usage_example self s :
  wp (checked_step well_named declare) (sparse_vector_usage_example srv fuel self)
     (ends_in sparse_declared) s.
Proof. destruct s; unfold sparse_vector_usage_example; named_method. Qed.

Lemma named_delete_and_drop self s :
  wp (checked_step well_named declare) (delete_and_drop srv self) (ends_in s) s.
Proof. destruct s; unfold delete_and_drop; named_method. Qed.

End Named.

Lemma named_main srv fuel :
  wp (checked_step well_named declare) (main srv fuel) (fun _ _ => True) None.
Proof.
  apply wp_ext with
    (m' := run_steps (map (fun m => m main_test_vdb) (demo_steps srv fuel)));
    [apply main_run_steps|].
  pose proof (named_steps srv fuel main_test_vdb eq_refl) as Hs.
  repeat match type of Hs with
         | Forall _ (_ :: _) =>
             let H := fresh "Hm" in
             apply Forall_cons_iff in Hs; destruct Hs as [H Hs]
         end.
  cbn [demo_steps map run_steps].
  eapply wp_seq; [apply named_clear|].
  eapply wp_seq; [apply named_create_db_and_table; reflexivity|].
  eapply wp_seq; [apply named_upsert_data|].
  eapply wp_seq; [apply named_select_data|].
  eapply wp_seq; [apply named_change_table_schema|].
  eapply wp_seq; [eassumption|].
  eapply wp_seq; [eassumption|].
  eapply wp_seq; [eassumption|].
  eapply wp_seq; [eassumption|].
  eapply wp_seq; [eassumption|].
  eapply wp_seq; [eassumption|].
  eapply wp_seq; [eassumption|].
  eapply wp_seq; [eassumption|].
  eapply wp_seq; [eassumption|].
  eapply wp_seq; [apply named_drop_and_create_vindex; reflexivity|].
  eapply wp_seq; [apply named_binary_vector_usage_example|].
  eapply wp_seq; [apply named_sparse_vector_usage_example|].
  eapply wp_seq; [apply named_delete_and_drop|].
  apply wp_ret. exact I.
Qed.

Lemma named_sound {A} (m : M A) Q s h :
  wp (checked_step well_named declare) m Q s ->
  uses_what_is_declared s (snd (m h)).
Proof.
  intros H. destruct (wp_run h H) as (s' & Hrun & _).
  apply checked_run in Hrun. exact (proj2 Hrun).
Qed.

(** The script uses only names it has declared, and vectors of the
    declared kind and dimension. In every run of [main], and of each
    usage example alone: the indexes of a schema are built on fields of
    that schema; every call on a table comes after a [create_table]; a
    row names declared fields only, gives every [not_null] field, and a
    vector in it is of the kind and the dimension of its field; primary
    keys, projections and fields to update name declared fields;
    searches name a vector field and pass a vector that fits it; and an
    index that is rebuilt, modified, dropped or searched by name is one
    that a schema or [create_indexes] declared and no [drop_index] took
    away. The steps on table "book_segments" do so with what
    [create_db_and_table] and [change_table_schema] declare. *)
Theorem script_uses_what_it_declared (srv : Server) (fuel : nat) :
  (forall h, uses_what_is_declared None (snd (main srv fuel h))) /\
  (forall self h,
     uses_what_is_declared None
       (snd (binary_vector_usage_example srv fuel self h))) /\
  (forall self h,
     uses_what_is_declared None
       (snd (sparse_vector_usage_example srv fuel self h))) /\
  (forall self h,
     supported self.(_vector_index_type) = true ->
     uses_what_is_declared None (snd (create_db_and_table srv fuel self h)) /\
     uses_what_is_declared book_declared (snd (upsert_data srv self h)) /\
     uses_what_is_declared book_declared (snd (select_data srv fuel self h)) /\
     uses_what_is_declared book_declared (snd (change_table_schema srv self h)) /\
     Forall (fun m => uses_what_is_declared book_declared_more (snd (m self h)))
       [ show_table_stats srv; query_data srv; batch_query_data srv;
         vector_search srv fuel; search_iterator srv fuel; bm25_search srv;
         hybrid_search srv; update_data srv; delete_data srv;
         drop_and_create_vindex srv fuel ]).
Proof.
  split; [|split; [|split]].
  - intros h. eapply named_sound. apply named_main.
  - intros self h. eapply named_sound. apply named_binary_vector_usage_example.
  - intros self h. eapply named_sound. apply named_sparse_vector_usage_example.
  - intros self h Hs. repeat split.
    + eapply named_sound. apply named_create_db_and_table. exact Hs.
    + eapply named_sound. apply named_upsert_data.
    + eapply named_sound. apply named_select_data.
    + eapply named_sound. apply named_change_table_schema.
    + pose proof (named_steps srv fuel self Hs) as H.
      repeat match type of H with
             | Forall _ (_ :: _) =>
                 let Hm := fresh "Hm" in
                 apply Forall_cons_iff in H; destruct H as [Hm H]
             end.
      repeat (constructor; [eapply named_sound; eassumption|]).
      constructor; [|constructor].
      eapply named_sound. apply named_drop_and_create_vindex. exact Hs.
Qed.

(** With the HNSW index [main] asks for and on a service where database
    "book" exists, [upsert_data] on [demo_server] gets to its [upsert]
    and uses what [create_db_and_table] declared. *)
Lemma script_uses_what_it_declared_witness :
  supported main_test_vdb.(_vector_index_type) = true /\
  existsb (calls "upsert")
    (snd (upsert_data demo_server main_test_vdb book_created)) = true /\
  uses_what_is_declared book_declared
    (snd (upsert_data demo_server main_test_vdb book_created)).
Proof.
  split; [reflexivity|]. split; [vm_compute; reflexivity|].
  exact (proj1 (proj2 (proj2 (proj2 (proj2
           (script_uses_what_it_declared demo_server 5)))
           main_test_vdb book_created eq_refl))).
Defined.

(** The check tells: a row without its [not_null] vector, a vector of
    another dimension, a projection and an index that are not declared
    do not pass. *)
Example well_named_tells (t : Table) (r : SdkError + Response)
    (r' : SdkError + SelectResult) :
  well_named book_declared
    (EvCall (table_upsert t [[("id"%string, CVal (VStr "7"));
                              ("bookName"%string, CVal (VStr "x"));
                              ("arr_field"%string, CVal (VList []))]]) r) = false /\
  well_named book_declared
    (EvCall (table_vector_search t
               (Topk {| topk_vector_field := "vector";
                        topk_vector := FloatVector [VInt 1; VInt 2; VInt 3];
                        topk_limit := None; topk_filter := None;
                        topk_config := None |}) None) r) = false /\
  well_named book_declared
    (EvCall (table_select t VNone ["publisher"%string] 20) r') = false /\
  well_named book_declared_more
    (EvCall (table_select t VNone ["publisher"%string] 20) r') = true /\
  well_named book_declared (EvCall (table_rebuild_index t "other_idx") r) = false /\
  well_named None (EvCall (table_stats t) r) = false.
Proof. repeat split. Qed.

(** The names [create_db_and_table] declares, those [change_table_schema]
    adds, and the index names once the vector index is made anew. *)
Example book_declared_names :
  option_map (fun d => (map field_name d.(decl_fields), d.(decl_indexes)))
             book_declared =
  Some (["id"; "bookName"; "author"; "page"; "segment"; "vector"; "arr_field";
         "json_field"],
        ["vector_idx"; "book_name_idx"; "book_name_filtering_idx";
         "book_segment_inverted_idx"])%string /\
  option_map (fun d => skipn 8 (map field_name d.(decl_fields))) book_declared_more =
  Some ["publisher"; "synopsis"]%string /\
  option_map decl_indexes book_redeclared =
  Some ["book_name_idx"; "book_name_filtering_idx"; "book_segment_inverted_idx";
        "vector_idx"]%string.
Proof. repeat split. Qed.

(** * Handles *)


Lemma table_eqb_refl t : table_eqb t t = true.
Proof.
  unfold table_eqb. rewrite !String.eqb_refl.
  destruct (table_state t); cbn; [reflexivity|apply String.eqb_refl].
Qed.

Ltac held_simp :=
  unfold checked_step;
  cbn [uses_held obtain database_of table_of held_database held_table];
  rewrite ?database_eqb_refl, ?table_eqb_refl;
  cbn [andb].

Ltac held_method := wp_auto held_simp; first [exact I | reflexivity].

Lemma held_steps srv fuel :
  Forall (fun m => forall self s,
            wp (checked_step uses_held obtain) (m self) (fun _ _ => True) s)
         (demo_steps srv fuel).
Proof.
  repeat constructor; intros self s.
  - unfold clear. held_method.
  - unfold create_db_and_table. held_method.
  - unfold upsert_data. held_method.
  - unfold select_data. held_method.
  - unfold change_table_schema. held_method.
  - unfold show_table_stats. held_method.
  - unfold query_data. held_method.
  - unfold batch_query_data. held_method.
  - unfold vector_search. held_method.
  - unfold search_iterator. held_method.
  - unfold bm25_search. held_method.
  - unfold hybrid_search. held_method.
  - unfold update_data. held_method.
  - unfold delete_data. held_method.
  - unfold drop_and_create_vindex. held_method.
  - unfold binary_vector_usage_example. held_method.
  - unfold sparse_vector_usage_example. held_method.
  - unfold delete_and_drop. held_method.
Qed.

(** The script makes every call on a database on the handle its last
    successful [database] or [create_database] returned, and every call
    on a table on the handle [db.table] has returned since that lookup:
    in every run of [main] and of each step alone. No handle is kept
    from one step to the next, used before it is obtained, or made
    up. *)
Theorem script_uses_the_handles_it_holds (srv : Server) (fuel : nat) :
  (forall h, uses_the_handles_it_holds (snd (main srv fuel h))) /\
  Forall (fun m => forall self h, uses_the_handles_it_holds (snd (m self h)))
         (demo_steps srv fuel).
Proof.
  split.
  - intros h.
    assert (H : wp (checked_step uses_held obtain) (main srv fuel)
                   (fun _ _ => True) no_handles).
    { apply wp_main with (Inv := fun _ => True); [intros; exact I| |exact I].
      generalize (held_steps srv fuel). apply Forall_impl.
      intros m Hm self s _. eapply wp_mono; [|apply Hm].
      intros [[]|e|] s' _; exact I. }
    destruct (wp_run h H) as (s' & Hrun & _).
    apply checked_run in Hrun. exact (proj2 Hrun).
  - generalize (held_steps srv fuel). apply Forall_impl. intros m Hm self h.
    destruct (wp_run h (Hm self no_handles)) as (s' & Hrun & _).
    apply checked_run in Hrun. exact (proj2 Hrun).
Qed.

(** The check tells: a call on a table from a database looked up before
    the last lookup does not pass. *)
Example uses_held_tells (c : MochowClient) (db : Database) (t : Table)
    (r : SdkError + Response) :
  uses_held
    (fold_left obtain
       [EvCall (client_database c "book") (inr db);
        EvCall (db_table db "book_segments") (inr t);
        EvCall (client_database c "book") (inr db)] no_handles)
    (EvCall (table_stats t) r) = false.
Proof. reflexivity. Qed.

(** * Time spent sleeping *)


Lemma fold_left_slept ev : forall s, fold_left slept ev s = s + total_sleep ev.
Proof.
  unfold total_sleep. induction ev as [|e ev IH]; intros s; cbn [fold_left].
  - lia.
  - rewrite IH, (IH (slept 0 e)). destruct e; cbn [slept]; lia.
Qed.

Ltac sleep_simp := unfold checked_step; cbn [slept].

Ltac sleep_step :=
  lazymatch goal with
  | |- wp _ (while_true _ _ _) _ ?s =>
      apply wp_while with (Inv := fun _ s' => s <= s');
      [ intros ? ? ? | intros ? ? ? | lia ]
  | |- at_least _ _ _ => unfold at_least; cbv beta iota; first [exact I | lia]
  | |- _ <= _ => lia
  | |- _ = _ => reflexivity
  | _ => wp_step sleep_simp
  end.

Ltac sleep_method := cbv zeta; repeat sleep_step.

Lemma sleep_steps srv fuel :
  Forall2 (fun m b => forall self s,
             wp (checked_step (fun _ _ => true) slept) (m self)
                (at_least (s + b)) s)
          (demo_steps srv fuel) step_sleeps.
Proof.
  repeat constructor; intros self s.
  - unfold clear. sleep_method.
  - unfold create_db_and_table. sleep_method.
  - unfold upsert_data. sleep_method.
  - unfold select_data. sleep_method.
  - unfold change_table_schema. sleep_method.
  - unfold show_table_stats. sleep_method.
  - unfold query_data. sleep_method.
  - unfold batch_query_data. sleep_method.
  - unfold vector_search. sleep_method.
  - unfold search_iterator. sleep_method.
  - unfold bm25_search. sleep_method.
  - unfold hybrid_search. sleep_method.
  - unfold update_data. sleep_method.
  - unfold delete_data. sleep_method.
  - unfold drop_and_create_vindex. sleep_method.
  - unfold binary_vector_usage_example. sleep_method.
  - unfold sparse_vector_usage_example. sleep_method.
  - unfold delete_and_drop. sleep_method.
Qed.

Lemma wp_then_at_least {S} (step : S -> Event -> option S)
    (m rest : M unit) (P : S -> Prop) (Q : Res unit -> S -> Prop) (s : S) :
  wp step m (fun r s' => match r with Ok _ => P s' | _ => True end) s ->
  (forall e s', Q (Raise e) s') -> (forall s', Q Diverge s') ->
  (forall s', P s' -> wp step rest Q s') ->
  wp step (m ;; rest) Q s.
Proof.
  intros Hm Hraise Hdiv Hrest. apply wp_bind. eapply wp_mono; [|exact Hm].
  intros [[]|e|] s' H; cbn [after]; auto.
Qed.

Lemma sleep_main srv fuel :
  wp (checked_step (fun _ _ => true) slept) (main srv fuel) (at_least 51) 0.
Proof.
  apply wp_ext with
    (m' := run_steps (map (fun m => m main_test_vdb) (demo_steps srv fuel)));
    [apply main_run_steps|].
  pose proof (sleep_steps srv fuel) as Hs. unfold step_sleeps, demo_steps in Hs.
  cbn [demo_steps map run_steps].
  repeat match type of Hs with
         | Forall2 _ (_ :: _) (_ :: _) =>
             let Hm := fresh "Hm" in
             let Hs' := fresh "Hs" in
             inversion Hs as [|? ? ? ? Hm Hs']; subst; clear Hs; rename Hs' into Hs;
             eapply wp_then_at_least;
             [ apply (Hm main_test_vdb) | intros; exact I | intros; exact I
             | cbv beta; intros ? ? ]
         end.
  apply wp_ret. unfold at_least. lia.
Qed.

(** A run of [main] that returns has slept 51 seconds or more: 22 in
    [create_db_and_table], 10 in [upsert_data], 2 in [vector_search], 3
    in [drop_and_create_vindex], 2 in each usage example and 10 in
    [delete_and_drop], at the least; and a run of a step that returns
    has slept the seconds of that step or more. *)
Theorem main_sleeps_51_seconds_or_more (srv : Server) (fuel : nat) :
  (forall h, fst (main srv fuel h) = Ok tt ->
             51 <= total_sleep (snd (main srv fuel h))) /\
  Forall2 (fun m seconds =>
             forall self h, fst (m self h) = Ok tt ->
                            seconds <= total_sleep (snd (m self h)))
          (demo_steps srv fuel) step_sleeps.
Proof.
  split.
  - intros h Hr.
    destruct (wp_run h (sleep_main srv fuel)) as (s' & Hrun & HQ).
    apply checked_run in Hrun. destruct Hrun as [-> _].
    rewrite Hr in HQ. cbn [at_least] in HQ. rewrite fold_left_slept in HQ. lia.
  - generalize (sleep_steps srv fuel). apply Forall2_impl.
    intros m b Hm self h Hr.
    destruct (wp_run h (Hm self 0)) as (s' & Hrun & HQ).
    apply checked_run in Hrun. destruct Hrun as [-> _].
    rewrite Hr in HQ. cbn [at_least] in HQ. rewrite fold_left_slept in HQ. lia.
Qed.

(** On [demo_server], where a table is ready at the third poll, the run
    of [main] sleeps 69 seconds. *)
Example demo_run_sleeps :
  total_sleep (snd (main demo_server 5 [])) = 69.
Proof. vm_compute. reflexivity. Qed.

(** The run of [main] on [demo_server] returns, and has slept its 51
    seconds. *)
Lemma main_sleeps_51_seconds_or_more_witness :
  51 <= total_sleep (snd (main demo_server 5 [])).
Proof.
  exact (proj1 (main_sleeps_51_seconds_or_more demo_server 5) []
               (f_equal fst demo_run)).
Defined.

(** * The order of the searches *)


Lemma fold_left_modes_after ev : forall s,
  fold_left modes_after ev s = s ++ search_modes ev.
Proof.
  unfold search_modes. induction ev as [|e ev IH]; intros s; cbn [fold_left].
  - rewrite app_nil_r. reflexivity.
  - rewrite IH, (IH (modes_after [] e)). unfold modes_after.
    destruct (search_mode_of e); cbn [app]; rewrite <- ?app_assoc; reflexivity.
Qed.

Ltac modes_simp :=
  unfold checked_step; cbn [modes_after search_mode_of];
  rewrite <- ?app_assoc; cbn [app].

Ltac modes_done :=
  unfold modes_are; cbv beta iota; rewrite <- ?app_assoc; cbn [app];
  first
    [ reflexivity
    | rewrite app_nil_r; reflexivity
    | exists 0%nat; cbn [firstn]; rewrite ?app_nil_r; reflexivity
    | exists 1%nat; reflexivity
    | exists 2%nat; reflexivity
    | exists 3%nat; reflexivity
    | exists 4%nat; reflexivity ].

Ltac modes_method := wp_auto modes_simp; modes_done.

Lemma modes_steps srv fuel :
  Forall2 (fun m modes => forall self s,
             wp (checked_step (fun _ _ => true) modes_after) (m self)
                (modes_are s modes) s)
          (demo_steps srv fuel) step_modes.
Proof.
  repeat constructor; intros self s.
  - unfold clear. modes_method.
  - unfold create_db_and_table. modes_method.
  - unfold upsert_data. modes_method.
  - unfold select_data. modes_method.
  - unfold change_table_schema. modes_method.
  - unfold show_table_stats. modes_method.
  - unfold query_data. modes_method.
  - unfold batch_query_data. modes_method.
  - unfold vector_search. modes_method.
  - unfold search_iterator. modes_method.
  - unfold bm25_search. modes_method.
  - unfold hybrid_search. modes_method.
  - unfold update_data. modes_method.
  - unfold delete_data. modes_method.
  - unfold drop_and_create_vindex. modes_method.
  - unfold binary_vector_usage_example. modes_method.
  - unfold sparse_vector_usage_example. modes_method.
  - unfold delete_and_drop. modes_method.
Qed.

Lemma firstn_app_short {A} k (l1 l2 : list A) :
  exists k', firstn k l1 = firstn k' (l1 ++ l2).
Proof.
  exists (Nat.min k (List.length l1)). rewrite firstn_app.
  replace (Nat.min k (List.length l1) - List.length l1)%nat with 0%nat by lia.
  cbn [firstn]. rewrite app_nil_r.
  destruct (Nat.le_ge_cases k (List.length l1)) as [H|H].
  - rewrite Nat.min_l by exact H. reflexivity.
  - rewrite Nat.min_r by exact H. rewrite !firstn_all2 by lia. reflexivity.
Qed.

Lemma modes_run_steps (ms : list (M unit)) (Ls : list (list SearchMode)) :
  Forall2 (fun m modes => forall s,
             wp (checked_step (fun _ _ => true) modes_after) m (modes_are s modes) s)
          ms Ls ->
  forall s, wp (checked_step (fun _ _ => true) modes_after) (run_steps ms)
               (modes_are s (List.concat Ls)) s.
Proof.
  induction 1 as [|m L ms Ls Hm _ IH]; intros s; cbn [run_steps List.concat].
  - apply wp_ret. cbn. rewrite app_nil_r. reflexivity.
  - apply wp_bind. eapply wp_mono; [|apply Hm].
    intros [[]|e|] s' H'; cbn [after modes_are] in *.
    + subst s'. eapply wp_mono; [|apply IH].
      intros [[]|e|] s'' H''; cbn [modes_are] in *.
      * rewrite H'', app_assoc. reflexivity.
      * destruct H'' as [k ->]. exists (List.length L + k)%nat.
        rewrite firstn_app_2, app_assoc. reflexivity.
      * destruct H'' as [k ->]. exists (List.length L + k)%nat.
        rewrite firstn_app_2, app_assoc. reflexivity.
    + destruct H' as [k ->].
      destruct (firstn_app_short k L (List.concat Ls)) as [k' E]. exists k'.
      rewrite E. reflexivity.
    + destruct H' as [k ->].
      destruct (firstn_app_short k L (List.concat Ls)) as [k' E]. exists k'.
      rewrite E. reflexivity.
Qed.

Lemma modes_sound (m : M unit) modes h :
  wp (checked_step (fun _ _ => true) modes_after) m (modes_are [] modes) [] ->
  (exists k, search_modes (snd (m h)) = firstn k modes) /\
  (fst (m h) = Ok tt -> search_modes (snd (m h)) = modes).
Proof.
  intros H. destruct (wp_run h H) as (s' & Hrun & HQ).
  apply checked_run in Hrun. destruct Hrun as [-> _].
  fold (search_modes (snd (m h))) in HQ. split.
  - destruct (fst (m h)) as [[]|e|]; cbn [modes_are app] in HQ.
    + exists (List.length modes). rewrite firstn_all. exact HQ.
    + exact HQ.
    + exact HQ.
  - intros E. rewrite E in HQ. exact HQ.
Qed.

(** The searches come in a fixed order, each once. A run of
    [vector_search] that returns has made exactly four searches: top-k,
    range, batch, multi-vector; a run of [main] that returns exactly
    eight: those four, BM25, hybrid, and the top-k searches of the two
    usage examples. A run that does not return has made the first of
    them, in that order, and no other. *)
Theorem searches_come_in_order (srv : Server) (fuel : nat) :
  (forall h,
     (exists k, search_modes (snd (main srv fuel h)) =
                firstn k (List.concat step_modes)) /\
     (fst (main srv fuel h) = Ok tt ->
      search_modes (snd (main srv fuel h)) =
      [TopkSearch; RangeSearch; BatchSearch; MultiVectorSearch;
       BM25Search; HybridSearch; TopkSearch; TopkSearch])) /\
  Forall2 (fun m modes =>
             forall self h,
               (exists k, search_modes (snd (m self h)) = firstn k modes) /\
               (fst (m self h) = Ok tt -> search_modes (snd (m self h)) = modes))
          (demo_steps srv fuel) step_modes.
Proof.
  split.
  - intros h.
    assert (H : wp (checked_step (fun _ _ => true) modes_after) (main srv fuel)
                   (modes_are [] (List.concat step_modes)) []).
    { apply wp_ext with
        (m' := run_steps (map (fun m => m main_test_vdb) (demo_steps srv fuel)));
        [apply main_run_steps|].
      apply modes_run_steps.
      generalize (modes_steps srv fuel). generalize step_modes.
      generalize (demo_steps srv fuel).
      induction 1 as [|m L ms Ls Hm _ IH]; cbn [map]; constructor.
      - intros s. apply Hm.
      - exact IH. }
    exact (modes_sound _ _ h H).
  - generalize (modes_steps srv fuel). apply Forall2_impl.
    intros m modes Hm self h. apply modes_sound. apply Hm.
Qed.

(** On [demo_server] the run of [main] makes the eight searches. *)
Lemma searches_come_in_order_witness :
  search_modes (snd (main demo_server 5 [])) =
  [TopkSearch; RangeSearch; BatchSearch; MultiVectorSearch;
   BM25Search; HybridSearch; TopkSearch; TopkSearch].
Proof.
  exact (proj2 (proj1 (searches_come_in_order demo_server 5) [])
               (f_equal fst demo_run)).
Defined.

(** ** The table description that [create_db_and_table] logs *)

Ltac seen_table_simp :=
  unfold checked_step;
  cbn [logs_last_description see last_described modified logged_since];
  repeat match goal with
         | H : modified _ = _ |- _ => rewrite H
         | H : logged_since _ = _ |- _ => rewrite H
         end;
  rewrite ?table_eqb_refl; cbn [negb orb].

Ltac seen_table_step :=
  lazymatch goal with
  | |- wp _ (while_true _ _ _) _ _ =>
      apply wp_while
        with (Inv := fun _ s' => modified s' = false /\ logged_since s' = false);
      [ intros ? ? [? ?] | intros ? ? [? ?] | split; reflexivity ]
  | |- _ /\ _ => split
  | |- _ = _ => first [reflexivity | assumption]
  | |- True => exact I
  | _ => wp_step seen_table_simp
  end.

Lemma create_db_and_table_logs srv fuel self :
  wp (checked_step logs_last_description see) (create_db_and_table srv fuel self)
     (fun r s => match r with
                 | Ok _ => logged_since s = true
                 | _ => True
                 end) nothing_seen.
Proof.
  unfold create_db_and_table, nothing_seen. cbv zeta. repeat seen_table_step.
Qed.

Lemma see_modified ev : forall s,
  modified (fold_left see ev s) = modified s || existsb is_modify_table ev.
Proof.
  induction ev as [|e ev IH]; intros s; cbn [fold_left existsb].
  - rewrite orb_false_r. reflexivity.
  - rewrite IH, orb_assoc. f_equal.
    destruct e as [R c r| |t [[]|]]; cbn [see is_modify_table modified];
      rewrite ?orb_false_r; try reflexivity.
    destruct c; cbn [modified]; rewrite ?orb_false_r, ?orb_true_r;
      try reflexivity.
    destruct r; cbn [modified]; reflexivity.
Qed.

Lemma see_logged_since ev : forall s,
  logged_since (fold_left see ev s) = true ->
  logged_since s = true \/
  exists pre e post, ev = pre ++ e :: post /\ is_table_log e = true /\
                     modified (fold_left see pre s) = true.
Proof.
  induction ev as [|e ev IH]; intros s H; cbn [fold_left] in H.
  - left. exact H.
  - destruct (IH _ H) as [Hl|(pre & e' & post & -> & He & Hm)].
    + destruct (logged_since s) eqn:Es; [left; reflexivity|right].
      exists [], e, ev. split; [reflexivity|]. cbn [fold_left].
      destruct e as [R c r| |t [[]|]]; cbn [see logged_since] in Hl;
        try congruence.
      * destruct c; cbn [logged_since] in Hl; try congruence.
        destruct r; cbn [logged_since] in Hl; congruence.
      * rewrite Es in Hl. cbn [orb] in Hl. split; [reflexivity|exact Hl].
    + right. exists (e :: pre), e', post. split; [reflexivity|].
      split; [exact He|exact Hm].
Qed.

(** Both "table: {}" lines of [create_db_and_table] print the
    description its last poll returned: the table is not described
    again after [modify_table], so the line logged after it shows the
    table as it was before. A run that returns has logged the table
    after a [modify_table]. *)
Theorem create_db_and_table_logs_the_polled_table (srv : Server) (fuel : nat)
    (self : TestMochow) (h : list Event) :
  let ev := snd (create_db_and_table srv fuel self h) in
  (forall pre e post,
     ev = pre ++ e :: post ->
     logs_last_description (fold_left see pre nothing_seen) e = true) /\
  (fst (create_db_and_table srv fuel self h) = Ok tt ->
   exists pre e post, ev = pre ++ e :: post /\ is_table_log e = true /\
                      existsb is_modify_table pre = true).
Proof.
  cbv zeta.
  destruct (wp_run h (create_db_and_table_logs srv fuel self)) as (s' & Hrun & HQ).
  apply checked_run in Hrun. destruct Hrun as [-> Hall].
  split; [exact Hall|]. intros Hr. rewrite Hr in HQ.
  destruct (see_logged_since _ _ HQ) as [Hl|(pre & e & post & E & He & Hm)];
    [discriminate Hl|].
  exists pre, e, post. split; [exact E|]. split; [exact He|].
  rewrite see_modified in Hm. exact Hm.
Qed.

(** The check tells: a table that is described again after
    [modify_table], or a log of another description than the last,
    does not pass. *)
Example logs_last_description_tells (db : Database) (t t' : Table)
    (r : SdkError + Response) :
  logs_last_description
    (fold_left see [EvCall (db_modify_table db "book_segments" 0.1) r] nothing_seen)
    (EvCall (db_describe_table db "book_segments") (inr t)) = false /\
  (table_eqb t' t = false ->
   logs_last_description
     (fold_left see [EvCall (db_describe_table db "book_segments") (inr t)]
                nothing_seen)
     (EvLog "table: {}" (Some (PTable t'))) = false).
Proof. split; [reflexivity|]. intros H. cbn. exact H. Qed.
